(** * Offline store, conflict resolution and sync orchestration of my-money-mat

    A shallow embedding of
      - [lib/budgetDb.ts]            (the Lovefield table of budget items),
      - [lib/offlineDb.ts]           (the mutation outbox),
      - [lib/conflictResolution.ts]  (detection and resolution of conflicts),
      - [hooks/useOnlineSync.ts]     (the sync pass and conflict resolution),
      - [contexts/OfflineSyncContext] (the outbox replay loop),
    together with the properties the specification states about them. *)

From Stdlib Require Import ZArith String Ascii List Bool Lia Floats Sorted Permutation.
From stdpp Require Import gmap strings list pretty.

Local Open Scope Z_scope.
Local Open Scope string_scope.

(** ** JavaScript numbers and dates

    [Date.prototype.getTime] returns either an integral number of
    milliseconds (of magnitude at most 8.64e15) or [NaN] for an invalid date.
    A [Number] is [None] for [NaN].  Every comparison with [NaN] is false.
    Differences of two time values may exceed 2^53 and round in binary64,
    but rounding is monotone and 1000 is exact, so comparing the exact
    difference with the tolerance gives the same answer. *)

Definition Number := option Z.

Definition num_gt (a b : Number) : bool :=
  match a, b with
  | Some x, Some y => x >? y
  | _, _ => false
  end.

Definition num_ge (a b : Number) : bool :=
  match a, b with
  | Some x, Some y => x >=? y
  | _, _ => false
  end.

Definition num_sub (a b : Number) : Number :=
  match a, b with
  | Some x, Some y => Some (x - y)
  | _, _ => None
  end.

Definition Math_abs (a : Number) : Number := option_map Z.abs a.

(** A [Date] object is its time value. *)
Inductive JSDate :=
| InvalidDate
| Instant (ms : Z).

Definition getTime (d : JSDate) : Number :=
  match d with
  | InvalidDate => None
  | Instant ms => Some ms
  end.

(** ** Data model *)

Inductive ItemType := income | expense.

Module BudgetItem.
Record t := mk {
  id : string;
  category : string;
  description : string;
  amount : float;
  type : ItemType;
  date : JSDate;
  synced : bool;
  updatedAt : JSDate;
  createdAt : JSDate;
  deleted : bool;
}.
End BudgetItem.

Module ServerBudgetItem.
Record t := mk {
  id : string;
  category : string;
  description : string;
  amount : float;
  type : ItemType;
  date : string;
  updatedAt : string;
  createdAt : string;
  deleted : bool;
}.
End ServerBudgetItem.

Inductive ConflictType := update | delete_local | delete_server | both_modified.

Record SyncConflict := mkConflict {
  localItem : BudgetItem.t;
  serverItem : ServerBudgetItem.t;
  conflictType : ConflictType;
}.

Inductive ConflictResolution := keep_local | keep_server | merge | pending.

(** [ResolvedConflict extends SyncConflict] *)
Record ResolvedConflict := mkResolved {
  conflict : SyncConflict;
  resolution : ConflictResolution;
  mergedItem : option BudgetItem.t;
}.

(** [Partial<BudgetItem>]: a field is [None] when the property is absent. *)
Module Partial.
Record t := mk {
  id : option string;
  category : option string;
  description : option string;
  amount : option float;
  type : option ItemType;
  date : option JSDate;
  synced : option bool;
  updatedAt : option JSDate;
  createdAt : option JSDate;
  deleted : option bool;
}.
Definition empty : t := mk None None None None None None None None None None.
End Partial.

(** What [addBudgetItem] receives: [Omit<BudgetItem, 'id' | 'synced' |
    'updatedAt' | 'createdAt' | 'deleted'>]. *)
Module NewItem.
Record t := mk {
  category : string;
  description : string;
  amount : float;
  type : ItemType;
  date : JSDate;
}.
End NewItem.

(** One element of the [items] array POSTed to [/api/budget/sync].
    [toISOString] is injective on valid time values and raises [RangeError]
    on an invalid date, so the rendered strings are represented by the time
    values they render. *)
Module SyncPayloadItem.
Record t := mk {
  id : string;
  category : string;
  description : string;
  amount : float;
  type : ItemType;
  date : Z;
  deleted : bool;
  updatedAt : Z;
  createdAt : Z;
}.
End SyncPayloadItem.

(** What [GET /api/budget/items] produced: [FetchFailed] when [fetch] threw
    or the response was not ok; otherwise [result.items] when it is an
    array. *)
Inductive FetchResponse :=
| FetchFailed
| FetchOk (items : option (list ServerBudgetItem.t)).

(** What [POST /api/budget/sync] produced: an exception ([message] is
    present when it is an [Error]), a response that is not ok, or the
    parsed body. *)
Inductive PostResponse :=
| PostThrows (message : option string)
| PostNotOk (detail : option string) (status : nat)
| PostOk (syncedIds failedIds : option (list string)).

Record SyncResult := mkSyncResult {
  success : bool;
  syncedIds : list string;
  failedIds : list string;
  resultConflicts : list SyncConflict;
  error : option string;
}.

(** [variables: any] of a queued mutation. *)
#[local] Unset Elimination Schemes.
Inductive JSAny :=
| JSUndefined
| JSNumber (n : Z)
| JSString (s : string)
| JSObject (props : list (string * JSAny)).
#[local] Set Elimination Schemes.

Module MutationRequest.
Record t := mk {
  id : string;
  mutationKey : string;
  variables : JSAny;
  createdAt : Z;
}.
End MutationRequest.

(** ** The host environment

    The (implementation-defined) parser behind [new Date(string)], and the
    sources of non-determinism the code reads: the wall clock
    ([new Date()]), [generateId], [crypto.randomUUID], and the remote
    service.  Each oracle is indexed by the number of oracle reads made so
    far, so successive reads are unrelated. *)
Class Host := {
  Date_parse : string -> JSDate;
  wallClock : nat -> Z;
  freshBudgetId : nat -> string;
  randomUUID : nat -> string;
  fetchBudgetItems : nat -> list string -> FetchResponse;
  postBudgetSync : nat -> list SyncPayloadItem.t -> PostResponse;
  apiCall : nat -> string -> JSAny -> bool;
}.

(** ** lib/conflictResolution.ts *)

Section ConflictResolution.
Context `{Host}.

Definition TIME_TOLERANCE : Z := 1000.

Definition detectConflict (localItem : BudgetItem.t) (serverItem : ServerBudgetItem.t)
  : option SyncConflict :=
  let localUpdated := getTime (BudgetItem.updatedAt localItem) in
  let serverUpdated := getTime (Date_parse (ServerBudgetItem.updatedAt serverItem)) in
  if BudgetItem.deleted localItem && negb (ServerBudgetItem.deleted serverItem) then
    if num_gt serverUpdated localUpdated
    then Some (mkConflict localItem serverItem delete_local)
    else None
  else if negb (BudgetItem.deleted localItem) && ServerBudgetItem.deleted serverItem then
    if num_gt localUpdated serverUpdated
    then Some (mkConflict localItem serverItem delete_server)
    else None
  else
    if num_gt (Math_abs (num_sub localUpdated serverUpdated)) (Some TIME_TOLERANCE)
    then Some (mkConflict localItem serverItem both_modified)
    else None.

Definition autoResolveConflict (c : SyncConflict) : ResolvedConflict :=
  let localUpdated := getTime (BudgetItem.updatedAt (localItem c)) in
  let serverUpdated := getTime (Date_parse (ServerBudgetItem.updatedAt (serverItem c))) in
  if num_ge localUpdated serverUpdated
  then mkResolved c keep_local None
  else mkResolved c keep_server None.

(** [now] is the value of the [new Date()] evaluated in the object literal. *)
Definition mergeItems (now : JSDate) (localItem : BudgetItem.t)
    (serverItem : ServerBudgetItem.t) : BudgetItem.t :=
  let localUpdated := getTime (BudgetItem.updatedAt localItem) in
  let serverUpdated := getTime (Date_parse (ServerBudgetItem.updatedAt serverItem)) in
  {| BudgetItem.id := BudgetItem.id localItem;
     BudgetItem.category :=
       if num_ge localUpdated serverUpdated
       then BudgetItem.category localItem else ServerBudgetItem.category serverItem;
     BudgetItem.description :=
       if num_ge localUpdated serverUpdated
       then BudgetItem.description localItem else ServerBudgetItem.description serverItem;
     BudgetItem.amount :=
       if num_ge localUpdated serverUpdated
       then BudgetItem.amount localItem else ServerBudgetItem.amount serverItem;
     BudgetItem.type :=
       if num_ge localUpdated serverUpdated
       then BudgetItem.type localItem else ServerBudgetItem.type serverItem;
     BudgetItem.date :=
       if num_ge localUpdated serverUpdated
       then BudgetItem.date localItem else Date_parse (ServerBudgetItem.date serverItem);
     BudgetItem.synced := false;
     BudgetItem.updatedAt := now;
     BudgetItem.createdAt := BudgetItem.createdAt localItem;
     BudgetItem.deleted := false |}.

Definition serverItemToLocal (serverItem : ServerBudgetItem.t) : BudgetItem.t :=
  {| BudgetItem.id := ServerBudgetItem.id serverItem;
     BudgetItem.category := ServerBudgetItem.category serverItem;
     BudgetItem.description := ServerBudgetItem.description serverItem;
     BudgetItem.amount := ServerBudgetItem.amount serverItem;
     BudgetItem.type := ServerBudgetItem.type serverItem;
     BudgetItem.date := Date_parse (ServerBudgetItem.date serverItem);
     BudgetItem.synced := true;
     BudgetItem.updatedAt := Date_parse (ServerBudgetItem.updatedAt serverItem);
     BudgetItem.createdAt := Date_parse (ServerBudgetItem.createdAt serverItem);
     BudgetItem.deleted := ServerBudgetItem.deleted serverItem |}.

Definition with_synced (b : bool) (i : BudgetItem.t) : BudgetItem.t :=
  {| BudgetItem.id := BudgetItem.id i;
     BudgetItem.category := BudgetItem.category i;
     BudgetItem.description := BudgetItem.description i;
     BudgetItem.amount := BudgetItem.amount i;
     BudgetItem.type := BudgetItem.type i;
     BudgetItem.date := BudgetItem.date i;
     BudgetItem.synced := b;
     BudgetItem.updatedAt := BudgetItem.updatedAt i;
     BudgetItem.createdAt := BudgetItem.createdAt i;
     BudgetItem.deleted := BudgetItem.deleted i |}.

(** [now] is only read on the [merge] branch when no merged item was
    precomputed ([resolved.mergedItem || mergeItems(...)]). *)
Definition applyResolution (now : JSDate) (resolved : ResolvedConflict) : BudgetItem.t :=
  match resolution resolved with
  | keep_local => with_synced false (localItem (conflict resolved))
  | keep_server => serverItemToLocal (serverItem (conflict resolved))
  | merge =>
      match mergedItem resolved with
      | Some m => m
      | None => mergeItems now (localItem (conflict resolved)) (serverItem (conflict resolved))
      end
  | pending => localItem (conflict resolved)
  end.

End ConflictResolution.

(** ** Lovefield tables

    A table is the list of its rows in row-id (insertion) order; the
    primary key of both tables is the [id] column.  [insertOrReplace] keeps
    the row id of the row it replaces, so the row stays in place. *)

Section Table.
Context {Row : Type} (key : Row -> string).

Definition selectById (k : string) (t : list Row) : list Row :=
  List.filter (fun r => String.eqb (key r) k) t.

Definition deleteById (k : string) (t : list Row) : list Row :=
  List.filter (fun r => negb (String.eqb (key r) k)) t.

Definition insertOrReplace (r : Row) (t : list Row) : list Row :=
  if existsb (fun x => String.eqb (key x) (key r)) t
  then map (fun x => if String.eqb (key x) (key r) then r else x) t
  else t ++ [r].

End Table.

(** ** The state of the client

    The two tables, the React state of [useOnlineSync] and of
    [OfflineSyncProvider], [navigator.onLine], the number of oracle reads,
    and two ghost logs: the request bodies POSTed to [/api/budget/sync] and
    the calls of [executeMutationHelper] with their outcome ([true] when the
    call returned, [false] when it threw). *)
Record World := mkWorld {
  budgetItems : list BudgetItem.t;
  mutationQueue : list MutationRequest.t;
  reads : nat;
  online : bool;
  syncInProgress : bool;
  isSyncing : bool;
  lastSyncTime : option JSDate;
  syncError : option string;
  unsyncedCount : nat;
  conflicts : list SyncConflict;
  outboxSyncing : bool;
  posted : list (list SyncPayloadItem.t);
  invoked : list (MutationRequest.t * bool);
}.

Definition set_budgetItems (v : list BudgetItem.t) (w : World) : World :=
  mkWorld v (mutationQueue w) (reads w) (online w) (syncInProgress w) (isSyncing w)
    (lastSyncTime w) (syncError w) (unsyncedCount w) (conflicts w) (outboxSyncing w)
    (posted w) (invoked w).

Definition set_mutationQueue (v : list MutationRequest.t) (w : World) : World :=
  mkWorld (budgetItems w) v (reads w) (online w) (syncInProgress w) (isSyncing w)
    (lastSyncTime w) (syncError w) (unsyncedCount w) (conflicts w) (outboxSyncing w)
    (posted w) (invoked w).

Definition set_reads (v : nat) (w : World) : World :=
  mkWorld (budgetItems w) (mutationQueue w) v (online w) (syncInProgress w) (isSyncing w)
    (lastSyncTime w) (syncError w) (unsyncedCount w) (conflicts w) (outboxSyncing w)
    (posted w) (invoked w).

Definition set_syncInProgress (v : bool) (w : World) : World :=
  mkWorld (budgetItems w) (mutationQueue w) (reads w) (online w) v (isSyncing w)
    (lastSyncTime w) (syncError w) (unsyncedCount w) (conflicts w) (outboxSyncing w)
    (posted w) (invoked w).

Definition set_isSyncing (v : bool) (w : World) : World :=
  mkWorld (budgetItems w) (mutationQueue w) (reads w) (online w) (syncInProgress w) v
    (lastSyncTime w) (syncError w) (unsyncedCount w) (conflicts w) (outboxSyncing w)
    (posted w) (invoked w).

Definition set_lastSyncTime (v : option JSDate) (w : World) : World :=
  mkWorld (budgetItems w) (mutationQueue w) (reads w) (online w) (syncInProgress w)
    (isSyncing w) v (syncError w) (unsyncedCount w) (conflicts w) (outboxSyncing w)
    (posted w) (invoked w).

Definition set_syncError (v : option string) (w : World) : World :=
  mkWorld (budgetItems w) (mutationQueue w) (reads w) (online w) (syncInProgress w)
    (isSyncing w) (lastSyncTime w) v (unsyncedCount w) (conflicts w) (outboxSyncing w)
    (posted w) (invoked w).

Definition set_unsyncedCount (v : nat) (w : World) : World :=
  mkWorld (budgetItems w) (mutationQueue w) (reads w) (online w) (syncInProgress w)
    (isSyncing w) (lastSyncTime w) (syncError w) v (conflicts w) (outboxSyncing w)
    (posted w) (invoked w).

Definition set_conflicts (v : list SyncConflict) (w : World) : World :=
  mkWorld (budgetItems w) (mutationQueue w) (reads w) (online w) (syncInProgress w)
    (isSyncing w) (lastSyncTime w) (syncError w) (unsyncedCount w) v (outboxSyncing w)
    (posted w) (invoked w).

Definition set_outboxSyncing (v : bool) (w : World) : World :=
  mkWorld (budgetItems w) (mutationQueue w) (reads w) (online w) (syncInProgress w)
    (isSyncing w) (lastSyncTime w) (syncError w) (unsyncedCount w) (conflicts w) v
    (posted w) (invoked w).

Definition set_posted (v : list (list SyncPayloadItem.t)) (w : World) : World :=
  mkWorld (budgetItems w) (mutationQueue w) (reads w) (online w) (syncInProgress w)
    (isSyncing w) (lastSyncTime w) (syncError w) (unsyncedCount w) (conflicts w)
    (outboxSyncing w) v (invoked w).

Definition set_invoked (v : list (MutationRequest.t * bool)) (w : World) : World :=
  mkWorld (budgetItems w) (mutationQueue w) (reads w) (online w) (syncInProgress w)
    (isSyncing w) (lastSyncTime w) (syncError w) (unsyncedCount w) (conflicts w)
    (outboxSyncing w) (posted w) v.

(** Asynchronous functions are state transformers on the world. *)
Definition M (A : Type) : Type := World -> A * World.

Definition ret {A} (a : A) : M A := fun w => (a, w).

Definition bind {A B} (c : M A) (k : A -> M B) : M B :=
  fun w => let (a, w') := c w in k a w'.

Notation "'let!' x ':=' c 'in' k" := (bind c (fun x => k))
  (at level 10, x name, c at level 100, k at level 200).
Notation "'do!' c 'in' k" := (bind c (fun _ => k))
  (at level 10, c at level 100, k at level 200).

Definition gets {A} (f : World -> A) : M A := fun w => (f w, w).
Definition modify (f : World -> World) : M unit := fun w => (tt, f w).

(** [for (const x of l) { body }] *)
Fixpoint forOf {A} (body : A -> M unit) (l : list A) : M unit :=
  match l with
  | [] => ret tt
  | x :: rest => do! body x in forOf body rest
  end.

Definition exec {A} (c : M A) (w : World) : World := snd (c w).
Definition eval {A} (c : M A) (w : World) : A := fst (c w).

(** ** lib/budgetDb.ts *)

Section BudgetDb.
Context `{Host}.

(** [new Date()] *)
Definition newDate : M JSDate :=
  fun w => (Instant (wallClock (reads w)), set_reads (S (reads w)) w).

(** [generateId()] reads the clock and [Math.random]. *)
Definition generateId : M string :=
  fun w => (freshBudgetId (reads w), set_reads (S (reads w)) w).

Definition selectBudgetById (id : string) : M (list BudgetItem.t) :=
  gets (fun w => selectById BudgetItem.id id (budgetItems w)).

Definition insertOrReplaceBudget (row : BudgetItem.t) : M unit :=
  modify (fun w => set_budgetItems (insertOrReplace BudgetItem.id row (budgetItems w)) w).

Definition addBudgetItem (item : NewItem.t) : M BudgetItem.t :=
  let! newId := generateId in
  let! updated := newDate in
  let! created := newDate in
  let newItem :=
    {| BudgetItem.id := newId;
       BudgetItem.category := NewItem.category item;
       BudgetItem.description := NewItem.description item;
       BudgetItem.amount := NewItem.amount item;
       BudgetItem.type := NewItem.type item;
       BudgetItem.date := NewItem.date item;
       BudgetItem.synced := false;
       BudgetItem.updatedAt := updated;
       BudgetItem.createdAt := created;
       BudgetItem.deleted := false |} in
  do! insertOrReplaceBudget newItem in
  ret newItem.

(** [{ ...existingItem, ...updates }]: a property present in [updates]
    overrides the one of [existingItem]. *)
Definition spread (existingItem : BudgetItem.t) (updates : Partial.t) : BudgetItem.t :=
  {| BudgetItem.id := default (BudgetItem.id existingItem) (Partial.id updates);
     BudgetItem.category :=
       default (BudgetItem.category existingItem) (Partial.category updates);
     BudgetItem.description :=
       default (BudgetItem.description existingItem) (Partial.description updates);
     BudgetItem.amount := default (BudgetItem.amount existingItem) (Partial.amount updates);
     BudgetItem.type := default (BudgetItem.type existingItem) (Partial.type updates);
     BudgetItem.date := default (BudgetItem.date existingItem) (Partial.date updates);
     BudgetItem.synced := default (BudgetItem.synced existingItem) (Partial.synced updates);
     BudgetItem.updatedAt :=
       default (BudgetItem.updatedAt existingItem) (Partial.updatedAt updates);
     BudgetItem.createdAt :=
       default (BudgetItem.createdAt existingItem) (Partial.createdAt updates);
     BudgetItem.deleted := default (BudgetItem.deleted existingItem) (Partial.deleted updates) |}.

Definition updateBudgetItem (id : string) (updates : Partial.t) : M (option BudgetItem.t) :=
  let! existingItems := selectBudgetById id in
  match existingItems with
  | [] => ret None
  | existingItem :: _ =>
      let! now := newDate in
      let merged := spread existingItem updates in
      let updatedItem :=
        {| BudgetItem.id := id;
           BudgetItem.category := BudgetItem.category merged;
           BudgetItem.description := BudgetItem.description merged;
           BudgetItem.amount := BudgetItem.amount merged;
           BudgetItem.type := BudgetItem.type merged;
           BudgetItem.date := BudgetItem.date merged;
           BudgetItem.synced := false;
           BudgetItem.updatedAt := now;
           BudgetItem.createdAt := BudgetItem.createdAt merged;
           BudgetItem.deleted := BudgetItem.deleted merged |} in
      do! insertOrReplaceBudget updatedItem in
      ret (Some updatedItem)
  end.

Definition deleteBudgetItem (id : string) : M bool :=
  let! result :=
    updateBudgetItem id
      (Partial.mk None None None None None None (Some false) None None (Some true)) in
  match result with
  | Some _ => ret true
  | None => ret false
  end.

Definition hardDeleteBudgetItem (id : string) : M unit :=
  modify (fun w => set_budgetItems (deleteById BudgetItem.id id (budgetItems w)) w).

Definition getUnsyncedItems : M (list BudgetItem.t) :=
  gets (fun w => List.filter (fun r => negb (BudgetItem.synced r)) (budgetItems w)).

(** [orderBy(table['date'], lf.Order.DESC)]: a stable sort, latest date
    first.  Two dates are compared through their time values, so an invalid
    date compares as equal to every other date; the statements about the
    order of the result are made for valid dates only. *)
Fixpoint insertByDateDesc (r : BudgetItem.t) (sorted : list BudgetItem.t)
  : list BudgetItem.t :=
  match sorted with
  | [] => [r]
  | x :: rest =>
      if num_gt (getTime (BudgetItem.date x)) (getTime (BudgetItem.date r))
      then x :: insertByDateDesc r rest
      else r :: x :: rest
  end.

Definition orderByDateDesc (rows : list BudgetItem.t) : list BudgetItem.t :=
  foldr insertByDateDesc [] rows.

Definition getAllBudgetItems : M (list BudgetItem.t) :=
  gets (fun w =>
    orderByDateDesc (List.filter (fun r => negb (BudgetItem.deleted r)) (budgetItems w))).

Definition markItemsAsSynced (ids : list string) : M unit :=
  forOf (fun id =>
    let! items := selectBudgetById id in
    match items with
    | item :: _ =>
        if BudgetItem.deleted item
        then hardDeleteBudgetItem id
        else insertOrReplaceBudget (with_synced true item)
    | [] => ret tt
    end) ids.

End BudgetDb.

(** ** hooks/useOnlineSync.ts *)

Section OnlineSync.
Context `{Host}.

(** JavaScript truthiness of an optional string. *)
Definition truthy (s : option string) : option string :=
  match s with
  | Some "" => None
  | other => other
  end.

(** [result.items.forEach(item => serverItems.set(item.id, item))] *)
Definition serverItemsMap (items : list ServerBudgetItem.t) : gmap string ServerBudgetItem.t :=
  foldl (fun m item => <[ServerBudgetItem.id item := item]> m) ∅ items.

Definition fetchServerItems (ids : list string) : M (gmap string ServerBudgetItem.t) :=
  fun w =>
    (match fetchBudgetItems (reads w) ids with
     | FetchOk (Some items) => serverItemsMap items
     | FetchOk None => ∅
     | FetchFailed => ∅
     end, set_reads (S (reads w)) w).

(** The loop of [syncItemsToServer] that fills [conflicts] and
    [itemsToSync], both in the order of [items]. *)
Fixpoint checkItems (serverItems : gmap string ServerBudgetItem.t)
    (items : list BudgetItem.t) : list SyncConflict * list BudgetItem.t :=
  match items with
  | [] => ([], [])
  | localItem :: rest =>
      let (conflicts, itemsToSync) := checkItems serverItems rest in
      match serverItems !! BudgetItem.id localItem with
      | Some serverItem =>
          match detectConflict localItem serverItem with
          | Some conflict => (conflict :: conflicts, itemsToSync)
          | None => (conflicts, localItem :: itemsToSync)
          end
      | None => (conflicts, localItem :: itemsToSync)
      end
  end.

(** [toISOString] raises [RangeError] on an invalid date. *)
Definition toISOString (d : JSDate) : option Z :=
  match d with
  | InvalidDate => None
  | Instant ms => Some ms
  end.

Definition payloadItem (item : BudgetItem.t) : option SyncPayloadItem.t :=
  match toISOString (BudgetItem.date item),
        toISOString (BudgetItem.updatedAt item),
        toISOString (BudgetItem.createdAt item) with
  | Some date, Some updatedAt, Some createdAt =>
      Some {| SyncPayloadItem.id := BudgetItem.id item;
              SyncPayloadItem.category := BudgetItem.category item;
              SyncPayloadItem.description := BudgetItem.description item;
              SyncPayloadItem.amount := BudgetItem.amount item;
              SyncPayloadItem.type := BudgetItem.type item;
              SyncPayloadItem.date := date;
              SyncPayloadItem.deleted := BudgetItem.deleted item;
              SyncPayloadItem.updatedAt := updatedAt;
              SyncPayloadItem.createdAt := createdAt |}
  | _, _, _ => None
  end.

Fixpoint payload (items : list BudgetItem.t) : option (list SyncPayloadItem.t) :=
  match items with
  | [] => Some []
  | item :: rest =>
      match payloadItem item, payload rest with
      | Some p, Some ps => Some (p :: ps)
      | _, _ => None
      end
  end.

(** [fetch(`${apiUrl}/api/budget/sync`, { method: 'POST', body })] *)
Definition postSync (body : list SyncPayloadItem.t) : M PostResponse :=
  fun w =>
    (postBudgetSync (reads w) body,
     set_posted (posted w ++ [body]) (set_reads (S (reads w)) w)).

Definition syncItemsToServer (items : list BudgetItem.t) : M SyncResult :=
  let failure (message : string) :=
    mkSyncResult false [] (map BudgetItem.id items) [] (Some message) in
  let! serverItems := fetchServerItems (map BudgetItem.id items) in
  let (conflicts, itemsToSync) := checkItems serverItems items in
  if (0 <? length conflicts)%nat then
    ret (mkSyncResult false [] [] conflicts
           (Some (pretty (length conflicts) +:+ " conflict(s) detected. Please resolve them.")))
  else if (length itemsToSync =? 0)%nat then
    ret (mkSyncResult true [] [] [] None)
  else
    match payload itemsToSync with
    | None => ret (failure "Invalid time value")
    | Some body =>
        let! response := postSync body in
        match response with
        | PostThrows message => ret (failure (default "Sync failed" message))
        | PostNotOk detail status =>
            ret (failure (default ("Server returned " +:+ pretty status) (truthy detail)))
        | PostOk syncedIds failedIds =>
            ret (mkSyncResult true
                   (default (map BudgetItem.id itemsToSync) syncedIds)
                   (default [] failedIds) [] None)
        end
    end.

Definition updateUnsyncedCount : M unit :=
  let! items := getUnsyncedItems in
  modify (set_unsyncedCount (length items)).

(** [applyResolution] reads the clock only when it has to call
    [mergeItems]. *)
Definition applyResolutionNow (resolved : ResolvedConflict) : M BudgetItem.t :=
  match resolution resolved, mergedItem resolved with
  | merge, None =>
      let! now := newDate in
      ret (applyResolution now resolved)
  | _, _ => ret (applyResolution InvalidDate resolved)
  end.

Definition resolvedFields (finalItem : BudgetItem.t) : Partial.t :=
  {| Partial.id := None;
     Partial.category := Some (BudgetItem.category finalItem);
     Partial.description := Some (BudgetItem.description finalItem);
     Partial.amount := Some (BudgetItem.amount finalItem);
     Partial.type := Some (BudgetItem.type finalItem);
     Partial.date := Some (BudgetItem.date finalItem);
     Partial.synced := Some (BudgetItem.synced finalItem);
     Partial.updatedAt := None;
     Partial.createdAt := None;
     Partial.deleted := Some (BudgetItem.deleted finalItem) |}.

Definition isKeepServer (r : ConflictResolution) : bool :=
  match r with
  | keep_server => true
  | _ => false
  end.

(** The body of [resolveConflicts] up to the point where it arms the timer
    that later calls [triggerSync]. *)
Definition resolveConflicts (resolutions : list ResolvedConflict) : M unit :=
  do! forOf (fun resolved =>
        let! finalItem := applyResolutionNow resolved in
        if isKeepServer (resolution resolved)
           && ServerBudgetItem.deleted (serverItem (conflict resolved))
        then hardDeleteBudgetItem (BudgetItem.id (localItem (conflict resolved)))
        else
          do! updateBudgetItem (BudgetItem.id (localItem (conflict resolved)))
                (resolvedFields finalItem) in
          ret tt) resolutions in
  do! modify (set_conflicts []) in
  updateUnsyncedCount.

Definition triggerSync : M SyncResult :=
  let! inProgress := gets syncInProgress in
  let! syncing := gets isSyncing in
  if inProgress || syncing then
    ret (mkSyncResult false [] [] [] (Some "Sync already in progress"))
  else
    let! isOnline := gets online in
    if negb isOnline then
      ret (mkSyncResult false [] [] [] (Some "No internet connection"))
    else
      do! modify (set_syncInProgress true) in
      do! modify (set_isSyncing true) in
      do! modify (set_syncError None) in
      let! result :=
        (let! unsyncedItems := getUnsyncedItems in
         if (length unsyncedItems =? 0)%nat then
           let! now := newDate in
           do! modify (set_lastSyncTime (Some now)) in
           ret (mkSyncResult true [] [] [] None)
         else
           let! result := syncItemsToServer unsyncedItems in
           if (0 <? length (resultConflicts result))%nat then
             do! modify (set_conflicts (resultConflicts result)) in
             ret result
           else if success result && (0 <? length (syncedIds result))%nat then
             do! markItemsAsSynced (syncedIds result) in
             let! now := newDate in
             do! modify (set_lastSyncTime (Some now)) in
             do! updateUnsyncedCount in
             ret result
           else
             match truthy (error result) with
             | Some message =>
                 do! modify (set_syncError (Some message)) in
                 ret result
             | None => ret result
             end) in
      do! modify (set_isSyncing false) in
      do! modify (set_syncInProgress false) in
      ret result.

(** The timer armed by [resolveConflicts] fires: it clears the guard and
    starts a new pass. *)
Definition resolveConflictsTimer : M SyncResult :=
  do! modify (set_syncInProgress false) in
  triggerSync.

Definition autoResolveAllConflicts : M unit :=
  let! pendingConflicts := gets conflicts in
  if (length pendingConflicts =? 0)%nat then ret tt
  else resolveConflicts (map autoResolveConflict pendingConflicts).

End OnlineSync.

(** ** lib/offlineDb.ts and the replay loop of [OfflineSyncProvider] *)

Section Outbox.
Context `{Host}.

Definition queueMutation (mutationKey : string) (variables : JSAny) : M unit :=
  fun w =>
    let id := randomUUID (reads w) in
    let createdAt := wallClock (S (reads w)) in
    let row := MutationRequest.mk id mutationKey variables createdAt in
    (tt, set_mutationQueue (insertOrReplace MutationRequest.id row (mutationQueue w))
           (set_reads (S (S (reads w))) w)).

(** [orderBy(table['createdAt'], lf.Order.ASC)]: a stable sort of the rows
    on the [createdAt] column. *)
Fixpoint insertByCreatedAt (r : MutationRequest.t) (sorted : list MutationRequest.t)
  : list MutationRequest.t :=
  match sorted with
  | [] => [r]
  | x :: rest =>
      if (MutationRequest.createdAt r <=? MutationRequest.createdAt x)%Z
      then r :: x :: rest
      else x :: insertByCreatedAt r rest
  end.

Definition orderByCreatedAtAsc (rows : list MutationRequest.t) : list MutationRequest.t :=
  foldr insertByCreatedAt [] rows.

Definition getQueuedMutations : M (list MutationRequest.t) :=
  gets (fun w => orderByCreatedAtAsc (mutationQueue w)).

Definition removeMutationFromQueue (id : string) : M unit :=
  modify (fun w => set_mutationQueue (deleteById MutationRequest.id id (mutationQueue w)) w).

Definition knownMutationKeys : list string :=
  [ "createBudget"; "updateBudget"; "createExpense"; "deleteExpense"; "createIncome";
    "createBankAccount"; "updateBankAccount"; "deleteBankAccount"; "updateCashWallet";
    "createLoan"; "processLoanPayment"; "createSavingsTarget"; "updateSavingsTarget";
    "deleteSavingsTarget"; "contributeToSavings"; "markAlertAsRead"; "deleteAlert" ].

(** Returns [true] when the call of the remote API returned and [false]
    when it threw; an unknown key throws without any request. *)
Definition executeMutationHelper (key : string) (variables : JSAny) : M bool :=
  if existsb (String.eqb key) knownMutationKeys
  then fun w => (apiCall (reads w) key variables, set_reads (S (reads w)) w)
  else ret false.

(** The loop of [syncNow]; the result is [(successCount, failCount)]. *)
Fixpoint replay (queue : list MutationRequest.t) (successCount failCount : nat)
  : M (nat * nat) :=
  match queue with
  | [] => ret (successCount, failCount)
  | item :: rest =>
      let! ok :=
        executeMutationHelper (MutationRequest.mutationKey item)
          (MutationRequest.variables item) in
      do! modify (fun w => set_invoked (invoked w ++ [(item, ok)]) w) in
      if ok then
        do! removeMutationFromQueue (MutationRequest.id item) in
        replay rest (S successCount) failCount
      else replay rest successCount (S failCount)
  end.

Definition syncNow : M unit :=
  let! isOnline := gets online in
  let! syncing := gets outboxSyncing in
  if negb isOnline || syncing then ret tt
  else
    do! modify (set_outboxSyncing true) in
    let! queue := getQueuedMutations in
    do! (if (length queue =? 0)%nat then modify (set_outboxSyncing false)
         else
           let! counts := replay queue 0%nat 0%nat in
           ret tt) in
    modify (set_outboxSyncing false).

End Outbox.

(** ** hooks/useOfflineMutation.ts and the mutation hooks

    [useOfflineMutation] wraps the options of a mutation before handing
    them to [useMutation], which calls the mutation function once and then
    [onSuccess] with its data when it resolved, or [onError] with its error
    when it rejected.  The callbacks of the caller only refresh caches and
    views; the model records that they were called, and with what. *)

(** What the caller's [mutationFn] did: the data it resolved with, or the
    [message] of the error it rejected with (absent when the error has
    none). *)
Inductive MutationOutcome :=
| Resolved (data : JSAny)
| Rejected (message : option string).

(** The data that reaches [onSuccess]: [{ offline: true }] or the data of
    the server. *)
Inductive MutationData :=
| OfflineMarker
| ServerData (data : JSAny).

Inductive CallbackEvent :=
| OnSuccessCalled (data : MutationData) (variables : JSAny)
| OnErrorCalled (message : option string) (variables : JSAny).

(** [s.includes(sub)] *)
Definition includes (s sub : string) : bool :=
  match index 0 sub s with
  | Some _ => true
  | None => false
  end.

Section OfflineMutation.
Context `{Host}.
Variable mutationKey : string.
(** [options.mutationFn], an oracle like the other calls of the remote API,
    and whether [options.onSuccess] and [options.onError] are present. *)
Variable mutationFn : option (nat -> JSAny -> MutationOutcome).
Variables hasOnSuccess hasOnError : bool.

(** [if (!mutationFn) throw new Error('mutationFn is required'); return
    mutationFn(variables)] *)
Definition callMutationFn (variables : JSAny) : M MutationOutcome :=
  match mutationFn with
  | None => ret (Rejected (Some "mutationFn is required"))
  | Some f => fun w => (f (reads w) variables, set_reads (S (reads w)) w)
  end.

(** The [mutationFn] given to [useMutation]; [inr] is a rejection. *)
Definition offlineMutationFn (variables : JSAny)
  : M (MutationData + option string) :=
  let! isOnline := gets online in
  if negb isOnline then
    do! queueMutation mutationKey variables in
    ret (inl OfflineMarker)
  else
    let! outcome := callMutationFn variables in
    match outcome with
    | Resolved data => ret (inl (ServerData data))
    | Rejected message => ret (inr message)
    end.

(** The [onSuccess] given to [useMutation]. *)
Definition offlineOnSuccess (data : MutationData) (variables : JSAny)
  : list CallbackEvent :=
  if hasOnSuccess then [OnSuccessCalled data variables] else [].

Definition isNetworkError (message : option string) : bool :=
  match message with
  | Some m => includes m "Network Error"
  | None => false
  end.

(** The [onError] given to [useMutation]. *)
Definition offlineOnError (message : option string) (variables : JSAny)
  : M (list CallbackEvent) :=
  let! isOnline := gets online in
  if negb isOnline || isNetworkError message then
    do! queueMutation mutationKey variables in
    ret (if hasOnSuccess then [OnSuccessCalled OfflineMarker variables] else [])
  else
    ret (if hasOnError then [OnErrorCalled message variables] else []).

(** One run of the mutation, as [useMutation] drives it. *)
Definition mutate (variables : JSAny) : M (list CallbackEvent) :=
  let! settled := offlineMutationFn variables in
  match settled with
  | inl data => ret (offlineOnSuccess data variables)
  | inr message => offlineOnError message variables
  end.

End OfflineMutation.

(** The [mutationKey]s of the hooks built on [useOfflineMutation], in the
    order of the file. *)
Definition hookMutationKeys : list string :=
  [ "updateCashWallet"; "createBankAccount"; "updateBankAccount"; "deleteBankAccount";
    "createExpense"; "deleteExpense"; "createIncome"; "createLoan"; "processLoanPayment";
    "createBudget"; "updateBudget"; "createSavingsTarget"; "updateSavingsTarget";
    "deleteSavingsTarget"; "contributeToSavings"; "markAlertAsRead"; "deleteAlert" ].

(** ** A concrete host, used to run the model on examples

    [parseISO] accepts exactly the format that [toISOString] emits,
    [YYYY-MM-DDTHH:mm:ss.sssZ], which every [Date] parser accepts with this
    meaning; everything else is an invalid date here.  The theorems below
    hold for every host; this one only instantiates them. *)

Definition digitOf (c : ascii) : option Z :=
  let n := Z.of_N (N_of_ascii c) in
  if (48 <=? n)%Z && (n <=? 57)%Z then Some (n - 48) else None.

Fixpoint decimal (s : string) (acc : Z) : option Z :=
  match s with
  | EmptyString => Some acc
  | String c rest =>
      match digitOf c with
      | Some d => decimal rest (10 * acc + d)
      | None => None
      end
  end.

Definition isLeapYear (y : Z) : bool :=
  ((y mod 4 =? 0) && negb (y mod 100 =? 0) || (y mod 400 =? 0))%Z.

Definition daysInMonth (y m : Z) : Z :=
  if (m =? 2)%Z then (if isLeapYear y then 29 else 28)
  else if ((m =? 4) || (m =? 6) || (m =? 9) || (m =? 11))%Z then 30
  else 31.

(** Days between 1970-01-01 and the given civil date. *)
Definition daysFromCivil (y m d : Z) : Z :=
  let y' := if (m <=? 2)%Z then y - 1 else y in
  let era := y' / 400 in
  let yoe := y' - era * 400 in
  let doy := (153 * (if (m >? 2)%Z then m - 3 else m + 9) + 2) / 5 + d - 1 in
  let doe := yoe * 365 + yoe / 4 - yoe / 100 + doy in
  era * 146097 + doe - 719468.

Definition parseISO (s : string) : JSDate :=
  let field i n := decimal (substring i n s) 0 in
  let sep i c :=
    match get i s with
    | Some c' => Ascii.eqb c c'
    | None => false
    end in
  if negb ((String.length s =? 24)%nat
           && sep 4%nat "-"%char && sep 7%nat "-"%char && sep 10%nat "T"%char
           && sep 13%nat ":"%char && sep 16%nat ":"%char && sep 19%nat "."%char
           && sep 23%nat "Z"%char)
  then InvalidDate
  else
    match field 0%nat 4%nat, field 5%nat 2%nat, field 8%nat 2%nat,
          field 11%nat 2%nat, field 14%nat 2%nat, field 17%nat 2%nat,
          field 20%nat 3%nat with
    | Some y, Some m, Some d, Some hh, Some mm, Some ss, Some ms =>
        if ((1 <=? m) && (m <=? 12) && (1 <=? d) && (d <=? daysInMonth y m)
            && (hh <=? 23) && (mm <=? 59) && (ss <=? 59))%Z
        then Instant ((((daysFromCivil y m d * 24 + hh) * 60 + mm) * 60 + ss) * 1000 + ms)
        else InvalidDate
    | _, _, _, _, _, _, _ => InvalidDate
    end.

(** A host whose clock advances by one second per read, starting at
    2024-01-01T00:00:00.000Z, and whose server is unreachable. *)
Definition steadyHost : Host :=
  {| Date_parse := parseISO;
     wallClock := fun n => 1704067200000 + 1000 * Z.of_nat n;
     freshBudgetId := fun n => "budget_" +:+ pretty n;
     randomUUID := fun n => "uuid-" +:+ pretty n;
     fetchBudgetItems := fun _ _ => FetchFailed;
     postBudgetSync := fun _ _ => PostThrows (Some "Failed to fetch");
     apiCall := fun _ _ _ => true |}.

(** A host whose server knows [groceriesOnServer] and accepts every push;
    its clock advances by 5.5 seconds per read. *)
Definition groceriesOnServer : ServerBudgetItem.t :=
  ServerBudgetItem.mk "a" "Food" "Groceries" 200 expense
    "2024-01-01T00:00:00.000Z" "2024-01-01T00:00:05.000Z" "2024-01-01T00:00:00.000Z"
    false.

Definition serverHost : Host :=
  {| Date_parse := parseISO;
     wallClock := fun n => 1704067200000 + 5500 * Z.of_nat n;
     freshBudgetId := fun n => "budget_" +:+ pretty n;
     randomUUID := fun n => "uuid-" +:+ pretty n;
     fetchBudgetItems := fun _ _ => FetchOk (Some [groceriesOnServer]);
     postBudgetSync := fun _ _ => PostOk None None;
     apiCall := fun _ _ _ => true |}.

(** A host whose clock is set back by one second between any two reads,
    and whose remote API rejects [createBudget]. *)
Definition clockSetBackHost : Host :=
  {| Date_parse := parseISO;
     wallClock := fun n => 1704067200000 - 1000 * Z.of_nat n;
     freshBudgetId := fun n => "budget_" +:+ pretty n;
     randomUUID := fun n => "uuid-" +:+ pretty n;
     fetchBudgetItems := fun _ _ => FetchFailed;
     postBudgetSync := fun _ _ => PostThrows (Some "Failed to fetch");
     apiCall := fun _ key _ => negb (String.eqb key "createBudget") |}.

(** The local record of the same item: unsynced, last edited at
    2024-01-01T00:00:00.000Z, five seconds before the server's edit. *)
Definition groceries : BudgetItem.t :=
  BudgetItem.mk "a" "Food" "Groceries" 100 expense
    (Instant 1704067200000) false (Instant 1704067200000) (Instant 1704067200000) false.

Definition rent : BudgetItem.t :=
  BudgetItem.mk "b" "Housing" "Rent" 900 expense
    (Instant 1704067200000) false (Instant 1704067200000) (Instant 1704067200000) false.

(** A freshly started client that is online. *)
Definition emptyWorld : World :=
  mkWorld [] [] 0 true false false None None 0 [] false [] [].

Definition worldWith (items : list BudgetItem.t) : World :=
  set_budgetItems items emptyWorld.

(** A host whose server cannot be asked for counterparts but accepts every
    push. *)
Definition acceptingHost : Host :=
  {| Date_parse := parseISO;
     wallClock := fun n => 1704067200000 + 1000 * Z.of_nat n;
     freshBudgetId := fun n => "budget_" +:+ pretty n;
     randomUUID := fun n => "uuid-" +:+ pretty n;
     fetchBudgetItems := fun _ _ => FetchFailed;
     postBudgetSync := fun _ _ => PostOk None None;
     apiCall := fun _ _ _ => true |}.

(** [groceries], soft-deleted locally at 2024-01-01T00:00:00.000Z. *)
Definition deletedGroceries : BudgetItem.t :=
  BudgetItem.mk "a" "Food" "Groceries" 100 expense
    (Instant 1704067200000) false (Instant 1704067200000) (Instant 1704067200000) true.

(** The server's record of the same item, deleted five seconds later. *)
Definition groceriesGoneOnServer : ServerBudgetItem.t :=
  ServerBudgetItem.mk "a" "Food" "Groceries" 200 expense
    "2024-01-01T00:00:00.000Z" "2024-01-01T00:00:05.000Z" "2024-01-01T00:00:00.000Z"
    true.

(** A server record whose [updatedAt] is not a date. *)
Definition groceriesUndatedOnServer : ServerBudgetItem.t :=
  ServerBudgetItem.mk "a" "Food" "Groceries" 200 expense
    "2024-01-01T00:00:00.000Z" "yesterday" "2024-01-01T00:00:00.000Z" false.

(** An unsynced item whose date field is an invalid date. *)
Definition undated : BudgetItem.t :=
  BudgetItem.mk "c" "Misc" "No date" 5 expense
    InvalidDate false (Instant 1704067200000) (Instant 1704067200000) false.

(** The same client, offline. *)
Definition offlineWorld (items : list BudgetItem.t) : World :=
  mkWorld items [] 0 false false false None None 0 [] false [] [].

(** An online client whose outbox holds an entry with a key that the
    dispatcher does not know, between two that it knows. *)
Definition renameEntry : MutationRequest.t :=
  MutationRequest.mk "q2" "renameBudget" JSUndefined 1704067201000.

Definition worldWithOutbox : World :=
  set_mutationQueue
    [ MutationRequest.mk "q1" "createBudget" JSUndefined 1704067200000;
      renameEntry;
      MutationRequest.mk "q3" "deleteAlert" (JSNumber 7) 1704067202000 ]
    emptyWorld.

(** * Notions used in the statements *)

(** ** Comparisons of time values, read mathematically

    The relations the specification uses on timestamps.  None of them
    holds when either side is [NaN]. *)

Definition later_than (a b : Number) : Prop :=
  exists x y, a = Some x /\ b = Some y /\ (y < x)%Z.

Definition not_older_than (a b : Number) : Prop :=
  exists x y, a = Some x /\ b = Some y /\ (y <= x)%Z.

Definition apart_by_more_than (tolerance : Z) (a b : Number) : Prop :=
  exists x y, a = Some x /\ b = Some y /\ (tolerance < Z.abs (x - y))%Z.

(** ** Order of replay

    The relations used to state in which order the outbox is replayed. *)

(** [Before a b l]: some occurrence of [a] in [l] precedes an occurrence
    of [b]. *)
Inductive Before {A : Type} (a b : A) : list A -> Prop :=
| Before_here (l : list A) : In b l -> Before a b (a :: l)
| Before_later (x : A) (l : list A) : Before a b l -> Before a b (x :: l).

Definition createdAt_le (a b : MutationRequest.t) : Prop :=
  (MutationRequest.createdAt a <= MutationRequest.createdAt b)%Z.

(** Ids of the entries whose replay succeeded, in replay order. *)
Definition succeededIds (log : list (MutationRequest.t * bool)) : list string :=
  map (fun p => MutationRequest.id (fst p)) (List.filter snd log).

(** ** Order of the active list *)

Definition validDate (r : BudgetItem.t) : Prop :=
  BudgetItem.date r <> InvalidDate.

Definition date_not_older (a b : BudgetItem.t) : Prop :=
  not_older_than (getTime (BudgetItem.date a)) (getTime (BudgetItem.date b)).

(** [id] is not one of [ids]. *)
Definition notListed (ids : list string) (id : string) : bool :=
  negb (existsb (String.eqb id) ids).

(** ** Shorthands for the sync pass *)

(** A pass is admitted when none is running and the client is online. *)
Definition admitted (w : World) : Prop :=
  syncInProgress w = false /\ isSyncing w = false /\ online w = true.

(** What the [finally] block of [triggerSync] does. *)
Definition releaseGuards (w : World) : World :=
  set_syncInProgress false (set_isSyncing false w).

(** What [triggerSync] does before it reads the table. *)
Definition takeGuards (w : World) : World :=
  set_syncError None (set_isSyncing true (set_syncInProgress true w)).

(** [detectConflict] reports nothing for the item: the server does not
    know it, or knows a version that does not conflict. *)
Definition noConflictFor `{Host} (serverItems : gmap string ServerBudgetItem.t)
    (localItem : BudgetItem.t) : Prop :=
  match serverItems !! BudgetItem.id localItem with
  | Some serverItem => detectConflict localItem serverItem = None
  | None => True
  end.

(** ** Frames

    [w'] differs from [w] at most in the table of budget items and in the
    oracle counter. *)
Definition onlyStoreAndClock (w w' : World) : Prop :=
  w' = set_budgetItems (budgetItems w') (set_reads (reads w') w).

(** [w'] differs from [w] at most in the outbox: its table, its replay log,
    its guard, and the oracle counter. *)
Definition onlyOutboxAndClock (w w' : World) : Prop :=
  w' = set_outboxSyncing (outboxSyncing w')
         (set_invoked (invoked w')
            (set_mutationQueue (mutationQueue w') (set_reads (reads w') w))).

(** The resolution removes the local row instead of updating it. *)
Definition removesLocal (resolved : ResolvedConflict) : bool :=
  isKeepServer (resolution resolved)
  && ServerBudgetItem.deleted (serverItem (conflict resolved)).

(** * Proofs *)

(** ** Comparisons *)

Lemma num_gt_later_than (a b : Number) : num_gt a b = true <-> later_than a b.
Proof.
  unfold later_than. destruct a as [x|], b as [y|]; simpl.
  - split.
    + intros Hgt. exists x, y. repeat split. lia.
    + intros (x' & y' & [= <-] & [= <-] & Hlt). lia.
  - split; [discriminate | intros (? & ? & _ & [=] & _)].
  - split; [discriminate | intros (? & ? & [=] & _)].
  - split; [discriminate | intros (? & ? & [=] & _)].
Qed.

Lemma num_ge_not_older_than (a b : Number) : num_ge a b = true <-> not_older_than a b.
Proof.
  unfold not_older_than. destruct a as [x|], b as [y|]; simpl.
  - split.
    + intros Hge. exists x, y. repeat split. lia.
    + intros (x' & y' & [= <-] & [= <-] & Hle). lia.
  - split; [discriminate | intros (? & ? & _ & [=] & _)].
  - split; [discriminate | intros (? & ? & [=] & _)].
  - split; [discriminate | intros (? & ? & [=] & _)].
Qed.

Lemma num_abs_sub_apart (a b : Number) :
  num_gt (Math_abs (num_sub a b)) (Some TIME_TOLERANCE) = true
  <-> apart_by_more_than 1000 a b.
Proof.
  unfold apart_by_more_than, TIME_TOLERANCE. destruct a as [x|], b as [y|]; simpl.
  - split.
    + intros Hgt. exists x, y. repeat split. lia.
    + intros (x' & y' & [= <-] & [= <-] & Hlt). lia.
  - split; [discriminate | intros (? & ? & _ & [=] & _)].
  - split; [discriminate | intros (? & ? & [=] & _)].
  - split; [discriminate | intros (? & ? & [=] & _)].
Qed.

Lemma not_true_iff_false_of (b : bool) (P : Prop) : (b = true <-> P) -> (b = false <-> ~ P).
Proof. destruct b; intuition congruence. Qed.

Section ConflictProperties.
Context `{Host}.

(** C1. [detectConflict] classifies a pair as the specification says: a
    local deletion against a live server record is a [delete_local]
    conflict exactly when the server timestamp is strictly later, and no
    conflict otherwise; a server deletion against a live local record is a
    [delete_server] conflict exactly when the local timestamp is strictly
    later, and no conflict otherwise; when both are alive or both deleted it
    is a [both_modified] conflict exactly when the timestamps are more than
    1000 ms apart, and no conflict otherwise, in particular when they are
    within 1000 ms of each other. *)
Theorem detectConflict_classification (l : BudgetItem.t) (s : ServerBudgetItem.t) :
  let L := getTime (BudgetItem.updatedAt l) in
  let S := getTime (Date_parse (ServerBudgetItem.updatedAt s)) in
  (BudgetItem.deleted l = true -> ServerBudgetItem.deleted s = false ->
     (detectConflict l s = Some (mkConflict l s delete_local) <-> later_than S L)
     /\ (detectConflict l s = None <-> ~ later_than S L))
  /\ (BudgetItem.deleted l = false -> ServerBudgetItem.deleted s = true ->
     (detectConflict l s = Some (mkConflict l s delete_server) <-> later_than L S)
     /\ (detectConflict l s = None <-> ~ later_than L S))
  /\ (BudgetItem.deleted l = ServerBudgetItem.deleted s ->
     (detectConflict l s = Some (mkConflict l s both_modified)
        <-> apart_by_more_than 1000 L S)
     /\ (detectConflict l s = None <-> ~ apart_by_more_than 1000 L S)
     /\ (forall x y, L = Some x -> S = Some y -> (Z.abs (x - y) <= 1000)%Z ->
           detectConflict l s = None)).
Proof.
  intros L S.
  assert (HgtSL := num_gt_later_than S L).
  assert (HgtLS := num_gt_later_than L S).
  assert (Hap := num_abs_sub_apart L S).
  assert (HnSL := not_true_iff_false_of _ _ HgtSL).
  assert (HnLS := not_true_iff_false_of _ _ HgtLS).
  assert (Hnap := not_true_iff_false_of _ _ Hap).
  split; [|split].
  - intros Hl Hs. unfold detectConflict. fold L S. rewrite Hl, Hs. simpl.
    destruct (num_gt S L).
    + split; split; try done.
      * intros _. by apply HgtSL.
      * intros Hn. exfalso. apply Hn. by apply HgtSL.
    + split; split; try done.
      * intros Hlt%HgtSL. discriminate.
      * intros _. by apply HnSL.
  - intros Hl Hs. unfold detectConflict. fold L S. rewrite Hl, Hs. simpl.
    destruct (num_gt L S).
    + split; split; try done.
      * intros _. by apply HgtLS.
      * intros Hn. exfalso. apply Hn. by apply HgtLS.
    + split; split; try done.
      * intros Hlt%HgtLS. discriminate.
      * intros _. by apply HnLS.
  - intros Heq.
    assert (Hcode : detectConflict l s =
                    if num_gt (Math_abs (num_sub L S)) (Some TIME_TOLERANCE)
                    then Some (mkConflict l s both_modified) else None).
    { unfold detectConflict. fold L S. rewrite Heq.
      by destruct (ServerBudgetItem.deleted s). }
    rewrite Hcode.
    destruct (num_gt (Math_abs (num_sub L S)) (Some TIME_TOLERANCE)) eqn:E.
    + split; [|split].
      * split; [intros _; by apply Hap | reflexivity].
      * split; [discriminate | intros Hn; exfalso; apply Hn; by apply Hap].
      * intros x y HL HS Hle. rewrite HL, HS in E. simpl in E.
        unfold TIME_TOLERANCE in E. lia.
    + split; [|split].
      * split; [discriminate | intros Ha%Hap; discriminate].
      * split; [intros _; by apply Hnap | reflexivity].
      * reflexivity.
Qed.

(** C6. [autoResolveConflict] is last-write-wins: it keeps the conflict and
    chooses [keep_local] exactly when the local timestamp is not older than
    the server one, and [keep_server] otherwise; for a [both_modified]
    conflict whose server timestamp is 5000 ms later it chooses
    [keep_server]. *)
Theorem autoResolveConflict_last_write_wins (c : SyncConflict) :
  let L := getTime (BudgetItem.updatedAt (localItem c)) in
  let S := getTime (Date_parse (ServerBudgetItem.updatedAt (serverItem c))) in
  conflict (autoResolveConflict c) = c
  /\ (resolution (autoResolveConflict c) = keep_local <-> not_older_than L S)
  /\ (resolution (autoResolveConflict c) = keep_server <-> ~ not_older_than L S)
  /\ (forall t, conflictType c = both_modified -> L = Some t -> S = Some (t + 5000)%Z ->
        resolution (autoResolveConflict c) = keep_server).
Proof.
  intros L S.
  assert (Hge := num_ge_not_older_than L S).
  assert (Hnge := not_true_iff_false_of _ _ Hge).
  unfold autoResolveConflict. fold L S.
  destruct (num_ge L S) eqn:E; simpl.
  - split; [reflexivity|]. split; [|split].
    + split; [intros _; by apply Hge | reflexivity].
    + split; [discriminate | intros Hn; exfalso; apply Hn; by apply Hge].
    + intros t _ HL HS. rewrite HL, HS in E. simpl in E. lia.
  - split; [reflexivity|]. split; [|split].
    + split; [discriminate | intros Hl%Hge; discriminate].
    + split; [intros _; by apply Hnge | reflexivity].
    + reflexivity.
Qed.

(** C9. [mergeItems] picks one whole record: all of category, description,
    amount, type and date come from the local item when its timestamp is not
    older than the server one, and all of them from the server item
    otherwise; the result is unsynced and stamped with the merge time, which
    is the clock reading taken when the resolution is applied. *)
Theorem mergeItems_whole_record_pick (now : JSDate) (l : BudgetItem.t)
    (s : ServerBudgetItem.t) :
  let L := getTime (BudgetItem.updatedAt l) in
  let S := getTime (Date_parse (ServerBudgetItem.updatedAt s)) in
  let m := mergeItems now l s in
  (not_older_than L S ->
     BudgetItem.category m = BudgetItem.category l
     /\ BudgetItem.description m = BudgetItem.description l
     /\ BudgetItem.amount m = BudgetItem.amount l
     /\ BudgetItem.type m = BudgetItem.type l
     /\ BudgetItem.date m = BudgetItem.date l)
  /\ (~ not_older_than L S ->
     BudgetItem.category m = ServerBudgetItem.category s
     /\ BudgetItem.description m = ServerBudgetItem.description s
     /\ BudgetItem.amount m = ServerBudgetItem.amount s
     /\ BudgetItem.type m = ServerBudgetItem.type s
     /\ BudgetItem.date m = Date_parse (ServerBudgetItem.date s))
  /\ BudgetItem.synced m = false
  /\ BudgetItem.updatedAt m = now
  /\ (forall w,
       eval (applyResolutionNow (mkResolved (mkConflict l s both_modified) merge None)) w
       = mergeItems (Instant (wallClock (reads w))) l s).
Proof.
  intros L S m.
  assert (Hge := num_ge_not_older_than L S).
  assert (Hnge := not_true_iff_false_of _ _ Hge).
  subst m. unfold mergeItems. fold L S. simpl.
  split; [|split; [|split; [|split]; reflexivity]].
  - intros Hl%Hge. by rewrite Hl.
  - intros Hl%Hnge. by rewrite Hl.
Qed.

(** C10. [mergeItems] always yields a live, unsynced item, whatever the
    deletion flags of its inputs; so does [applyResolution] when the
    resolution is [merge] and no merged item was precomputed. *)
Theorem mergeItems_never_deleted (now : JSDate) (l : BudgetItem.t)
    (s : ServerBudgetItem.t) :
  BudgetItem.deleted (mergeItems now l s) = false
  /\ BudgetItem.synced (mergeItems now l s) = false
  /\ BudgetItem.id (mergeItems now l s) = BudgetItem.id l
  /\ (forall kind,
       BudgetItem.deleted
         (applyResolution now (mkResolved (mkConflict l s kind) merge None)) = false).
Proof. repeat split. Qed.

End ConflictProperties.

(** ** Facts about tables *)

Section TableFacts.
Context {Row : Type} (key : Row -> string).

Lemma selectById_key (k : string) (t : list Row) (r : Row) (rest : list Row) :
  selectById key k t = r :: rest -> key r = k /\ In r t.
Proof.
  intros Hsel.
  assert (Hin : In r (selectById key k t)) by (rewrite Hsel; left; reflexivity).
  apply filter_In in Hin as [Hin Hk]. apply String.eqb_eq in Hk. by split.
Qed.

Lemma selectById_deleteById (k : string) (t : list Row) :
  selectById key k (deleteById key k t) = [].
Proof.
  unfold selectById, deleteById. induction t as [|x t IH]; simpl; [reflexivity|].
  destruct (String.eqb (key x) k) eqn:E; simpl; [assumption|].
  by rewrite E.
Qed.

Lemma selectById_deleteById_ne (k k' : string) (t : list Row) :
  k <> k' -> selectById key k (deleteById key k' t) = selectById key k t.
Proof.
  intros Hne. unfold selectById, deleteById. induction t as [|x t IH]; simpl; [reflexivity|].
  destruct (String.eqb (key x) k') eqn:E'; simpl.
  - apply String.eqb_eq in E'.
    destruct (String.eqb (key x) k) eqn:E; [|assumption].
    apply String.eqb_eq in E. congruence.
  - by rewrite IH.
Qed.

Lemma existsb_key_In (k : string) (t : list Row) (r : Row) :
  In r t -> key r = k -> existsb (fun x => String.eqb (key x) k) t = true.
Proof.
  intros Hin Hk. apply existsb_exists. exists r. split; [assumption|].
  by apply String.eqb_eq.
Qed.

Lemma existsb_false_selectById (k : string) (t : list Row) :
  existsb (fun x => String.eqb (key x) k) t = false -> selectById key k t = [].
Proof.
  unfold selectById. induction t as [|x t IH]; simpl; [reflexivity|].
  destruct (String.eqb (key x) k); simpl; [discriminate | assumption].
Qed.

(** After [insertOrReplace], a lookup of the row's key finds the row. *)
Lemma selectById_insertOrReplace (r : Row) (t : list Row) :
  exists rest, selectById key (key r) (insertOrReplace key r t) = r :: rest.
Proof.
  unfold insertOrReplace.
  destruct (existsb (fun x => String.eqb (key x) (key r)) t) eqn:E.
  - unfold selectById. induction t as [|x t IH]; simpl in *; [discriminate|].
    destruct (String.eqb (key x) (key r)) eqn:Ex; simpl.
    + rewrite String.eqb_refl. eauto.
    + rewrite Ex. by apply IH.
  - exists []. unfold selectById. rewrite List.filter_app.
    fold (selectById key (key r) t). rewrite (existsb_false_selectById _ _ E).
    simpl. by rewrite String.eqb_refl.
Qed.

(** Rows with another key are untouched by [insertOrReplace]. *)
Lemma selectById_insertOrReplace_ne (k : string) (r : Row) (t : list Row) :
  k <> key r -> selectById key k (insertOrReplace key r t) = selectById key k t.
Proof.
  intros Hne.
  assert (Hr : String.eqb (key r) k = false) by (apply String.eqb_neq; congruence).
  unfold insertOrReplace.
  destruct (existsb (fun x => String.eqb (key x) (key r)) t).
  - unfold selectById. induction t as [|x t IH]; simpl; [reflexivity|].
    destruct (String.eqb (key x) (key r)) eqn:Ex.
    + apply String.eqb_eq in Ex. rewrite Ex, Hr. assumption.
    + destruct (String.eqb (key x) k); by rewrite IH.
  - unfold selectById. rewrite List.filter_app. simpl. rewrite Hr. apply app_nil_r.
Qed.

(** Replacing a row by itself twice is replacing it once. *)
Lemma insertOrReplace_idem (r : Row) (t : list Row) :
  insertOrReplace key r (insertOrReplace key r t) = insertOrReplace key r t.
Proof.
  destruct (selectById_insertOrReplace r t) as [rest Hsel].
  apply selectById_key in Hsel as [_ Hin].
  unfold insertOrReplace at 1.
  rewrite (existsb_key_In (key r) _ r Hin eq_refl).
  unfold insertOrReplace.
  destruct (existsb (fun x => String.eqb (key x) (key r)) t) eqn:E.
  - rewrite List.map_map. apply List.map_ext. intros x.
    destruct (String.eqb (key x) (key r)) eqn:Ex; [|by rewrite Ex].
    by rewrite String.eqb_refl.
  - rewrite List.map_app. simpl. rewrite String.eqb_refl. f_equal.
    clear Hin. induction t as [|x t IH]; simpl in *; [reflexivity|].
    destruct (String.eqb (key x) (key r)) eqn:Ex; simpl in E; [discriminate|].
    f_equal. by apply IH.
Qed.

(** The primary key stays unique. *)
Lemma insertOrReplace_primary_key (r : Row) (t : list Row) :
  List.NoDup (map key t) -> List.NoDup (map key (insertOrReplace key r t)).
Proof.
  intros Hnd. unfold insertOrReplace.
  destruct (existsb (fun x => String.eqb (key x) (key r)) t) eqn:E.
  - assert (Hsame : map key (map (fun x => if String.eqb (key x) (key r) then r else x) t)
                    = map key t).
    { rewrite List.map_map. apply List.map_ext. intros x.
      destruct (String.eqb (key x) (key r)) eqn:Ex; [|reflexivity].
      apply String.eqb_eq in Ex. congruence. }
    by rewrite Hsame.
  - rewrite List.map_app. simpl. apply List.NoDup_app; [assumption | | ].
    + constructor; [intros [] | constructor].
    + intros k Hk [<- | []].
      apply in_map_iff in Hk as (x & Hx & Hin).
      assert (Hex : existsb (fun x => String.eqb (key x) (key r)) t = true).
      { apply existsb_exists. exists x. split; [assumption|]. by apply String.eqb_eq. }
      congruence.
Qed.

Lemma deleteById_primary_key (k : string) (t : list Row) :
  List.NoDup (map key t) -> List.NoDup (map key (deleteById key k t)).
Proof.
  unfold deleteById. induction t as [|x t IH]; simpl; [done|].
  intros [Hx Hnd]%List.NoDup_cons_iff.
  destruct (negb (String.eqb (key x) k)); simpl; [|by apply IH].
  constructor; [|by apply IH].
  intros Hin. apply Hx. apply in_map_iff in Hin as (y & Hy & Hin).
  apply filter_In in Hin as [Hin _]. rewrite <- Hy. by apply in_map.
Qed.

End TableFacts.

(** ** The budget table *)

Lemma set_budgetItems_twice (a b : list BudgetItem.t) (w : World) :
  set_budgetItems a (set_budgetItems b w) = set_budgetItems a w.
Proof. reflexivity. Qed.

Lemma set_budgetItems_same (w : World) : set_budgetItems (budgetItems w) w = w.
Proof. by destruct w. Qed.

Lemma with_synced_idem (b : bool) (i : BudgetItem.t) :
  with_synced b (with_synced b i) = with_synced b i.
Proof. reflexivity. Qed.

Section BudgetDbProperties.
Context `{Host}.

(** What one iteration of the loop of [markItemsAsSynced] does. *)
Lemma markItemsAsSynced_one (id : string) (w : World) :
  exec (markItemsAsSynced [id]) w =
  match selectById BudgetItem.id id (budgetItems w) with
  | [] => w
  | item :: _ =>
      if BudgetItem.deleted item
      then set_budgetItems (deleteById BudgetItem.id id (budgetItems w)) w
      else set_budgetItems
             (insertOrReplace BudgetItem.id (with_synced true item) (budgetItems w)) w
  end.
Proof.
  unfold exec, markItemsAsSynced, forOf, bind, selectBudgetById, gets. simpl.
  destruct (selectById BudgetItem.id id (budgetItems w)) as [|item rest]; [reflexivity|].
  by destruct (BudgetItem.deleted item).
Qed.

Lemma markItemsAsSynced_cons (id : string) (ids : list string) (w : World) :
  exec (markItemsAsSynced (id :: ids)) w =
  exec (markItemsAsSynced ids) (exec (markItemsAsSynced [id]) w).
Proof.
  unfold exec, markItemsAsSynced. simpl. unfold bind.
  destruct (selectBudgetById id w) as [items w1].
  destruct items as [|item rest]; simpl; [reflexivity|].
  destruct (BudgetItem.deleted item); simpl; reflexivity.
Qed.

(** The rows [updateBudgetItem] leaves in the table, and what it returns. *)
Lemma updateBudgetItem_found (id : string) (updates : Partial.t) (w : World)
    (existing : BudgetItem.t) (rest : list BudgetItem.t) :
  selectById BudgetItem.id id (budgetItems w) = existing :: rest ->
  let merged := spread existing updates in
  let updated :=
    BudgetItem.mk id (BudgetItem.category merged) (BudgetItem.description merged)
      (BudgetItem.amount merged) (BudgetItem.type merged) (BudgetItem.date merged)
      false (Instant (wallClock (reads w))) (BudgetItem.createdAt merged)
      (BudgetItem.deleted merged) in
  updateBudgetItem id updates w =
    (Some updated,
     set_budgetItems (insertOrReplace BudgetItem.id updated (budgetItems w))
       (set_reads (S (reads w)) w)).
Proof.
  intros Hsel. unfold updateBudgetItem, bind, selectBudgetById, gets. simpl.
  rewrite Hsel. reflexivity.
Qed.

Lemma updateBudgetItem_missing (id : string) (updates : Partial.t) (w : World) :
  selectById BudgetItem.id id (budgetItems w) = [] ->
  updateBudgetItem id updates w = (None, w).
Proof.
  intros Hsel. unfold updateBudgetItem, bind, selectBudgetById, gets. simpl.
  by rewrite Hsel.
Qed.

(** C4 (amended). For an existing id, [updateBudgetItem] merges the given
    fields into the existing record, forces [synced = false], sets
    [updatedAt] to the time of the mutation and keeps [id]; [createdAt] is
    kept when the partial argument does not supply one, and is replaced by
    the supplied value when it does.  The updated record is what a lookup
    of the id then finds, and other ids are untouched.  For an id with no
    record it returns [null] and changes nothing. *)
Theorem updateBudgetItem_merges (id : string) (updates : Partial.t) (w : World) :
  (forall existing rest,
     selectById BudgetItem.id id (budgetItems w) = existing :: rest ->
     exists updated,
       eval (updateBudgetItem id updates) w = Some updated
       /\ BudgetItem.category updated =
            default (BudgetItem.category existing) (Partial.category updates)
       /\ BudgetItem.description updated =
            default (BudgetItem.description existing) (Partial.description updates)
       /\ BudgetItem.amount updated =
            default (BudgetItem.amount existing) (Partial.amount updates)
       /\ BudgetItem.type updated =
            default (BudgetItem.type existing) (Partial.type updates)
       /\ BudgetItem.date updated =
            default (BudgetItem.date existing) (Partial.date updates)
       /\ BudgetItem.deleted updated =
            default (BudgetItem.deleted existing) (Partial.deleted updates)
       /\ BudgetItem.synced updated = false
       /\ BudgetItem.updatedAt updated = Instant (wallClock (reads w))
       /\ BudgetItem.id updated = BudgetItem.id existing
       /\ BudgetItem.id updated = id
       /\ BudgetItem.createdAt updated =
            default (BudgetItem.createdAt existing) (Partial.createdAt updates)
       /\ (Partial.createdAt updates = None ->
            BudgetItem.createdAt updated = BudgetItem.createdAt existing)
       /\ (exists others,
            selectById BudgetItem.id id
              (budgetItems (exec (updateBudgetItem id updates) w)) = updated :: others)
       /\ (forall k, k <> id ->
            selectById BudgetItem.id k
              (budgetItems (exec (updateBudgetItem id updates) w)) =
            selectById BudgetItem.id k (budgetItems w)))
  /\ (selectById BudgetItem.id id (budgetItems w) = [] ->
      updateBudgetItem id updates w = (None, w)).
Proof.
  split; [|apply updateBudgetItem_missing].
  intros existing rest Hsel.
  pose proof (updateBudgetItem_found id updates w existing rest Hsel) as Hrun.
  simpl in Hrun.
  destruct (selectById_key _ _ _ _ _ Hsel) as [Hid _].
  eexists. unfold eval, exec. rewrite Hrun. simpl.
  split; [reflexivity|].
  repeat (split; [reflexivity|]).
  split; [by rewrite Hid|].
  split; [reflexivity|].
  split; [reflexivity|].
  split; [intros Hnone; by rewrite Hnone|].
  split.
  - match goal with
    | |- context [insertOrReplace _ ?r _] =>
        apply (selectById_insertOrReplace BudgetItem.id r)
    end.
  - intros k Hk. by apply selectById_insertOrReplace_ne.
Qed.

(** C5. [markItemsAsSynced] handles the ids one after the other; for each
    id, a stored record that is marked deleted is removed from the table,
    a stored record that is not deleted gets [synced = true] and keeps all
    its other fields, and an id without a record is skipped; records with
    other ids are untouched.  Creating an item, soft-deleting it and marking
    it synced leaves no record with that id. *)
Theorem markItemsAsSynced_spec :
  (forall id ids w,
     exec (markItemsAsSynced (id :: ids)) w =
     exec (markItemsAsSynced ids) (exec (markItemsAsSynced [id]) w))
  /\ (forall w, exec (markItemsAsSynced []) w = w)
  /\ (forall id w,
       let w' := exec (markItemsAsSynced [id]) w in
       (forall k, k <> id ->
          selectById BudgetItem.id k (budgetItems w') =
          selectById BudgetItem.id k (budgetItems w))
       /\ match selectById BudgetItem.id id (budgetItems w) with
          | [] => w' = w
          | item :: _ =>
              if BudgetItem.deleted item
              then selectById BudgetItem.id id (budgetItems w') = []
                   /\ budgetItems w' = deleteById BudgetItem.id id (budgetItems w)
              else exists item' others,
                   selectById BudgetItem.id id (budgetItems w') = item' :: others
                   /\ BudgetItem.synced item' = true
                   /\ BudgetItem.id item' = BudgetItem.id item
                   /\ BudgetItem.category item' = BudgetItem.category item
                   /\ BudgetItem.description item' = BudgetItem.description item
                   /\ BudgetItem.amount item' = BudgetItem.amount item
                   /\ BudgetItem.type item' = BudgetItem.type item
                   /\ BudgetItem.date item' = BudgetItem.date item
                   /\ BudgetItem.updatedAt item' = BudgetItem.updatedAt item
                   /\ BudgetItem.createdAt item' = BudgetItem.createdAt item
                   /\ BudgetItem.deleted item' = false
          end)
  /\ (forall item w,
       let created := eval (addBudgetItem item) w in
       let w1 := exec (addBudgetItem item) w in
       let w2 := exec (deleteBudgetItem (BudgetItem.id created)) w1 in
       let w3 := exec (markItemsAsSynced [BudgetItem.id created]) w2 in
       (exists others,
          selectById BudgetItem.id (BudgetItem.id created) (budgetItems w1)
          = created :: others)
       /\ eval (deleteBudgetItem (BudgetItem.id created)) w1 = true
       /\ selectById BudgetItem.id (BudgetItem.id created) (budgetItems w3) = []).
Proof.
  split; [apply markItemsAsSynced_cons|].
  split; [reflexivity|].
  split.
  - intros id w w'. subst w'. rewrite markItemsAsSynced_one.
    destruct (selectById BudgetItem.id id (budgetItems w)) as [|item rest] eqn:Hsel.
    { split; reflexivity. }
    destruct (selectById_key _ _ _ _ _ Hsel) as [Hid _].
    destruct (BudgetItem.deleted item) eqn:Hdel; simpl.
    + split; [intros k Hk; by apply selectById_deleteById_ne|].
      split; [apply selectById_deleteById | reflexivity].
    + split.
      * intros k Hk. apply selectById_insertOrReplace_ne. simpl. congruence.
      * destruct (selectById_insertOrReplace BudgetItem.id (with_synced true item)
                    (budgetItems w)) as [others Ho].
        simpl in Ho. rewrite Hid in Ho.
        exists (with_synced true item), others. simpl. by rewrite Hdel.
  - intros item w created w1 w2 w3.
    assert (Hw1 : budgetItems w1 = insertOrReplace BudgetItem.id created (budgetItems w)).
    { reflexivity. }
    clearbody created w1.
    destruct (selectById_insertOrReplace BudgetItem.id created (budgetItems w))
      as [others Hsel1].
    rewrite <- Hw1 in Hsel1.
    split; [by exists others|].
    pose proof (updateBudgetItem_found (BudgetItem.id created)
                  (Partial.mk None None None None None None (Some false) None None
                     (Some true)) w1 created others Hsel1) as Hupd.
    cbv zeta in Hupd.
    assert (Hdel : deleteBudgetItem (BudgetItem.id created) w1 =
                   (true, snd (updateBudgetItem (BudgetItem.id created)
                     (Partial.mk None None None None None None (Some false) None None
                        (Some true)) w1))).
    { unfold deleteBudgetItem, bind. rewrite Hupd. reflexivity. }
    split; [unfold eval; by rewrite Hdel|].
    subst w3. rewrite markItemsAsSynced_one.
    subst w2. unfold exec. rewrite Hdel. rewrite Hupd.
    cbn [snd budgetItems set_budgetItems set_reads].
    match goal with
    | |- context [insertOrReplace _ ?r ?t] =>
        destruct (selectById_insertOrReplace BudgetItem.id r t) as [rest2 Hsel2]
    end.
    cbn [BudgetItem.id] in Hsel2. rewrite Hsel2.
    cbn [BudgetItem.deleted spread default Partial.deleted].
    apply selectById_deleteById.
Qed.

(** C7. [markItemsAsSynced] is idempotent on a single id: a second call
    leaves the state that the first call produced. *)
Theorem markItemsAsSynced_idempotent (id : string) (w : World) :
  exec (markItemsAsSynced [id]) (exec (markItemsAsSynced [id]) w) =
  exec (markItemsAsSynced [id]) w.
Proof.
  rewrite (markItemsAsSynced_one id w).
  destruct (selectById BudgetItem.id id (budgetItems w)) as [|item rest] eqn:Hsel.
  - rewrite markItemsAsSynced_one. by rewrite Hsel.
  - destruct (selectById_key _ _ _ _ _ Hsel) as [Hid _].
    destruct (BudgetItem.deleted item) eqn:Hdel.
    + rewrite markItemsAsSynced_one. simpl. by rewrite selectById_deleteById.
    + rewrite markItemsAsSynced_one. simpl.
      destruct (selectById_insertOrReplace BudgetItem.id (with_synced true item)
                  (budgetItems w)) as [others Ho].
      simpl in Ho. rewrite Hid in Ho. rewrite Ho. simpl. rewrite Hdel.
      rewrite with_synced_idem, set_budgetItems_twice.
      by rewrite insertOrReplace_idem.
Qed.

End BudgetDbProperties.

(** ** The sync pass *)

Section SyncProperties.
Context `{Host}.

(** The conflicts collected by the loop of [syncItemsToServer] are exactly
    the conflicts [detectConflict] reports for an item with a server
    counterpart. *)
Lemma checkItems_conflicts (serverItems : gmap string ServerBudgetItem.t)
    (items : list BudgetItem.t) (c : SyncConflict) :
  In c (fst (checkItems serverItems items)) <->
  exists localItem serverItem,
    In localItem items
    /\ serverItems !! BudgetItem.id localItem = Some serverItem
    /\ detectConflict localItem serverItem = Some c.
Proof.
  induction items as [|x items IH]; simpl.
  - split; [intros [] | intros (? & ? & [] & _)].
  - destruct (checkItems serverItems items) as [cs safe] eqn:Hrest. simpl in IH.
    destruct (serverItems !! BudgetItem.id x) as [sv|] eqn:Hlook.
    + destruct (detectConflict x sv) as [c'|] eqn:Hdet; simpl.
      * split.
        -- intros [<- | Hin]; [exists x, sv; tauto|].
           apply IH in Hin as (l & s & Hl & Hs & Hd). exists l, s. tauto.
        -- intros (l & s & [<- | Hl] & Hs & Hd).
           ++ left. congruence.
           ++ right. apply IH. eauto.
      * rewrite IH. split.
        -- intros (l & s & Hl & Hs & Hd). exists l, s. tauto.
        -- intros (l & s & [<- | Hl] & Hs & Hd); [congruence | eauto].
    + simpl. rewrite IH. split.
      * intros (l & s & Hl & Hs & Hd). exists l, s. tauto.
      * intros (l & s & [<- | Hl] & Hs & Hd); [congruence | eauto].
Qed.

Lemma syncItemsToServer_conflicts (items : list BudgetItem.t) (w : World) :
  let serverItems := eval (fetchServerItems (map BudgetItem.id items)) w in
  let found := fst (checkItems serverItems items) in
  found <> [] ->
  syncItemsToServer items w =
    (mkSyncResult false [] [] found
       (Some (pretty (length found) +:+ " conflict(s) detected. Please resolve them.")),
     set_reads (S (reads w)) w).
Proof.
  intros serverItems found Hne.
  unfold syncItemsToServer, bind. subst found serverItems. unfold eval in *.
  unfold fetchServerItems in *. cbn [fst] in *.
  destruct (checkItems _ items) as [cs safe]. cbn [fst] in *.
  destruct cs as [|c cs]; [congruence|]. reflexivity.
Qed.

(** C3. In a sync pass that is admitted (no pass in progress, online), if
    [detectConflict] reports a conflict for at least one candidate, nothing
    is POSTed to the server, the table of budget items is left as it was (so
    no synced flag changes), and the result and the pending-conflict state
    hold exactly the conflicts detected for the candidates. *)
Theorem triggerSync_stops_on_conflict (w : World) :
  syncInProgress w = false -> isSyncing w = false -> online w = true ->
  let candidates := eval getUnsyncedItems w in
  let serverItems := eval (fetchServerItems (map BudgetItem.id candidates)) w in
  (exists localItem serverItem c,
      In localItem candidates
      /\ serverItems !! BudgetItem.id localItem = Some serverItem
      /\ detectConflict localItem serverItem = Some c) ->
  let result := eval triggerSync w in
  let w' := exec triggerSync w in
  posted w' = posted w
  /\ budgetItems w' = budgetItems w
  /\ eval getUnsyncedItems w' = candidates
  /\ success result = false
  /\ syncedIds result = []
  /\ resultConflicts result = fst (checkItems serverItems candidates)
  /\ conflicts w' = resultConflicts result
  /\ (forall c,
        In c (resultConflicts result) <->
        exists localItem serverItem,
          In localItem candidates
          /\ serverItems !! BudgetItem.id localItem = Some serverItem
          /\ detectConflict localItem serverItem = Some c).
Proof.
  intros Hprog Hsync Honline candidates serverItems (l & sv & c & Hl & Hsv & Hdet)
    result w'.
  assert (Hfound : fst (checkItems serverItems candidates) <> []).
  { intros Hnil.
    assert (Hin : In c (fst (checkItems serverItems candidates))).
    { apply checkItems_conflicts. eauto. }
    rewrite Hnil in Hin. destruct Hin. }
  set (w1 := set_syncError None (set_isSyncing true (set_syncInProgress true w))).
  pose proof (syncItemsToServer_conflicts candidates w1) as Hrun.
  cbv zeta in Hrun.
  change (eval (fetchServerItems (map BudgetItem.id candidates)) w1)
    with serverItems in Hrun.
  specialize (Hrun Hfound).
  assert (Hts : triggerSync w =
    (mkSyncResult false [] [] (fst (checkItems serverItems candidates))
       (Some (pretty (length (fst (checkItems serverItems candidates)))
              +:+ " conflict(s) detected. Please resolve them.")),
     set_syncInProgress false (set_isSyncing false
       (set_conflicts (fst (checkItems serverItems candidates))
          (set_reads (S (reads w1)) w1))))).
  { unfold triggerSync, bind, gets, modify. cbv beta iota.
    rewrite Hprog, Hsync. cbn [orb]. cbv beta iota.
    rewrite Honline. cbn [negb]. cbv beta iota. fold w1.
    change (getUnsyncedItems w1) with (candidates, w1). cbv beta iota.
    destruct candidates as [|x xs]; [destruct Hl|].
    cbn [length Nat.eqb]. rewrite Hrun. cbn [resultConflicts].
    destruct (fst (checkItems serverItems (x :: xs))) as [|c0 cs] eqn:Hcs;
      [congruence|].
    reflexivity. }
  subst result w'. unfold exec. unfold eval at 1 2 3 4 5 6. rewrite Hts.
  cbn [fst snd success syncedIds resultConflicts].
  repeat (split; [reflexivity|]).
  intros c0. apply checkItems_conflicts.
Qed.

End SyncProperties.

(** ** The outbox *)

Lemma Before_app_r {A : Type} (a b : A) (l1 l2 : list A) :
  Before a b l2 -> Before a b (l1 ++ l2).
Proof.
  intros Hb. induction l1 as [|x l1 IH]; simpl; [assumption|].
  by apply Before_later.
Qed.

Lemma NoDup_map_inj_on {A B : Type} (f : A -> B) (l : list A) (a b : A) :
  List.NoDup (map f l) -> In a l -> In b l -> f a = f b -> a = b.
Proof.
  induction l as [|x l IH]; simpl; [intros _ []|].
  intros Hnd Ha Hb Hf. apply List.NoDup_cons_iff in Hnd as [Hx Hnd].
  destruct Ha as [<- | Ha], Hb as [<- | Hb]; [reflexivity | | | by apply IH].
  - exfalso. apply Hx. rewrite Hf. by apply in_map.
  - exfalso. apply Hx. rewrite <- Hf. by apply in_map.
Qed.

Lemma In_deleteById {Row : Type} (key : Row -> string) (k : string) (t : list Row)
    (r : Row) :
  In r (deleteById key k t) <-> In r t /\ key r <> k.
Proof.
  unfold deleteById. rewrite filter_In. split.
  - intros [Hin Hk]. split; [assumption|].
    apply negb_true_iff in Hk. by apply String.eqb_neq.
  - intros [Hin Hk]. split; [assumption|].
    apply negb_true_iff. by apply String.eqb_neq.
Qed.

Lemma In_deleteByIds {Row : Type} (key : Row -> string) (ids : list string)
    (t : list Row) (r : Row) :
  In r (foldl (fun t k => deleteById key k t) t ids) <-> In r t /\ ~ In (key r) ids.
Proof.
  revert t. induction ids as [|k ids IH]; intros t; simpl; [tauto|].
  rewrite IH, In_deleteById. intuition congruence.
Qed.

Section OutboxProperties.
Context `{Host}.

Lemma insertByCreatedAt_perm (r : MutationRequest.t) (l : list MutationRequest.t) :
  Permutation (insertByCreatedAt r l) (r :: l).
Proof.
  induction l as [|x l IH]; simpl; [reflexivity|].
  destruct (MutationRequest.createdAt r <=? MutationRequest.createdAt x)%Z;
    [reflexivity|].
  rewrite IH. apply perm_swap.
Qed.

Lemma orderByCreatedAtAsc_perm (rows : list MutationRequest.t) :
  Permutation (orderByCreatedAtAsc rows) rows.
Proof.
  unfold orderByCreatedAtAsc. induction rows as [|r rows IH]; simpl; [reflexivity|].
  rewrite insertByCreatedAt_perm. by constructor.
Qed.

Lemma insertByCreatedAt_sorted (r : MutationRequest.t) (l : list MutationRequest.t) :
  StronglySorted createdAt_le l -> StronglySorted createdAt_le (insertByCreatedAt r l).
Proof.
  induction l as [|x l IH]; simpl; intros Hs.
  - constructor; [constructor | constructor].
  - apply StronglySorted_inv in Hs as [Hl Hx].
    destruct (MutationRequest.createdAt r <=? MutationRequest.createdAt x)%Z eqn:E.
    + apply Z.leb_le in E. constructor; [by constructor|].
      constructor; [assumption|].
      eapply List.Forall_impl; [|exact Hx]. unfold createdAt_le in *. intros y Hy. lia.
    + apply Z.leb_gt in E. constructor; [by apply IH|].
      eapply Permutation_Forall; [symmetry; apply insertByCreatedAt_perm|].
      constructor; [unfold createdAt_le; lia | assumption].
Qed.

Lemma orderByCreatedAtAsc_sorted (rows : list MutationRequest.t) :
  StronglySorted createdAt_le (orderByCreatedAtAsc rows).
Proof.
  unfold orderByCreatedAtAsc. induction rows as [|r rows IH]; simpl; [constructor|].
  by apply insertByCreatedAt_sorted.
Qed.

(** Inserting a row does not reorder the rows already there. *)
Lemma insertByCreatedAt_keeps_order (r a b : MutationRequest.t)
    (l : list MutationRequest.t) :
  Before a b l -> Before a b (insertByCreatedAt r l).
Proof.
  induction 1 as [l Hin | x l Hb IH]; simpl.
  - destruct (MutationRequest.createdAt r <=? MutationRequest.createdAt a)%Z.
    + apply Before_later. by apply Before_here.
    + apply Before_here.
      apply (Permutation_in b (Permutation_sym (insertByCreatedAt_perm r l))).
      by right.
  - destruct (MutationRequest.createdAt r <=? MutationRequest.createdAt x)%Z.
    + apply Before_later. by apply Before_later.
    + by apply Before_later.
Qed.

(** A row is inserted in front of every row that is not older. *)
Lemma insertByCreatedAt_in_front (a b : MutationRequest.t) (l : list MutationRequest.t) :
  In b l -> createdAt_le a b -> Before a b (insertByCreatedAt a l).
Proof.
  unfold createdAt_le. intros Hin Hle.
  induction l as [|x l IH]; simpl; [destruct Hin|].
  destruct (MutationRequest.createdAt a <=? MutationRequest.createdAt x)%Z eqn:E.
  - by apply Before_here.
  - apply Z.leb_gt in E. apply Before_later. apply IH.
    destruct Hin as [-> | Hin]; [lia | assumption].
Qed.

(** The sort is stable. *)
Lemma orderByCreatedAtAsc_stable (a b : MutationRequest.t)
    (rows : list MutationRequest.t) :
  Before a b rows -> createdAt_le a b -> Before a b (orderByCreatedAtAsc rows).
Proof.
  intros Hb Hle. unfold orderByCreatedAtAsc.
  induction Hb as [l Hin | x l Hb IH]; simpl.
  - apply insertByCreatedAt_in_front; [|assumption].
    by apply (Permutation_in b (Permutation_sym (orderByCreatedAtAsc_perm l))).
  - by apply insertByCreatedAt_keeps_order.
Qed.

(** What the loop of [syncNow] does: every entry is attempted, in the
    order of the list; exactly the rows with the id of a succeeded entry are
    deleted. *)
Lemma replay_log (queue : list MutationRequest.t) :
  forall (successCount failCount : nat) (w : World),
    exists log,
      map fst log = queue
      /\ invoked (exec (replay queue successCount failCount) w) = (invoked w ++ log)%list
      /\ mutationQueue (exec (replay queue successCount failCount) w) =
         foldl (fun t k => deleteById MutationRequest.id k t) (mutationQueue w)
           (succeededIds log)
      /\ outboxSyncing (exec (replay queue successCount failCount) w) = outboxSyncing w
      /\ eval (replay queue successCount failCount) w =
         ((successCount + length (List.filter snd log))%nat,
          (failCount + length (List.filter (fun p => negb (snd p)) log))%nat).
Proof.
  induction queue as [|item rest IH]; intros sc fc w.
  - exists []. unfold exec, eval. simpl. rewrite app_nil_r.
    repeat split; f_equal; lia.
  - assert (Hexec : exists ok w1,
               executeMutationHelper (MutationRequest.mutationKey item)
                 (MutationRequest.variables item) w = (ok, w1)
               /\ invoked w1 = invoked w /\ mutationQueue w1 = mutationQueue w
               /\ outboxSyncing w1 = outboxSyncing w).
    { unfold executeMutationHelper.
      destruct (existsb _ knownMutationKeys); eexists _, _; repeat split. }
    destruct Hexec as (ok & w1 & Hex & Hinv & Hq & Hs).
    set (w2 := set_invoked (invoked w1 ++ [(item, ok)]) w1).
    assert (Hstep : replay (item :: rest) sc fc w =
              if ok
              then replay rest (S sc) fc
                     (set_mutationQueue
                        (deleteById MutationRequest.id (MutationRequest.id item)
                           (mutationQueue w2)) w2)
              else replay rest sc (S fc) w2).
    { cbn [replay]. unfold bind, modify, removeMutationFromQueue. rewrite Hex.
      by destruct ok. }
    unfold exec, eval in *. rewrite Hstep. clear Hstep Hex. subst w2.
    destruct ok.
    + match goal with
      | |- context [replay rest (S sc) fc ?w2] =>
          destruct (IH (S sc) fc w2) as (log & Hlog & Hi & Hm & Ho & He)
      end.
      exists ((item, true) :: log). cbn [map fst]. rewrite Hlog.
      split; [reflexivity|].
      rewrite Hi, Hm, Ho, He. cbn. rewrite Hinv, Hq, Hs.
      rewrite <- app_assoc. repeat split. f_equal; lia.
    + match goal with
      | |- context [replay rest sc (S fc) ?w2] =>
          destruct (IH sc (S fc) w2) as (log & Hlog & Hi & Hm & Ho & He)
      end.
      exists ((item, false) :: log). cbn [map fst]. rewrite Hlog.
      split; [reflexivity|].
      rewrite Hi, Hm, Ho, He. cbn. rewrite Hinv, Hq, Hs.
      rewrite <- app_assoc. repeat split. f_equal; lia.
Qed.

Lemma syncNow_log (w : World) :
  online w = true -> outboxSyncing w = false ->
  exists log,
    map fst log = orderByCreatedAtAsc (mutationQueue w)
    /\ invoked (exec syncNow w) = (invoked w ++ log)%list
    /\ mutationQueue (exec syncNow w) =
       foldl (fun t k => deleteById MutationRequest.id k t) (mutationQueue w)
         (succeededIds log)
    /\ outboxSyncing (exec syncNow w) = false.
Proof.
  intros Hon Hs.
  set (w1 := set_outboxSyncing true w).
  assert (Hrun : exec syncNow w =
            set_outboxSyncing false
              (if (length (orderByCreatedAtAsc (mutationQueue w)) =? 0)%nat
               then set_outboxSyncing false w1
               else exec (replay (orderByCreatedAtAsc (mutationQueue w)) 0 0) w1)).
  { unfold exec, syncNow, bind, getQueuedMutations, gets, modify.
    cbv beta iota. rewrite Hon, Hs. cbn [negb orb]. cbv beta iota.
    fold w1. change (mutationQueue w1) with (mutationQueue w).
    destruct (length (orderByCreatedAtAsc (mutationQueue w)) =? 0)%nat;
      [reflexivity|].
    by destruct (replay (orderByCreatedAtAsc (mutationQueue w)) 0 0 w1). }
  rewrite Hrun.
  destruct (orderByCreatedAtAsc (mutationQueue w)) as [|x queue] eqn:Hq.
  - exists []. cbn. rewrite app_nil_r. repeat split.
  - destruct (replay_log (x :: queue) 0 0 w1) as (log & Hlog & Hi & Hm & _ & _).
    exists log. split; [assumption|].
    cbn [length Nat.eqb invoked mutationQueue outboxSyncing set_outboxSyncing].
    rewrite Hi, Hm. repeat split.
Qed.

Lemma insertOrReplace_fresh {Row : Type} (key : Row -> string) (r : Row) (t : list Row) :
  ~ In (key r) (map key t) -> insertOrReplace key r t = (t ++ [r])%list.
Proof.
  intros Hfresh. unfold insertOrReplace.
  destruct (existsb (fun x => String.eqb (key x) (key r)) t) eqn:E; [|reflexivity].
  exfalso. apply Hfresh. apply existsb_exists in E as (x & Hin & Hx).
  apply String.eqb_eq in Hx. rewrite <- Hx. by apply in_map.
Qed.

(** C8 (amended). [getQueuedMutations] lists the queue in ascending
    [createdAt] order, entries with equal stamps in insertion order.  Replay
    attempts every listed entry in that order whatever the outcome of the
    earlier ones; an entry whose call failed stays in the queue and an entry
    whose call succeeded is removed, so exactly the failed entries remain.
    Replay order is enqueue order when the clock did not step back between
    the two enqueues: if [create] is enqueued before [update] with fresh ids
    and the stamp of [create] is not later than the stamp of [update], replay
    invokes [create] before [update]. *)
Theorem outbox_replay_order :
  (forall w,
     let listed := eval getQueuedMutations w in
     Permutation listed (mutationQueue w)
     /\ StronglySorted createdAt_le listed
     /\ (forall a b, Before a b (mutationQueue w) -> createdAt_le a b ->
           Before a b listed))
  /\ (forall w,
       online w = true -> outboxSyncing w = false ->
       List.NoDup (map MutationRequest.id (mutationQueue w)) ->
       exists log,
         invoked (exec syncNow w) = (invoked w ++ log)%list
         /\ map fst log = eval getQueuedMutations w
         /\ (forall e, In (e, true) log -> ~ In e (mutationQueue (exec syncNow w)))
         /\ (forall e, In (e, false) log -> In e (mutationQueue (exec syncNow w)))
         /\ (forall e, In e (mutationQueue (exec syncNow w)) -> In (e, false) log))
  /\ (forall w key1 vars1 key2 vars2,
       let w1 := exec (queueMutation key1 vars1) w in
       let w2 := exec (queueMutation key2 vars2) w1 in
       let e1 :=
         MutationRequest.mk (randomUUID (reads w)) key1 vars1 (wallClock (S (reads w))) in
       let e2 :=
         MutationRequest.mk (randomUUID (reads w1)) key2 vars2
           (wallClock (S (reads w1))) in
       online w = true -> outboxSyncing w = false ->
       ~ In (MutationRequest.id e1) (map MutationRequest.id (mutationQueue w)) ->
       ~ In (MutationRequest.id e2) (map MutationRequest.id (mutationQueue w1)) ->
       (MutationRequest.createdAt e1 <= MutationRequest.createdAt e2)%Z ->
       mutationQueue w2 = (mutationQueue w ++ [e1; e2])%list
       /\ exists log,
            invoked (exec syncNow w2) = (invoked w2 ++ log)%list
            /\ Before e1 e2 (map fst log)).
Proof.
  split; [|split].
  - intros w listed. subst listed. unfold eval, getQueuedMutations, gets. cbn [fst].
    split; [apply orderByCreatedAtAsc_perm|].
    split; [apply orderByCreatedAtAsc_sorted|].
    intros a b. apply orderByCreatedAtAsc_stable.
  - intros w Hon Hs Hnd.
    destruct (syncNow_log w Hon Hs) as (log & Hlog & Hi & Hm & _).
    exists log. split; [assumption|]. split; [assumption|].
    pose proof (orderByCreatedAtAsc_perm (mutationQueue w)) as Hperm.
    rewrite <- Hlog in Hperm.
    assert (Hndl : List.NoDup (map MutationRequest.id (map fst log))).
    { eapply Permutation_NoDup; [|exact Hnd].
      apply Permutation_map. by symmetry. }
    assert (Hndf : List.NoDup (map fst log)) by (eapply NoDup_map_inv; exact Hndl).
    assert (Hsucc : forall k, In k (succeededIds log) <->
                              exists e, In (e, true) log /\ MutationRequest.id e = k).
    { intros k. unfold succeededIds. rewrite in_map_iff. split.
      - intros ([e ok] & Hk & Hin). apply filter_In in Hin as [Hin Hok].
        simpl in *. subst ok. eauto.
      - intros (e & Hin & Hk). exists (e, true). split; [assumption|].
        apply filter_In. by split. }
    rewrite Hm. split; [|split].
    + intros e Hin Hq. apply In_deleteByIds in Hq as [_ Hq].
      apply Hq. apply Hsucc. eauto.
    + intros e Hin. apply In_deleteByIds. split.
      * apply (Permutation_in e Hperm). apply in_map_iff. by exists (e, false).
      * intros (e' & Hin' & Hk)%Hsucc.
        assert (e' = e).
        { apply (NoDup_map_inj_on MutationRequest.id (map fst log)); try done.
          - apply in_map_iff. by exists (e', true).
          - apply in_map_iff. by exists (e, false). }
        subst e'.
        assert (Heq : (e, true) = (e, false))
          by (by apply (NoDup_map_inj_on fst log)).
        discriminate.
    + intros e [Hin Hk]%In_deleteByIds.
      apply (Permutation_in e (Permutation_sym Hperm)) in Hin.
      apply in_map_iff in Hin as ([e' ok] & He & Hin). simpl in He. subst e'.
      destruct ok; [|assumption].
      exfalso. apply Hk. apply Hsucc. eauto.
  - intros w key1 vars1 key2 vars2 w1 w2 e1 e2 Hon Hs Hf1 Hf2 Hle.
    assert (Hq1 : mutationQueue w1 = (mutationQueue w ++ [e1])%list).
    { subst w1. unfold exec, queueMutation. cbn [snd mutationQueue set_mutationQueue].
      by apply insertOrReplace_fresh. }
    assert (Hq2 : mutationQueue w2 = (mutationQueue w ++ [e1; e2])%list).
    { subst w2. unfold exec at 1, queueMutation at 1.
      cbn [snd mutationQueue set_mutationQueue set_reads].
      rewrite insertOrReplace_fresh by exact Hf2.
      rewrite Hq1, <- app_assoc. reflexivity. }
    split; [exact Hq2|].
    assert (Hon2 : online w2 = true) by exact Hon.
    assert (Hs2 : outboxSyncing w2 = false) by exact Hs.
    destruct (syncNow_log w2 Hon2 Hs2) as (log & Hlog & Hi & _).
    exists log. split; [assumption|].
    rewrite Hlog, Hq2. apply orderByCreatedAtAsc_stable; [|exact Hle].
    apply Before_app_r. apply Before_here. by left.
Qed.

End OutboxProperties.

(** ** Resolving a conflict in favour of the server *)

Section ResolutionProperties.
Context `{Host}.

(** [updateBudgetItem] overrides the [synced] flag that [resolveConflicts]
    passes on: whatever the server says, the record that is stored for a
    [keep_server] resolution of a live server item is unsynced and stamped
    with the time of the resolution, so the next pass takes it as a
    candidate again. *)
Lemma resolveConflicts_keep_server_unsynced (w : World) (resolved : ResolvedConflict)
    (existing : BudgetItem.t) (rest : list BudgetItem.t) :
  resolution resolved = keep_server ->
  ServerBudgetItem.deleted (serverItem (conflict resolved)) = false ->
  selectById BudgetItem.id (BudgetItem.id (localItem (conflict resolved))) (budgetItems w)
    = existing :: rest ->
  let w' := exec (resolveConflicts [resolved]) w in
  exists stored others,
    selectById BudgetItem.id (BudgetItem.id (localItem (conflict resolved)))
      (budgetItems w') = stored :: others
    /\ BudgetItem.synced stored = false
    /\ BudgetItem.updatedAt stored = Instant (wallClock (reads w))
    /\ BudgetItem.amount stored = ServerBudgetItem.amount (serverItem (conflict resolved))
    /\ In stored (eval getUnsyncedItems w').
Proof.
  intros Hres Hlive Hsel w'.
  pose proof (updateBudgetItem_found _
                (resolvedFields (serverItemToLocal (serverItem (conflict resolved))))
                w existing rest Hsel) as Hupd.
  cbv zeta in Hupd.
  set (stored := BudgetItem.mk _ _ _ _ _ _ _ _ _ _) in Hupd.
  assert (Hw' : budgetItems w' = insertOrReplace BudgetItem.id stored (budgetItems w)).
  { subst w'. unfold exec, resolveConflicts, forOf, bind, applyResolutionNow,
      applyResolution, updateUnsyncedCount, getUnsyncedItems, gets, modify, ret.
    rewrite Hres, Hlive. cbn [isKeepServer andb]. cbv beta iota.
    rewrite Hupd. reflexivity. }
  destruct (selectById_insertOrReplace BudgetItem.id stored (budgetItems w))
    as [others Ho].
  rewrite <- Hw' in Ho. cbn [BudgetItem.id stored] in Ho.
  exists stored, others. split; [exact Ho|].
  repeat (split; [reflexivity|]).
  unfold eval, getUnsyncedItems, gets. cbn [fst]. apply filter_In.
  split; [|reflexivity].
  by apply (selectById_key _ _ _ _ _ Ho).
Qed.

End ResolutionProperties.

(** C2. The code departs from the specification here.  The local record
    [groceries] conflicts with [groceriesOnServer]; the conflict is resolved
    as [keep_server], for which [applyResolution] yields the server record
    in local shape with [synced = true].  The record that
    [resolveConflicts] stores has the server's content but [synced = false]
    and a fresh [updatedAt]: it is still in the unsynced set, and the next
    pass POSTs it. *)
Theorem resolveConflicts_keep_server_stays_unsynced :
  let w0 := worldWith [groceries] in
  let pass1 := @triggerSync serverHost w0 in
  let resolved :=
    @autoResolveConflict serverHost (mkConflict groceries groceriesOnServer both_modified) in
  let w2 := exec (@resolveConflicts serverHost [resolved]) (snd pass1) in
  let stored :=
    BudgetItem.mk "a" "Food" "Groceries" 200 expense (Instant 1704067200000)
      false (Instant 1704067205500) (Instant 1704067200000) false in
  resultConflicts (fst pass1) = [mkConflict groceries groceriesOnServer both_modified]
  /\ resolution resolved = keep_server
  /\ ServerBudgetItem.deleted groceriesOnServer = false
  /\ eval (@applyResolutionNow serverHost resolved) (snd pass1)
     = @serverItemToLocal serverHost groceriesOnServer
  /\ BudgetItem.synced (@serverItemToLocal serverHost groceriesOnServer) = true
  /\ budgetItems w2 = [stored]
  /\ BudgetItem.synced stored = false
  /\ eval getUnsyncedItems w2 = [stored]
  /\ map (map SyncPayloadItem.id) (posted (exec (@resolveConflictsTimer serverHost) w2))
     = [["a"]].
Proof. vm_compute. repeat split. Qed.

(** ** The theorems at work on concrete inputs *)

(** Both alive and 500 ms apart: no conflict. *)
Lemma detectConflict_classification_witness :
  @detectConflict serverHost
    (BudgetItem.mk "a" "Food" "Groceries" 100 expense (Instant 1704067200000)
       false (Instant 1704067205500) (Instant 1704067200000) false)
    groceriesOnServer = None
  /\ @detectConflict serverHost groceries groceriesOnServer
     = Some (mkConflict groceries groceriesOnServer both_modified).
Proof.
  split.
  - destruct (@detectConflict_classification serverHost
                (BudgetItem.mk "a" "Food" "Groceries" 100 expense (Instant 1704067200000)
                   false (Instant 1704067205500) (Instant 1704067200000) false)
                groceriesOnServer) as (_ & _ & Hboth).
    destruct (Hboth eq_refl) as (_ & _ & Hnear).
    apply (Hnear 1704067205500 1704067205000); [reflexivity | reflexivity | simpl; lia].
  - destruct (@detectConflict_classification serverHost groceries groceriesOnServer)
      as (_ & _ & Hboth).
    destruct (Hboth eq_refl) as (Hfar & _).
    apply Hfar. exists 1704067200000, 1704067205000.
    split; [reflexivity|]. split; [reflexivity|]. simpl. lia.
Defined.

(** The server's edit is 5000 ms newer: keep the server's version. *)
Lemma autoResolveConflict_last_write_wins_witness :
  resolution
    (@autoResolveConflict serverHost (mkConflict groceries groceriesOnServer both_modified))
  = keep_server.
Proof.
  destruct (@autoResolveConflict_last_write_wins serverHost
              (mkConflict groceries groceriesOnServer both_modified))
    as (_ & _ & _ & Hnewer).
  apply (Hnewer 1704067200000); reflexivity.
Defined.

Lemma mergeItems_whole_record_pick_witness :
  BudgetItem.amount
    (@mergeItems serverHost (Instant 1704067211000) groceries groceriesOnServer)
  = ServerBudgetItem.amount groceriesOnServer
  /\ BudgetItem.amount
       (@mergeItems serverHost (Instant 1704067211000)
          (BudgetItem.mk "a" "Food" "Groceries" 100 expense (Instant 1704067200000)
             false (Instant 1704067205500) (Instant 1704067200000) false)
          groceriesOnServer)
     = 100%float.
Proof.
  split.
  - destruct (@mergeItems_whole_record_pick serverHost (Instant 1704067211000)
                groceries groceriesOnServer) as (_ & Hserver & _).
    apply Hserver. intros (x & y & Hx & Hy & Hle).
    vm_compute in Hx, Hy. injection Hx as <-. injection Hy as <-. lia.
  - destruct (@mergeItems_whole_record_pick serverHost (Instant 1704067211000)
                (BudgetItem.mk "a" "Food" "Groceries" 100 expense (Instant 1704067200000)
                   false (Instant 1704067205500) (Instant 1704067200000) false)
                groceriesOnServer) as (Hlocal & _).
    apply Hlocal. exists 1704067205500, 1704067205000.
    split; [reflexivity|]. split; [reflexivity|]. lia.
Defined.

(** C4 as the specification states it fails: a partial argument that
    carries a [createdAt] replaces the one of the existing record. *)
Lemma updateBudgetItem_createdAt_overwritten :
  let updates :=
    Partial.mk None None None (Some 150%float) None None None None (Some (Instant 0)) None in
  let w := worldWith [groceries] in
  selectById BudgetItem.id "a" (budgetItems w) = [groceries]
  /\ BudgetItem.createdAt groceries = Instant 1704067200000
  /\ option_map BudgetItem.createdAt (eval (@updateBudgetItem steadyHost "a" updates) w)
     = Some (Instant 0)
  /\ map BudgetItem.createdAt
       (selectById BudgetItem.id "a"
          (budgetItems (exec (@updateBudgetItem steadyHost "a" updates) w)))
     = [Instant 0]
  /\ Instant 0 <> Instant 1704067200000.
Proof. vm_compute. repeat split. discriminate. Qed.

Lemma updateBudgetItem_merges_witness :
  (exists updated,
      eval (@updateBudgetItem steadyHost "a"
              (Partial.mk None None None (Some 150%float) None None None None None None))
        (worldWith [groceries; rent]) = Some updated
      /\ BudgetItem.amount updated = 150%float
      /\ BudgetItem.synced updated = false
      /\ BudgetItem.updatedAt updated = Instant 1704067200000
      /\ BudgetItem.id updated = "a"
      /\ BudgetItem.createdAt updated = BudgetItem.createdAt groceries)
  /\ @updateBudgetItem steadyHost "c" Partial.empty (worldWith [groceries; rent])
     = (None, worldWith [groceries; rent]).
Proof.
  split.
  - destruct (@updateBudgetItem_merges steadyHost "a"
                (Partial.mk None None None (Some 150%float) None None None None None None)
                (worldWith [groceries; rent])) as (Hfound & _).
    destruct (Hfound groceries [] eq_refl)
      as (updated & Hret & _ & _ & Hamount & _ & _ & _ & Hsynced & Hupd & _ & Hid
          & _ & Hcreated & _).
    exists updated. repeat split; try assumption. by apply Hcreated.
  - destruct (@updateBudgetItem_merges steadyHost "c" Partial.empty
                (worldWith [groceries; rent])) as (_ & Hmissing).
    apply Hmissing. reflexivity.
Defined.

Lemma markItemsAsSynced_spec_witness :
  selectById BudgetItem.id "b"
    (budgetItems (exec (markItemsAsSynced ["a"]) (worldWith [groceries; rent])))
  = [rent].
Proof.
  destruct (@markItemsAsSynced_spec steadyHost) as (_ & _ & Hone & _).
  destruct (Hone "a" (worldWith [groceries; rent])) as (Hother & _).
  rewrite (Hother "b"); [reflexivity | discriminate].
Defined.

Lemma triggerSync_stops_on_conflict_witness :
  posted (exec (@triggerSync serverHost) (worldWith [groceries; rent])) = []
  /\ budgetItems (exec (@triggerSync serverHost) (worldWith [groceries; rent]))
     = [groceries; rent]
  /\ resultConflicts (eval (@triggerSync serverHost) (worldWith [groceries; rent]))
     = [mkConflict groceries groceriesOnServer both_modified].
Proof.
  destruct (@triggerSync_stops_on_conflict serverHost (worldWith [groceries; rent])
              eq_refl eq_refl eq_refl) as (Hposted & Hitems & _ & _ & _ & Hconf & _).
  - exists groceries, groceriesOnServer,
      (mkConflict groceries groceriesOnServer both_modified).
    split; [left; reflexivity|]. split; reflexivity.
  - split; [exact Hposted|]. split; [exact Hitems|]. rewrite Hconf. reflexivity.
Defined.

(** C8 as the specification states it fails: with the clock set back
    between the two enqueues, [updateBudget], enqueued second, is replayed
    first. *)
Lemma outbox_replay_not_enqueue_order :
  let create := JSObject [("category", JSString "Food")] in
  let change := JSObject [("id", JSNumber 1); ("data", JSObject [("limit", JSNumber 50)])] in
  let w1 := exec (@queueMutation clockSetBackHost "createBudget" create) emptyWorld in
  let w2 := exec (@queueMutation clockSetBackHost "updateBudget" change) w1 in
  let w3 := exec (@syncNow clockSetBackHost) w2 in
  map MutationRequest.mutationKey (mutationQueue w2) = ["createBudget"; "updateBudget"]
  /\ map MutationRequest.createdAt (mutationQueue w2) = [1704067199000; 1704067197000]
  /\ map (fun p => MutationRequest.mutationKey (fst p)) (invoked w3)
     = ["updateBudget"; "createBudget"].
Proof. vm_compute. repeat split. Qed.

Lemma outbox_replay_order_witness :
  let create := JSObject [("category", JSString "Food")] in
  let change := JSObject [("id", JSNumber 1); ("data", JSObject [("limit", JSNumber 50)])] in
  let e1 := MutationRequest.mk "uuid-0" "createBudget" create 1704067201000 in
  let e2 := MutationRequest.mk "uuid-2" "updateBudget" change 1704067203000 in
  let w1 := exec (@queueMutation steadyHost "createBudget" create) emptyWorld in
  let w2 := exec (@queueMutation steadyHost "updateBudget" change) w1 in
  (exists log,
      invoked (exec (@syncNow steadyHost) w2) = (invoked w2 ++ log)%list
      /\ Before e1 e2 (map fst log))
  /\ (exists log,
        invoked (exec (@syncNow clockSetBackHost) w2) = (invoked w2 ++ log)%list
        /\ (forall e, In (e, false) log ->
              In e (mutationQueue (exec (@syncNow clockSetBackHost) w2)))).
Proof.
  intros create change e1 e2 w1 w2. split.
  - destruct (@outbox_replay_order steadyHost) as (_ & _ & Hfifo).
    destruct (Hfifo emptyWorld "createBudget" create "updateBudget" change
                eq_refl eq_refl) as (_ & Hlog).
    + simpl. tauto.
    + simpl. intros [Heq | []]. discriminate.
    + simpl. lia.
    + exact Hlog.
  - destruct (@outbox_replay_order clockSetBackHost) as (_ & Hreplay & _).
    destruct (Hreplay w2 eq_refl eq_refl) as (log & Hlog & _ & _ & Hfailed & _).
    + repeat constructor; simpl; intuition discriminate.
    + exists log. split; assumption.
Defined.

(** * Further properties of the code *)

(** ** Conflict detection and resolution *)

Lemma num_gt_num_ge_false (a b : Number) : num_gt a b = true -> num_ge b a = false.
Proof. destruct a, b; simpl; try discriminate. lia. Qed.

Lemma num_gt_num_ge_true (a b : Number) : num_gt a b = true -> num_ge a b = true.
Proof. destruct a, b; simpl; try discriminate. lia. Qed.

(** The three places where [detectConflict] returns a conflict. *)
Lemma detectConflict_Some `{Host} (l : BudgetItem.t) (s : ServerBudgetItem.t)
    (c : SyncConflict) :
  detectConflict l s = Some c ->
  let L := getTime (BudgetItem.updatedAt l) in
  let S := getTime (Date_parse (ServerBudgetItem.updatedAt s)) in
  (c = mkConflict l s delete_local
   /\ BudgetItem.deleted l = true /\ ServerBudgetItem.deleted s = false
   /\ num_gt S L = true)
  \/ (c = mkConflict l s delete_server
      /\ BudgetItem.deleted l = false /\ ServerBudgetItem.deleted s = true
      /\ num_gt L S = true)
  \/ (c = mkConflict l s both_modified
      /\ BudgetItem.deleted l = ServerBudgetItem.deleted s
      /\ num_gt (Math_abs (num_sub L S)) (Some TIME_TOLERANCE) = true).
Proof.
  intros Hc L S. unfold detectConflict in Hc. fold L S in Hc.
  destruct (BudgetItem.deleted l), (ServerBudgetItem.deleted s); simpl in Hc.
  - destruct (num_gt (Math_abs (num_sub L S)) (Some TIME_TOLERANCE)) eqn:E;
      [|discriminate]. injection Hc as <-. right. right. tauto.
  - destruct (num_gt S L) eqn:E; [|discriminate]. injection Hc as <-. left. tauto.
  - destruct (num_gt L S) eqn:E; [|discriminate]. injection Hc as <-.
    right. left. tauto.
  - destruct (num_gt (Math_abs (num_sub L S)) (Some TIME_TOLERANCE)) eqn:E;
      [|discriminate]. injection Hc as <-. right. right. tauto.
Qed.

Section ConflictExtras.
Context `{Host}.

(** X1. A conflict reported by [detectConflict] always pairs the two items
    it was given, and its type is never [update]: that variant of
    [conflictType] is not produced by the detector. *)
Theorem detectConflict_result_shape (l : BudgetItem.t) (s : ServerBudgetItem.t)
    (c : SyncConflict) :
  detectConflict l s = Some c ->
  localItem c = l /\ serverItem c = s /\ conflictType c <> update.
Proof.
  intros Hc. destruct (detectConflict_Some l s c Hc) as [H1 | [H1 | H1]];
    destruct H1 as (-> & _); repeat split; discriminate.
Qed.

(** X2. When either timestamp is not a valid date, [detectConflict] reports
    no conflict, whatever the deletion flags and contents are. *)
Theorem detectConflict_invalid_timestamp (l : BudgetItem.t) (s : ServerBudgetItem.t) :
  BudgetItem.updatedAt l = InvalidDate
  \/ Date_parse (ServerBudgetItem.updatedAt s) = InvalidDate ->
  detectConflict l s = None.
Proof.
  intros Hinv. unfold detectConflict.
  assert (Hgt1 : num_gt (getTime (Date_parse (ServerBudgetItem.updatedAt s)))
                   (getTime (BudgetItem.updatedAt l)) = false).
  { destruct Hinv as [-> | ->]; simpl; [|reflexivity].
    by destruct (getTime (Date_parse (ServerBudgetItem.updatedAt s))). }
  assert (Hgt2 : num_gt (getTime (BudgetItem.updatedAt l))
                   (getTime (Date_parse (ServerBudgetItem.updatedAt s))) = false).
  { destruct Hinv as [-> | ->]; simpl; [reflexivity|].
    by destruct (getTime (BudgetItem.updatedAt l)). }
  assert (Habs : num_gt (Math_abs (num_sub (getTime (BudgetItem.updatedAt l))
                   (getTime (Date_parse (ServerBudgetItem.updatedAt s)))))
                   (Some TIME_TOLERANCE) = false).
  { destruct Hinv as [-> | ->]; simpl; [reflexivity|].
    by destruct (getTime (BudgetItem.updatedAt l)). }
  rewrite Hgt1, Hgt2, Habs.
  by destruct (BudgetItem.deleted l), (ServerBudgetItem.deleted s).
Qed.

(** X3. Applying the automatic resolution is last-write-wins on whole
    records: it yields the local record, marked unsynced, when the local
    timestamp is not older, and otherwise the server record in local shape,
    marked synced. *)
Theorem applyResolution_autoResolveConflict (now : JSDate) (c : SyncConflict) :
  let L := getTime (BudgetItem.updatedAt (localItem c)) in
  let S := getTime (Date_parse (ServerBudgetItem.updatedAt (serverItem c))) in
  (not_older_than L S ->
     applyResolution now (autoResolveConflict c) = with_synced false (localItem c))
  /\ (~ not_older_than L S ->
     applyResolution now (autoResolveConflict c) = serverItemToLocal (serverItem c)).
Proof.
  intros L S.
  assert (Hge := num_ge_not_older_than L S).
  assert (Hnge := not_true_iff_false_of _ _ Hge).
  unfold autoResolveConflict. fold L S. split.
  - intros Hl%Hge. by rewrite Hl.
  - intros Hl%Hnge. by rewrite Hl.
Qed.

(** X4. The merged item and the automatically resolved item have the same
    content: category, description, amount, type and date of [mergeItems]
    are those of the record that last-write-wins keeps. *)
Theorem mergeItems_content_is_last_write (now now' : JSDate) (l : BudgetItem.t)
    (s : ServerBudgetItem.t) (kind : ConflictType) :
  let merged := mergeItems now l s in
  let kept := applyResolution now' (autoResolveConflict (mkConflict l s kind)) in
  BudgetItem.category merged = BudgetItem.category kept
  /\ BudgetItem.description merged = BudgetItem.description kept
  /\ BudgetItem.amount merged = BudgetItem.amount kept
  /\ BudgetItem.type merged = BudgetItem.type kept
  /\ BudgetItem.date merged = BudgetItem.date kept.
Proof.
  unfold mergeItems, autoResolveConflict. cbn [localItem serverItem].
  destruct (num_ge (getTime (BudgetItem.updatedAt l))
              (getTime (Date_parse (ServerBudgetItem.updatedAt s)))); repeat split.
Qed.

(** X5. In a detected delete conflict the deletion never wins the
    automatic resolution: a [delete_local] conflict is resolved as
    [keep_server] and a [delete_server] conflict as [keep_local], and in
    both cases the resolved item is not deleted. *)
Theorem autoResolve_delete_conflict_keeps_live (now : JSDate) (l : BudgetItem.t)
    (s : ServerBudgetItem.t) (c : SyncConflict) :
  detectConflict l s = Some c ->
  (conflictType c = delete_local ->
     resolution (autoResolveConflict c) = keep_server
     /\ BudgetItem.deleted (applyResolution now (autoResolveConflict c)) = false)
  /\ (conflictType c = delete_server ->
     resolution (autoResolveConflict c) = keep_local
     /\ BudgetItem.deleted (applyResolution now (autoResolveConflict c)) = false).
Proof.
  intros Hc. destruct (detectConflict_Some l s c Hc) as [H1 | [H1 | H1]].
  - destruct H1 as (-> & Hl & Hs & Hgt). split; [|discriminate]. intros _.
    unfold autoResolveConflict. cbn [localItem serverItem].
    rewrite (num_gt_num_ge_false _ _ Hgt). cbn. by rewrite Hs.
  - destruct H1 as (-> & Hl & Hs & Hgt). split; [discriminate|]. intros _.
    unfold autoResolveConflict. cbn [localItem serverItem].
    rewrite (num_gt_num_ge_true _ _ Hgt). cbn. by rewrite Hl.
  - destruct H1 as (-> & _). split; discriminate.
Qed.

End ConflictExtras.

(** ** More facts about tables *)

Section TableExtras.
Context {Row : Type} (key : Row -> string).

Lemma deleteById_absent (k : string) (t : list Row) :
  selectById key k t = [] -> deleteById key k t = t.
Proof.
  unfold selectById, deleteById. induction t as [|x t IH]; simpl; [reflexivity|].
  destruct (String.eqb (key x) k); simpl; [discriminate|].
  intros Hsel. f_equal. by apply IH.
Qed.

Lemma deleteById_idem (k : string) (t : list Row) :
  deleteById key k (deleteById key k t) = deleteById key k t.
Proof. apply deleteById_absent, selectById_deleteById. Qed.

Lemma In_selectById (k : string) (t : list Row) (r : Row) :
  In r (selectById key k t) <-> In r t /\ key r = k.
Proof.
  unfold selectById. rewrite filter_In. by rewrite String.eqb_eq.
Qed.

(** Whatever row of the table has the key of the inserted row is that row. *)
Lemma insertOrReplace_key_unique (x r : Row) (t : list Row) :
  In r (insertOrReplace key x t) -> key r = key x -> r = x.
Proof.
  unfold insertOrReplace.
  destruct (existsb (fun y => String.eqb (key y) (key x)) t) eqn:E.
  - intros Hin Hk. apply in_map_iff in Hin as (y & Hy & Hin).
    destruct (String.eqb (key y) (key x)) eqn:Ey; [congruence|].
    subst y. apply String.eqb_neq in Ey. congruence.
  - intros Hin Hk. apply in_app_iff in Hin as [Hin | [<- | []]]; [|reflexivity].
    exfalso.
    assert (Hex : existsb (fun y => String.eqb (key y) (key x)) t = true).
    { apply existsb_exists. exists r. split; [assumption|]. by apply String.eqb_eq. }
    congruence.
Qed.

Lemma insertOrReplace_length_found (x : Row) (t : list Row) (r : Row) (rest : list Row) :
  selectById key (key x) t = r :: rest ->
  length (insertOrReplace key x t) = length t.
Proof.
  intros Hsel. destruct (selectById_key key _ _ _ _ Hsel) as [Hk Hin].
  unfold insertOrReplace. rewrite (existsb_key_In key (key x) t r Hin Hk).
  apply List.length_map.
Qed.

End TableExtras.

Lemma filter_filter_andb {A : Type} (f g : A -> bool) (l : list A) :
  List.filter f (List.filter g l) = List.filter (fun x => g x && f x) l.
Proof.
  induction l as [|x l IH]; simpl; [reflexivity|].
  destruct (g x); simpl; [|assumption].
  destruct (f x); by rewrite IH.
Qed.

Lemma filter_filter_comm {A : Type} (f g : A -> bool) (l : list A) :
  List.filter f (List.filter g l) = List.filter g (List.filter f l).
Proof.
  rewrite !filter_filter_andb. apply List.filter_ext. intros x. apply andb_comm.
Qed.

(** ** The active list *)

Lemma insertByDateDesc_perm (r : BudgetItem.t) (l : list BudgetItem.t) :
  Permutation (insertByDateDesc r l) (r :: l).
Proof.
  induction l as [|x l IH]; simpl; [reflexivity|].
  destruct (num_gt (getTime (BudgetItem.date x)) (getTime (BudgetItem.date r)));
    [|reflexivity].
  rewrite IH. apply perm_swap.
Qed.

Lemma orderByDateDesc_perm (rows : list BudgetItem.t) :
  Permutation (orderByDateDesc rows) rows.
Proof.
  unfold orderByDateDesc. induction rows as [|r rows IH]; simpl; [reflexivity|].
  rewrite insertByDateDesc_perm. by constructor.
Qed.

Lemma date_not_older_total (a b : BudgetItem.t) :
  validDate a -> validDate b ->
  num_gt (getTime (BudgetItem.date a)) (getTime (BudgetItem.date b)) = false ->
  date_not_older b a.
Proof.
  unfold validDate, date_not_older, not_older_than.
  destruct (BudgetItem.date a) as [|x], (BudgetItem.date b) as [|y]; try congruence.
  simpl. intros _ _ Hgt. exists y, x. repeat split. lia.
Qed.

Lemma date_not_older_of_gt (a b : BudgetItem.t) :
  num_gt (getTime (BudgetItem.date a)) (getTime (BudgetItem.date b)) = true ->
  date_not_older a b.
Proof.
  unfold date_not_older, not_older_than.
  destruct (BudgetItem.date a) as [|x], (BudgetItem.date b) as [|y]; try discriminate.
  simpl. intros Hgt. exists x, y. repeat split. lia.
Qed.

Lemma date_not_older_trans (a b c : BudgetItem.t) :
  date_not_older a b -> date_not_older b c -> date_not_older a c.
Proof.
  unfold date_not_older, not_older_than.
  intros (x & y & Hx & Hy & Hxy) (y' & z & Hy' & Hz & Hyz).
  exists x, z. repeat split; try assumption. rewrite Hy in Hy'. injection Hy' as <-. lia.
Qed.

Lemma insertByDateDesc_sorted (r : BudgetItem.t) (l : list BudgetItem.t) :
  validDate r -> List.Forall validDate l ->
  StronglySorted date_not_older l -> StronglySorted date_not_older (insertByDateDesc r l).
Proof.
  intros Hr. induction l as [|x l IH]; simpl; intros Hv Hs.
  - constructor; [constructor | constructor].
  - apply List.Forall_cons_iff in Hv as [Hx Hv].
    apply StronglySorted_inv in Hs as [Hl Hfx].
    destruct (num_gt (getTime (BudgetItem.date x)) (getTime (BudgetItem.date r))) eqn:E.
    + constructor; [by apply IH|].
      eapply Permutation_Forall; [symmetry; apply insertByDateDesc_perm|].
      constructor; [by apply date_not_older_of_gt | assumption].
    + assert (Hrx : date_not_older r x) by (by apply date_not_older_total).
      constructor; [by constructor|].
      constructor; [assumption|].
      eapply List.Forall_impl; [|exact Hfx].
      intros y Hy. by apply (date_not_older_trans r x y).
Qed.

Lemma orderByDateDesc_sorted (rows : list BudgetItem.t) :
  List.Forall validDate rows -> StronglySorted date_not_older (orderByDateDesc rows).
Proof.
  unfold orderByDateDesc. induction rows as [|r rows IH]; simpl; intros Hv;
    [constructor|].
  apply List.Forall_cons_iff in Hv as [Hr Hv].
  apply insertByDateDesc_sorted; [assumption | | by apply IH].
  eapply Permutation_Forall; [symmetry; apply orderByDateDesc_perm | assumption].
Qed.

(** X8. [getAllBudgetItems] reads the table without changing anything and
    lists exactly the rows that are not deleted; when their dates are valid
    the list runs from the latest date to the earliest. *)
Theorem getAllBudgetItems_active_latest_first (w : World) :
  let listed := eval getAllBudgetItems w in
  exec getAllBudgetItems w = w
  /\ Permutation listed
       (List.filter (fun r => negb (BudgetItem.deleted r)) (budgetItems w))
  /\ (forall r, In r listed <-> In r (budgetItems w) /\ BudgetItem.deleted r = false)
  /\ ((forall r, In r (budgetItems w) -> BudgetItem.deleted r = false -> validDate r) ->
      StronglySorted date_not_older listed).
Proof.
  intros listed. subst listed. unfold eval, exec, getAllBudgetItems, gets. cbn [fst snd].
  split; [reflexivity|]. split; [apply orderByDateDesc_perm|]. split.
  - intros r. split.
    + intros Hin. apply (Permutation_in r (orderByDateDesc_perm _)) in Hin.
      apply filter_In in Hin as [Hin Hd]. split; [assumption|].
      by apply negb_true_iff.
    + intros [Hin Hd]. apply (Permutation_in r (Permutation_sym (orderByDateDesc_perm _))).
      apply filter_In. split; [assumption|]. by apply negb_true_iff.
  - intros Hvalid. apply orderByDateDesc_sorted. apply List.Forall_forall.
    intros r Hin. apply filter_In in Hin as [Hin Hd]. apply Hvalid; [assumption|].
    by apply negb_true_iff.
Qed.

(** ** More about the budget table *)

Section BudgetDbExtras.
Context `{Host}.

(** X6. [hardDeleteBudgetItem] leaves no row with the id and touches no row
    with another id; on an id that has no row it changes nothing at all, so
    deleting twice is deleting once. *)
Theorem hardDeleteBudgetItem_removes (id : string) (w : World) :
  let w' := exec (hardDeleteBudgetItem id) w in
  selectById BudgetItem.id id (budgetItems w') = []
  /\ (forall k, k <> id ->
        selectById BudgetItem.id k (budgetItems w') = selectById BudgetItem.id k (budgetItems w))
  /\ (selectById BudgetItem.id id (budgetItems w) = [] -> w' = w)
  /\ exec (hardDeleteBudgetItem id) w' = w'.
Proof.
  intros w'. subst w'. unfold exec, hardDeleteBudgetItem, modify. cbn [snd budgetItems
    set_budgetItems].
  split; [apply selectById_deleteById|].
  split; [intros k Hk; by apply selectById_deleteById_ne|].
  split.
  - intros Habs. rewrite (deleteById_absent _ _ _ Habs). apply set_budgetItems_same.
  - by rewrite deleteById_idem.
Qed.

Lemma deleteBudgetItem_run (id : string) (w : World) :
  deleteBudgetItem id w =
  let r := updateBudgetItem id
             (Partial.mk None None None None None None (Some false) None None (Some true))
             w in
  (match fst r with Some _ => true | None => false end, snd r).
Proof.
  unfold deleteBudgetItem, bind.
  destruct (updateBudgetItem id _ w) as [[u|] w1]; reflexivity.
Qed.

(** X7. [deleteBudgetItem] is a soft delete.  For an id without a row it
    returns [false] and changes nothing.  For an existing id it returns
    [true] and keeps the row in the table: the stored row has the content
    and [createdAt] of the existing one, [deleted = true], [synced = false]
    and the time of the call as [updatedAt]; it is a sync candidate, and no
    row with that id is listed by [getAllBudgetItems] any more. *)
Theorem deleteBudgetItem_soft (id : string) (w : World) :
  (selectById BudgetItem.id id (budgetItems w) = [] -> deleteBudgetItem id w = (false, w))
  /\ (forall existing rest,
       selectById BudgetItem.id id (budgetItems w) = existing :: rest ->
       let w' := exec (deleteBudgetItem id) w in
       eval (deleteBudgetItem id) w = true
       /\ length (budgetItems w') = length (budgetItems w)
       /\ (exists stored others,
             selectById BudgetItem.id id (budgetItems w') = stored :: others
             /\ BudgetItem.deleted stored = true
             /\ BudgetItem.synced stored = false
             /\ BudgetItem.updatedAt stored = Instant (wallClock (reads w))
             /\ BudgetItem.createdAt stored = BudgetItem.createdAt existing
             /\ BudgetItem.category stored = BudgetItem.category existing
             /\ BudgetItem.description stored = BudgetItem.description existing
             /\ BudgetItem.amount stored = BudgetItem.amount existing
             /\ BudgetItem.type stored = BudgetItem.type existing
             /\ BudgetItem.date stored = BudgetItem.date existing
             /\ In stored (eval getUnsyncedItems w'))
       /\ (forall r, In r (eval getAllBudgetItems w') -> BudgetItem.id r <> id)).
Proof.
  split.
  - intros Habs. rewrite deleteBudgetItem_run.
    by rewrite (updateBudgetItem_missing _ _ _ Habs).
  - intros existing rest Hsel w'.
    pose proof (updateBudgetItem_found id
                  (Partial.mk None None None None None None (Some false) None None
                     (Some true)) w existing rest Hsel) as Hupd.
    cbv zeta in Hupd. cbn [spread default Partial.id Partial.category Partial.description
      Partial.amount Partial.type Partial.date Partial.synced Partial.updatedAt
      Partial.createdAt Partial.deleted BudgetItem.category BudgetItem.description
      BudgetItem.amount BudgetItem.type BudgetItem.date BudgetItem.createdAt
      BudgetItem.deleted] in Hupd.
    set (stored := BudgetItem.mk _ _ _ _ _ _ _ _ _ _) in Hupd.
    assert (Hw' : budgetItems w' = insertOrReplace BudgetItem.id stored (budgetItems w)).
    { subst w'. unfold exec. rewrite deleteBudgetItem_run, Hupd. reflexivity. }
    split; [unfold eval; by rewrite deleteBudgetItem_run, Hupd|].
    split.
    { rewrite Hw'. by apply (insertOrReplace_length_found BudgetItem.id stored _ existing rest). }
    destruct (selectById_insertOrReplace BudgetItem.id stored (budgetItems w))
      as [others Ho].
    rewrite <- Hw' in Ho. cbn [BudgetItem.id stored] in Ho.
    split.
    + exists stored, others. split; [exact Ho|].
      repeat (split; [reflexivity|]).
      unfold eval, getUnsyncedItems, gets. cbn [fst]. apply filter_In.
      split; [|reflexivity]. by apply (selectById_key _ _ _ _ _ Ho).
    + intros r Hr Hid.
      unfold eval, getAllBudgetItems, gets in Hr. cbn [fst] in Hr.
      apply (Permutation_in r (orderByDateDesc_perm _)) in Hr.
      apply filter_In in Hr as [Hin Hlive]. rewrite Hw' in Hin.
      assert (r = stored) by (by apply (insertOrReplace_key_unique BudgetItem.id stored r _ Hin)).
      subst r. discriminate.
Qed.

(** X9. [addBudgetItem] returns an unsynced, live item whose [updatedAt]
    and [createdAt] are two successive clock readings, [updatedAt] first.
    When the generated id is not in use, the item is appended to the table
    and to the unsynced set and nothing else changes in either. *)
Theorem addBudgetItem_appends (item : NewItem.t) (w : World) :
  let created := eval (addBudgetItem item) w in
  let w' := exec (addBudgetItem item) w in
  BudgetItem.synced created = false
  /\ BudgetItem.deleted created = false
  /\ BudgetItem.updatedAt created = Instant (wallClock (S (reads w)))
  /\ BudgetItem.createdAt created = Instant (wallClock (S (S (reads w))))
  /\ (exists others,
        selectById BudgetItem.id (BudgetItem.id created) (budgetItems w') = created :: others)
  /\ (~ In (BudgetItem.id created) (map BudgetItem.id (budgetItems w)) ->
      budgetItems w' = (budgetItems w ++ [created])%list
      /\ eval getUnsyncedItems w' = (eval getUnsyncedItems w ++ [created])%list).
Proof.
  intros created w'.
  assert (Hw' : budgetItems w' = insertOrReplace BudgetItem.id created (budgetItems w))
    by reflexivity.
  repeat (split; [reflexivity|]).
  split.
  - rewrite Hw'. apply selectById_insertOrReplace.
  - intros Hfresh.
    assert (Happ : budgetItems w' = (budgetItems w ++ [created])%list).
    { rewrite Hw'. by apply insertOrReplace_fresh. }
    split; [exact Happ|].
    unfold eval, getUnsyncedItems, gets. cbn [fst]. rewrite Happ.
    by rewrite List.filter_app.
Qed.

(** [updateBudgetItem] keeps the ids of the table, in place. *)
Lemma updateBudgetItem_ids (id : string) (updates : Partial.t) (w : World) :
  map BudgetItem.id (budgetItems (exec (updateBudgetItem id updates) w))
  = map BudgetItem.id (budgetItems w).
Proof.
  unfold exec.
  destruct (selectById BudgetItem.id id (budgetItems w)) as [|existing rest] eqn:Hsel.
  - by rewrite (updateBudgetItem_missing _ _ _ Hsel).
  - rewrite (updateBudgetItem_found _ updates _ _ _ Hsel).
    cbn [snd budgetItems set_budgetItems set_reads].
    destruct (selectById_key _ _ _ _ _ Hsel) as [Hk Hin].
    unfold insertOrReplace. cbn [BudgetItem.id].
    rewrite (existsb_key_In BudgetItem.id id _ existing Hin Hk).
    rewrite List.map_map. apply List.map_ext. intros x.
    destruct (String.eqb (BudgetItem.id x) id) eqn:Ex; [|reflexivity].
    apply String.eqb_eq in Ex. by rewrite Ex.
Qed.

Lemma markItemsAsSynced_primary_key (ids : list string) :
  forall w,
    List.NoDup (map BudgetItem.id (budgetItems w)) ->
    List.NoDup (map BudgetItem.id (budgetItems (exec (markItemsAsSynced ids) w))).
Proof.
  induction ids as [|id ids IH]; intros w Hnd; [exact Hnd|].
  rewrite markItemsAsSynced_cons. apply IH. rewrite markItemsAsSynced_one.
  destruct (selectById BudgetItem.id id (budgetItems w)) as [|item rest]; [exact Hnd|].
  destruct (BudgetItem.deleted item); cbn [budgetItems set_budgetItems].
  - by apply deleteById_primary_key.
  - by apply insertOrReplace_primary_key.
Qed.

Lemma updateBudgetItem_primary_key (id : string) (updates : Partial.t) (w : World) :
  List.NoDup (map BudgetItem.id (budgetItems w)) ->
  List.NoDup (map BudgetItem.id (budgetItems (exec (updateBudgetItem id updates) w))).
Proof.
  intros Hnd. unfold exec.
  destruct (selectById BudgetItem.id id (budgetItems w)) as [|existing rest] eqn:Hsel.
  - by rewrite (updateBudgetItem_missing _ _ _ Hsel).
  - rewrite (updateBudgetItem_found _ updates _ _ _ Hsel).
    cbn [snd budgetItems set_budgetItems set_reads].
    by apply insertOrReplace_primary_key.
Qed.

(** X10. Every operation of the store keeps the primary key unique: if no
    two rows share an id before [addBudgetItem], [updateBudgetItem],
    [deleteBudgetItem], [hardDeleteBudgetItem] or [markItemsAsSynced], no
    two rows share an id afterwards; in particular an [updateBudgetItem]
    whose partial argument carries another id does not rename the row. *)
Theorem budgetDb_keeps_primary_key (w : World) :
  List.NoDup (map BudgetItem.id (budgetItems w)) ->
  (forall item,
     List.NoDup (map BudgetItem.id (budgetItems (exec (addBudgetItem item) w))))
  /\ (forall id updates,
       List.NoDup (map BudgetItem.id (budgetItems (exec (updateBudgetItem id updates) w)))
       /\ map BudgetItem.id (budgetItems (exec (updateBudgetItem id updates) w))
          = map BudgetItem.id (budgetItems w))
  /\ (forall id,
       List.NoDup (map BudgetItem.id (budgetItems (exec (deleteBudgetItem id) w))))
  /\ (forall id,
       List.NoDup (map BudgetItem.id (budgetItems (exec (hardDeleteBudgetItem id) w))))
  /\ (forall ids,
       List.NoDup (map BudgetItem.id (budgetItems (exec (markItemsAsSynced ids) w)))).
Proof.
  intros Hnd. split; [|split; [|split; [|split]]].
  - intros item.
    change (budgetItems (exec (addBudgetItem item) w))
      with (insertOrReplace BudgetItem.id (eval (addBudgetItem item) w) (budgetItems w)).
    by apply insertOrReplace_primary_key.
  - intros id updates. split; [by apply updateBudgetItem_primary_key|].
    apply updateBudgetItem_ids.
  - intros id. unfold exec. rewrite deleteBudgetItem_run. cbn [snd].
    by apply updateBudgetItem_primary_key.
  - intros id. by apply deleteById_primary_key.
  - intros ids. by apply markItemsAsSynced_primary_key.
Qed.

(** The unsynced rows after one iteration of [markItemsAsSynced]. *)
Lemma markItemsAsSynced_one_unsynced (id : string) (w : World) :
  eval getUnsyncedItems (exec (markItemsAsSynced [id]) w) =
  List.filter (fun r => negb (String.eqb (BudgetItem.id r) id)) (eval getUnsyncedItems w).
Proof.
  rewrite markItemsAsSynced_one. unfold eval, getUnsyncedItems, gets. cbn [fst].
  destruct (selectById BudgetItem.id id (budgetItems w)) as [|item rest] eqn:Hsel.
  - rewrite filter_filter_comm.
    fold (deleteById BudgetItem.id id (budgetItems w)).
    by rewrite (deleteById_absent _ _ _ Hsel).
  - destruct (selectById_key _ _ _ _ _ Hsel) as [Hk Hin].
    destruct (BudgetItem.deleted item); cbn [budgetItems set_budgetItems].
    + unfold deleteById. apply filter_filter_comm.
    + unfold insertOrReplace. cbn [BudgetItem.id with_synced].
      rewrite (existsb_key_In BudgetItem.id (BudgetItem.id item) _ item Hin eq_refl).
      rewrite Hk. clear Hsel Hin.
      induction (budgetItems w) as [|x t IH]; [reflexivity|].
      cbn [map List.filter].
      destruct (String.eqb (BudgetItem.id x) id) eqn:Ex.
      * cbn [BudgetItem.synced negb]. rewrite IH.
        destruct (negb (BudgetItem.synced x)); [|reflexivity].
        cbn [List.filter]. by rewrite Ex.
      * rewrite IH. destruct (negb (BudgetItem.synced x)); [|reflexivity].
        cbn [List.filter]. by rewrite Ex.
Qed.

Lemma markItemsAsSynced_unsynced (ids : list string) :
  forall w,
    eval getUnsyncedItems (exec (markItemsAsSynced ids) w) =
    List.filter (fun r => notListed ids (BudgetItem.id r)) (eval getUnsyncedItems w).
Proof.
  induction ids as [|id ids IH]; intros w.
  - change (exec (markItemsAsSynced []) w) with w.
    symmetry. unfold notListed. cbn [existsb negb].
    induction (eval getUnsyncedItems w) as [|x l IHl]; [reflexivity|].
    cbn [List.filter]. by rewrite IHl.
  - rewrite markItemsAsSynced_cons, IH, markItemsAsSynced_one_unsynced, filter_filter_andb.
    apply List.filter_ext. intros r. unfold notListed. cbn [existsb].
    rewrite (String.eqb_sym (BudgetItem.id r) id).
    by destruct (String.eqb id (BudgetItem.id r)).
Qed.

Lemma markItemsAsSynced_frame (ids : list string) :
  forall w,
    exec (markItemsAsSynced ids) w =
    set_budgetItems (budgetItems (exec (markItemsAsSynced ids) w)) w.
Proof.
  induction ids as [|id ids IH]; intros w.
  - symmetry. apply set_budgetItems_same.
  - rewrite markItemsAsSynced_cons. rewrite IH at 1. rewrite markItemsAsSynced_one.
    destruct (selectById BudgetItem.id id (budgetItems w)) as [|item rest];
      [reflexivity|].
    by destruct (BudgetItem.deleted item).
Qed.

(** A row of the table after [markItemsAsSynced] is a row of the table
    before, possibly with [synced] set. *)
Lemma markItemsAsSynced_rows (ids : list string) :
  forall w r,
    In r (budgetItems (exec (markItemsAsSynced ids) w)) ->
    exists r0, In r0 (budgetItems w) /\ (r = r0 \/ r = with_synced true r0).
Proof.
  induction ids as [|id ids IH]; intros w r Hin.
  - exists r. split; [exact Hin | by left].
  - rewrite markItemsAsSynced_cons in Hin.
    apply IH in Hin as (r1 & Hin1 & Hr).
    assert (Hstep : exists r0, In r0 (budgetItems w) /\ (r1 = r0 \/ r1 = with_synced true r0)).
    { rewrite markItemsAsSynced_one in Hin1.
      destruct (selectById BudgetItem.id id (budgetItems w)) as [|item rest] eqn:Hsel.
      - exists r1. split; [assumption | by left].
      - destruct (selectById_key _ _ _ _ _ Hsel) as [Hk Hitem].
        destruct (BudgetItem.deleted item); cbn [budgetItems set_budgetItems] in Hin1.
        + apply In_deleteById in Hin1 as [Hin1 _]. exists r1. split; [assumption | by left].
        + unfold insertOrReplace in Hin1. cbn [BudgetItem.id with_synced] in Hin1.
          rewrite (existsb_key_In BudgetItem.id _ _ item Hitem eq_refl) in Hin1.
          apply in_map_iff in Hin1 as (x & Hx & Hin1).
          destruct (String.eqb (BudgetItem.id x) (BudgetItem.id item)); subst r1.
          * exists item. split; [assumption | by right].
          * exists x. split; [assumption | by left]. }
    destruct Hstep as (r0 & Hin0 & Hr1). exists r0. split; [assumption|].
    destruct Hr as [-> | ->], Hr1 as [-> | ->]; auto.
Qed.

(** X11. [markItemsAsSynced] takes exactly the listed ids out of the
    unsynced set: the unsynced rows afterwards are the unsynced rows before
    whose id is not listed, in the same order.  Every row afterwards is a row
    from before, at most with [synced] set, and nothing but the table of
    budget items changes. *)
Theorem markItemsAsSynced_clears_listed (ids : list string) (w : World) :
  let w' := exec (markItemsAsSynced ids) w in
  eval getUnsyncedItems w' =
    List.filter (fun r => notListed ids (BudgetItem.id r)) (eval getUnsyncedItems w)
  /\ (forall r, In r (eval getUnsyncedItems w') -> ~ In (BudgetItem.id r) ids)
  /\ (forall r, In r (budgetItems w') ->
        exists r0, In r0 (budgetItems w) /\ (r = r0 \/ r = with_synced true r0))
  /\ w' = set_budgetItems (budgetItems w') w.
Proof.
  intros w'. subst w'.
  split; [apply markItemsAsSynced_unsynced|].
  split; [|split; [apply markItemsAsSynced_rows | apply markItemsAsSynced_frame]].
  intros r Hin Hlisted. rewrite markItemsAsSynced_unsynced in Hin.
  apply filter_In in Hin as [_ Hnot]. unfold notListed in Hnot.
  apply negb_true_iff in Hnot.
  assert (Hex : existsb (String.eqb (BudgetItem.id r)) ids = true).
  { apply existsb_exists. exists (BudgetItem.id r). split; [assumption|].
    apply String.eqb_refl. }
  congruence.
Qed.

End BudgetDbExtras.

(** ** More about the sync pass *)

Section SyncExtras.
Context `{Host}.

(** The two lists that the loop of [syncItemsToServer] fills. *)
Lemma checkItems_cons (serverItems : gmap string ServerBudgetItem.t)
    (x : BudgetItem.t) (items : list BudgetItem.t) :
  checkItems serverItems (x :: items) =
  match serverItems !! BudgetItem.id x with
  | Some serverItem =>
      match detectConflict x serverItem with
      | Some c => (c :: fst (checkItems serverItems items), snd (checkItems serverItems items))
      | None => (fst (checkItems serverItems items), x :: snd (checkItems serverItems items))
      end
  | None => (fst (checkItems serverItems items), x :: snd (checkItems serverItems items))
  end.
Proof.
  cbn [checkItems]. destruct (checkItems serverItems items) as [cs safe]. cbn [fst snd].
  destruct (serverItems !! BudgetItem.id x) as [sv|]; [|reflexivity].
  by destruct (detectConflict x sv).
Qed.

Lemma checkItems_no_conflict (serverItems : gmap string ServerBudgetItem.t)
    (items : list BudgetItem.t) :
  (forall x, In x items -> noConflictFor serverItems x) ->
  checkItems serverItems items = ([], items).
Proof.
  induction items as [|x items IH]; intros Hall; [reflexivity|].
  rewrite checkItems_cons, IH by (intros y Hy; apply Hall; by right).
  cbn [fst snd]. pose proof (Hall x (or_introl eq_refl)) as Hx.
  unfold noConflictFor in Hx.
  destruct (serverItems !! BudgetItem.id x) as [sv|]; [|reflexivity].
  by rewrite Hx.
Qed.

(** X12. The loop of [syncItemsToServer] splits the candidates in two: each
    candidate either yields one conflict or is safe to push, never both;
    the safe ones are exactly the candidates for which nothing is detected,
    in their original order, and when no conflict is found every candidate
    is safe. *)
Theorem checkItems_partition (serverItems : gmap string ServerBudgetItem.t)
    (items : list BudgetItem.t) :
  let found := fst (checkItems serverItems items) in
  let safe := snd (checkItems serverItems items) in
  Permutation items (map localItem found ++ safe)
  /\ sublist safe items
  /\ (forall x, In x safe <-> In x items /\ noConflictFor serverItems x)
  /\ (found = [] -> safe = items).
Proof.
  cbv zeta. induction items as [|x items (IHp & IHs & IHi & IHe)].
  - cbn. split; [constructor|]. split; [constructor|]. split; [intros y; tauto | reflexivity].
  - rewrite checkItems_cons. unfold noConflictFor in *.
    destruct (serverItems !! BudgetItem.id x) as [sv|] eqn:Hlook.
    + destruct (detectConflict x sv) as [c|] eqn:Hdet; cbn [fst snd map app].
      * destruct (detectConflict_Some x sv c Hdet) as [H1 | [H1 | H1]];
          destruct H1 as (-> & _); cbn [localItem].
        all: split; [by constructor|].
        all: split; [by apply sublist_cons|].
        all: split; [|discriminate].
        all: intros y; rewrite IHi; split;
          [ intros [Hin Hno]; split; [by right | assumption]
          | intros [[<- | Hin] Hno]; [rewrite Hlook, Hdet in Hno; discriminate | by split] ].
      * split; [rewrite IHp at 1; apply Permutation_middle|].
        split; [by apply sublist_skip|].
        split.
        -- intros y. cbn [In]. rewrite IHi. split.
           ++ intros [<- | [Hin Hno]]; [split; [by left | by rewrite Hlook] | tauto].
           ++ intros [[<- | Hin] Hno]; [by left | right; by split].
        -- intros Hnil. f_equal. by apply IHe.
    + cbn [fst snd]. split; [rewrite IHp at 1; apply Permutation_middle|].
      split; [by apply sublist_skip|].
      split.
      * intros y. cbn [In]. rewrite IHi. split.
        -- intros [<- | [Hin Hno]]; [split; [by left | by rewrite Hlook] | tauto].
        -- intros [[<- | Hin] Hno]; [by left | right; by split].
      * intros Hnil. f_equal. by apply IHe.
Qed.

Lemma serverItemsMap_foldl (items : list ServerBudgetItem.t) :
  forall (m : gmap string ServerBudgetItem.t) (k : string),
    foldl (fun m item => <[ServerBudgetItem.id item := item]> m) m items !! k =
    match last (List.filter (fun s => String.eqb (ServerBudgetItem.id s) k) items) with
    | Some s => Some s
    | None => m !! k
    end.
Proof.
  induction items as [|x items IH]; intros m k; [reflexivity|].
  cbn [foldl List.filter]. rewrite IH.
  destruct (String.eqb (ServerBudgetItem.id x) k) eqn:Ex.
  - apply String.eqb_eq in Ex.
    destruct (List.filter (fun s => String.eqb (ServerBudgetItem.id s) k) items)
      as [|y rest] eqn:Hf.
    + cbn. rewrite Ex. apply lookup_insert_eq.
    + rewrite last_cons_cons. destruct (last (y :: rest)) eqn:Hl; [reflexivity|].
      apply last_None in Hl. discriminate.
  - apply String.eqb_neq in Ex.
    destruct (last (List.filter (fun s => String.eqb (ServerBudgetItem.id s) k) items));
      [reflexivity|].
    by apply lookup_insert_ne.
Qed.

(** X13. The map of server counterparts built from the response holds, for
    each id, the last item of the response with that id (a later duplicate
    overrides an earlier one), and nothing for an id the response does not
    mention; what it holds for an id always has that id. *)
Theorem serverItemsMap_lookup (items : list ServerBudgetItem.t) (k : string) :
  serverItemsMap items !! k
  = last (List.filter (fun s => String.eqb (ServerBudgetItem.id s) k) items)
  /\ (~ In k (map ServerBudgetItem.id items) -> serverItemsMap items !! k = None)
  /\ (forall s, serverItemsMap items !! k = Some s ->
        ServerBudgetItem.id s = k /\ In s items).
Proof.
  assert (Hlook : serverItemsMap items !! k
            = last (List.filter (fun s => String.eqb (ServerBudgetItem.id s) k) items)).
  { unfold serverItemsMap. rewrite serverItemsMap_foldl.
    destruct (last _); [reflexivity | apply lookup_empty]. }
  split; [exact Hlook|]. split.
  - intros Hnot. rewrite Hlook.
    destruct (List.filter (fun s => String.eqb (ServerBudgetItem.id s) k) items)
      as [|y rest] eqn:Hf; [reflexivity|].
    exfalso. apply Hnot.
    assert (Hy : In y (List.filter (fun s => String.eqb (ServerBudgetItem.id s) k) items))
      by (rewrite Hf; by left).
    apply filter_In in Hy as [Hy Hk]. apply String.eqb_eq in Hk.
    rewrite <- Hk. by apply in_map.
  - intros s Hs. rewrite Hlook in Hs.
    apply last_Some in Hs as [l' Hl'].
    assert (Hin : In s (List.filter (fun s => String.eqb (ServerBudgetItem.id s) k) items)).
    { rewrite Hl'. apply in_app_iff. right. by left. }
    apply filter_In in Hin as [Hin Hk]. apply String.eqb_eq in Hk. by split.
Qed.

(** [syncItemsToServer], one outcome at a time. *)
Lemma syncItemsToServer_run (items : list BudgetItem.t) (w : World) :
  let serverItems := eval (fetchServerItems (map BudgetItem.id items)) w in
  let w1 := set_reads (S (reads w)) w in
  let found := fst (checkItems serverItems items) in
  let safe := snd (checkItems serverItems items) in
  let failure message :=
    mkSyncResult false [] (map BudgetItem.id items) [] (Some message) in
  syncItemsToServer items w =
  if (0 <? length found)%nat then
    (mkSyncResult false [] [] found
       (Some (pretty (length found) +:+ " conflict(s) detected. Please resolve them.")),
     w1)
  else if (length safe =? 0)%nat then (mkSyncResult true [] [] [] None, w1)
  else
    match payload safe with
    | None => (failure "Invalid time value", w1)
    | Some body =>
        (match postBudgetSync (S (reads w)) body with
         | PostThrows message => failure (default "Sync failed" message)
         | PostNotOk detail status =>
             failure (default ("Server returned " +:+ pretty status) (truthy detail))
         | PostOk syncedIds failedIds =>
             mkSyncResult true (default (map BudgetItem.id safe) syncedIds)
               (default [] failedIds) [] None
         end,
         set_posted (posted w ++ [body]) (set_reads (S (S (reads w))) w))
    end.
Proof.
  cbv zeta. unfold syncItemsToServer, bind, eval, fetchServerItems. cbn [fst].
  destruct (checkItems _ items) as [found safe]. cbn [fst snd].
  destruct (0 <? length found)%nat; [reflexivity|].
  destruct (length safe =? 0)%nat; [reflexivity|].
  destruct (payload safe) as [body|]; [|reflexivity].
  unfold postSync. cbn [reads set_reads posted].
  by destruct (postBudgetSync (S (reads w)) body).
Qed.

(** [triggerSync] once the guards have let the pass through. *)
Lemma triggerSync_admitted (w : World) :
  admitted w ->
  let candidates := eval getUnsyncedItems w in
  triggerSync w =
  if (length candidates =? 0)%nat then
    (mkSyncResult true [] [] [] None,
     releaseGuards
       (set_lastSyncTime (Some (Instant (wallClock (reads w))))
          (set_reads (S (reads w)) (takeGuards w))))
  else
    let result := eval (syncItemsToServer candidates) (takeGuards w) in
    let w2 := exec (syncItemsToServer candidates) (takeGuards w) in
    if (0 <? length (resultConflicts result))%nat then
      (result, releaseGuards (set_conflicts (resultConflicts result) w2))
    else if success result && (0 <? length (syncedIds result))%nat then
      let w3 := exec (markItemsAsSynced (syncedIds result)) w2 in
      let w4 :=
        set_lastSyncTime (Some (Instant (wallClock (reads w3)))) (set_reads (S (reads w3)) w3) in
      (result, releaseGuards (set_unsyncedCount (length (eval getUnsyncedItems w4)) w4))
    else
      match truthy (error result) with
      | Some message => (result, releaseGuards (set_syncError (Some message) w2))
      | None => (result, releaseGuards w2)
      end.
Proof.
  intros (Hprog & Hsync & Honline) candidates.
  unfold triggerSync, bind, gets, modify. cbv beta iota.
  rewrite Hprog, Hsync. cbn [orb]. cbv beta iota.
  rewrite Honline. cbn [negb]. cbv beta iota. fold (takeGuards w).
  change (getUnsyncedItems (takeGuards w)) with (candidates, takeGuards w).
  cbv beta iota.
  destruct (length candidates =? 0)%nat; [reflexivity|].
  unfold eval, exec.
  destruct (syncItemsToServer candidates (takeGuards w)) as [result w2]. cbn [fst snd].
  destruct (0 <? length (resultConflicts result))%nat; [reflexivity|].
  destruct (success result && (0 <? length (syncedIds result))%nat).
  - destruct (markItemsAsSynced (syncedIds result) w2) as [[] w3]. cbn [snd].
    unfold newDate, updateUnsyncedCount, bind, getUnsyncedItems, gets, modify, ret.
    reflexivity.
  - by destruct (truthy (error result)).
Qed.

Lemma syncItemsToServer_safe (items : list BudgetItem.t) (w : World) :
  items <> [] ->
  (forall x, In x items ->
     noConflictFor (eval (fetchServerItems (map BudgetItem.id items)) w) x) ->
  let failure message :=
    mkSyncResult false [] (map BudgetItem.id items) [] (Some message) in
  syncItemsToServer items w =
  match payload items with
  | None => (failure "Invalid time value", set_reads (S (reads w)) w)
  | Some body =>
      (match postBudgetSync (S (reads w)) body with
       | PostThrows message => failure (default "Sync failed" message)
       | PostNotOk detail status =>
           failure (default ("Server returned " +:+ pretty status) (truthy detail))
       | PostOk syncedIds failedIds =>
           mkSyncResult true (default (map BudgetItem.id items) syncedIds)
             (default [] failedIds) [] None
       end,
       set_posted (posted w ++ [body]) (set_reads (S (S (reads w))) w))
  end.
Proof.
  intros Hne Hall. cbv zeta. rewrite syncItemsToServer_run. cbv zeta.
  rewrite (checkItems_no_conflict _ _ Hall). cbn [fst snd length Nat.ltb Nat.leb].
  destruct items as [|x items]; [congruence|]. reflexivity.
Qed.

(** [syncItemsToServer] changes nothing but the oracle counter and the
    log of POSTed bodies, to which it adds at most one. *)
Lemma syncItemsToServer_frame (items : list BudgetItem.t) (w : World) :
  let w2 := exec (syncItemsToServer items) w in
  (w2 = set_reads (S (reads w)) w
   \/ exists body,
        w2 = set_posted (posted w ++ [body]) (set_reads (S (S (reads w))) w)).
Proof.
  cbv zeta. unfold exec. rewrite syncItemsToServer_run. cbv zeta.
  destruct (0 <? length _)%nat; [by left|].
  destruct (length _ =? 0)%nat; [by left|].
  destruct (payload _) as [body|]; [|by left].
  right. by exists body.
Qed.

Lemma payload_invalid (items : list BudgetItem.t) (x : BudgetItem.t) :
  In x items -> payloadItem x = None -> payload items = None.
Proof.
  induction items as [|y items IH]; [intros []|].
  intros [-> | Hin] Hx; cbn [payload].
  - by rewrite Hx.
  - rewrite (IH Hin Hx). by destruct (payloadItem y).
Qed.

Lemma filter_notListed_all (ids : list string) (l : list BudgetItem.t) :
  (forall r, In r l -> In (BudgetItem.id r) ids) ->
  List.filter (fun r => notListed ids (BudgetItem.id r)) l = [].
Proof.
  induction l as [|x l IH]; intros Hall; [reflexivity|].
  cbn [List.filter]. unfold notListed at 1.
  assert (Hex : existsb (String.eqb (BudgetItem.id x)) ids = true).
  { apply existsb_exists. exists (BudgetItem.id x).
    split; [apply Hall; by left | apply String.eqb_refl]. }
  rewrite Hex. cbn [negb]. apply IH. intros r Hr. apply Hall. by right.
Qed.

(** X14. A pass that is not admitted changes nothing and says why: with a
    pass in progress it returns "Sync already in progress", offline it
    returns "No internet connection".  A pass that is admitted always ends
    with both guards released, whatever happened in between. *)
Theorem triggerSync_guards (w : World) :
  (syncInProgress w = true \/ isSyncing w = true ->
     triggerSync w =
       (mkSyncResult false [] [] [] (Some "Sync already in progress"), w))
  /\ (syncInProgress w = false -> isSyncing w = false -> online w = false ->
      triggerSync w = (mkSyncResult false [] [] [] (Some "No internet connection"), w))
  /\ (admitted w ->
      syncInProgress (exec triggerSync w) = false
      /\ isSyncing (exec triggerSync w) = false).
Proof.
  split; [|split].
  - intros Hbusy. unfold triggerSync, bind, gets. cbv beta iota.
    destruct Hbusy as [-> | ->]; [reflexivity|].
    by rewrite orb_true_r.
  - intros Hp Hs Ho. unfold triggerSync, bind, gets. cbv beta iota.
    rewrite Hp, Hs. cbn [orb]. cbv beta iota. by rewrite Ho.
  - intros Hadm. unfold exec. rewrite (triggerSync_admitted w Hadm). cbv zeta.
    destruct (length _ =? 0)%nat; [by split|].
    destruct (0 <? length _)%nat; [by split|].
    destruct (_ && _); [by split|].
    destruct (truthy _); by split.
Qed.

(** X15. An admitted pass that finds no unsynced row talks to nobody: it
    reads the clock once, records that time as the last sync, clears the
    sync error and reports success with empty lists; tables, pending
    conflicts and the log of requests stay as they were. *)
Theorem triggerSync_nothing_to_sync (w : World) :
  admitted w ->
  eval getUnsyncedItems w = [] ->
  triggerSync w =
    (mkSyncResult true [] [] [] None,
     set_lastSyncTime (Some (Instant (wallClock (reads w))))
       (set_syncError None (set_reads (S (reads w)) w))).
Proof.
  intros Hadm Hnone. rewrite (triggerSync_admitted w Hadm). cbv zeta.
  rewrite Hnone. cbn [length Nat.eqb]. f_equal.
  destruct Hadm as (Hp & Hs & _). destruct w. cbn in *. by subst.
Qed.


Lemma triggerSync_unsuccessful (w : World) :
  admitted w ->
  let candidates := eval getUnsyncedItems w in
  let result := eval (syncItemsToServer candidates) (takeGuards w) in
  let w2 := exec (syncItemsToServer candidates) (takeGuards w) in
  candidates <> [] -> resultConflicts result = [] -> success result = false ->
  triggerSync w =
    (result,
     releaseGuards
       match truthy (error result) with
       | Some message => set_syncError (Some message) w2
       | None => w2
       end).
Proof.
  intros Hadm candidates result w2 Hne Hconf Hfail.
  assert (Hlen : (length candidates =? 0)%nat = false)
    by (destruct candidates; [congruence | reflexivity]).
  rewrite (triggerSync_admitted w Hadm). cbv zeta. fold candidates result w2.
  rewrite Hlen, Hconf, Hfail. cbn [length Nat.ltb Nat.leb andb].
  by destruct (truthy (error result)).
Qed.

(** X17. When the POST of an admitted, conflict-free pass throws or is
    answered with an error status, the pass fails without touching the
    table: every candidate is still unsynced and is reported as failed, the
    error message becomes the sync error, and neither the time of the last
    sync nor the pending conflicts change. *)
Theorem triggerSync_failed_push_keeps_items (w : World) (body : list SyncPayloadItem.t) :
  admitted w ->
  let candidates := eval getUnsyncedItems w in
  let serverItems := eval (fetchServerItems (map BudgetItem.id candidates)) w in
  candidates <> [] ->
  (forall x, In x candidates -> noConflictFor serverItems x) ->
  payload candidates = Some body ->
  (forall named failed, postBudgetSync (S (reads w)) body <> PostOk named failed) ->
  let result := eval triggerSync w in
  let w' := exec triggerSync w in
  success result = false
  /\ syncedIds result = []
  /\ failedIds result = map BudgetItem.id candidates
  /\ (exists message, error result = Some message)
  /\ syncError w' = truthy (error result)
  /\ posted w' = (posted w ++ [body])%list
  /\ budgetItems w' = budgetItems w
  /\ eval getUnsyncedItems w' = candidates
  /\ lastSyncTime w' = lastSyncTime w
  /\ conflicts w' = conflicts w.
Proof.
  intros Hadm candidates serverItems Hne Hsafe Hbody Hpost result w'.
  pose proof (syncItemsToServer_safe candidates (takeGuards w) Hne Hsafe) as Hsync.
  cbv zeta in Hsync. rewrite Hbody in Hsync.
  change (reads (takeGuards w)) with (reads w) in Hsync.
  change (posted (takeGuards w)) with (posted w) in Hsync.
  pose proof (triggerSync_unsuccessful w Hadm Hne) as Hrun. cbv zeta in Hrun.
  fold candidates in Hrun. unfold eval at 1 2 3 4, exec in Hrun. rewrite Hsync in Hrun.
  cbn [fst snd] in Hrun.
  destruct (postBudgetSync (S (reads w)) body) as [message | detail status | named failed]
    eqn:Hresp.
  - specialize (Hrun eq_refl eq_refl). subst result w'. unfold eval, exec.
    rewrite Hrun. cbn [fst snd success syncedIds failedIds error].
    repeat (split; [reflexivity|]). split; [by eexists|].
    destruct (truthy (Some (default "Sync failed" message))); repeat split.
  - specialize (Hrun eq_refl eq_refl). subst result w'. unfold eval, exec.
    rewrite Hrun. cbn [fst snd success syncedIds failedIds error].
    repeat (split; [reflexivity|]). split; [by eexists|].
    destruct (truthy (Some (default ("Server returned " +:+ pretty status) (truthy detail))));
      repeat split.
  - by destruct (Hpost named failed).
Qed.

(** X18. One candidate with an invalid [date], [updatedAt] or [createdAt]
    blocks the whole batch of an admitted, conflict-free pass: nothing is
    POSTed, no row changes, and every candidate, valid or not, is reported
    as failed. *)
Theorem triggerSync_invalid_date_blocks_batch (w : World) (x : BudgetItem.t) :
  admitted w ->
  let candidates := eval getUnsyncedItems w in
  let serverItems := eval (fetchServerItems (map BudgetItem.id candidates)) w in
  (forall y, In y candidates -> noConflictFor serverItems y) ->
  In x candidates ->
  BudgetItem.date x = InvalidDate \/ BudgetItem.updatedAt x = InvalidDate
    \/ BudgetItem.createdAt x = InvalidDate ->
  let result := eval triggerSync w in
  let w' := exec triggerSync w in
  success result = false
  /\ syncedIds result = []
  /\ failedIds result = map BudgetItem.id candidates
  /\ posted w' = posted w
  /\ budgetItems w' = budgetItems w
  /\ eval getUnsyncedItems w' = candidates.
Proof.
  intros Hadm candidates serverItems Hsafe Hin Hinv result w'.
  assert (Hne : candidates <> []) by (intros Hnil; rewrite Hnil in Hin; destruct Hin).
  assert (Hx : payloadItem x = None).
  { unfold payloadItem. destruct Hinv as [-> | [-> | ->]]; cbn [toISOString];
      [reflexivity | |].
    - by destruct (toISOString (BudgetItem.date x)).
    - by destruct (toISOString (BudgetItem.date x)),
           (toISOString (BudgetItem.updatedAt x)). }
  pose proof (syncItemsToServer_safe candidates (takeGuards w) Hne Hsafe) as Hsync.
  cbv zeta in Hsync. rewrite (payload_invalid _ _ Hin Hx) in Hsync.
  pose proof (triggerSync_unsuccessful w Hadm Hne) as Hrun. cbv zeta in Hrun.
  fold candidates in Hrun. unfold eval at 1 2 3 4, exec in Hrun. rewrite Hsync in Hrun.
  cbn [fst snd] in Hrun. specialize (Hrun eq_refl eq_refl).
  subst result w'. unfold eval, exec. rewrite Hrun. repeat split.
Qed.

Lemma triggerSync_refused (w : World) :
  syncInProgress w = true \/ isSyncing w = true \/ online w = false ->
  exec triggerSync w = w.
Proof.
  intros Hwhy. unfold exec, triggerSync, bind, gets. cbv beta iota.
  destruct (syncInProgress w); [reflexivity|].
  destruct (isSyncing w); [reflexivity|]. cbn [orb]. cbv beta iota.
  destruct (online w); [|reflexivity].
  destruct Hwhy as [? | [? | ?]]; discriminate.
Qed.

(** X19. Whatever the server answers, a sync pass never edits the content
    of a row and never creates one: every row after the pass is a row from
    before, at most with [synced] set; the primary key stays unique; at most
    one request body is POSTed; and the mutation outbox, its replay log and
    its guard are not touched. *)
Theorem triggerSync_never_rewrites (w : World) :
  let w' := exec triggerSync w in
  (forall r, In r (budgetItems w') ->
     exists r0, In r0 (budgetItems w) /\ (r = r0 \/ r = with_synced true r0))
  /\ (List.NoDup (map BudgetItem.id (budgetItems w)) ->
      List.NoDup (map BudgetItem.id (budgetItems w')))
  /\ (posted w' = posted w \/ exists body, posted w' = (posted w ++ [body])%list)
  /\ mutationQueue w' = mutationQueue w
  /\ invoked w' = invoked w
  /\ outboxSyncing w' = outboxSyncing w.
Proof.
  intros w'. subst w'.
  destruct (syncInProgress w) eqn:Hp;
    [rewrite triggerSync_refused by tauto; repeat split; eauto|].
  destruct (isSyncing w) eqn:Hs;
    [rewrite triggerSync_refused by tauto; repeat split; eauto|].
  destruct (online w) eqn:Ho;
    [|rewrite triggerSync_refused by tauto; repeat split; eauto].
  assert (Hadm : admitted w) by (by repeat split).
  unfold exec at 1 2 3 4 5 6 7. rewrite (triggerSync_admitted w Hadm). cbv zeta.
  destruct (length (eval getUnsyncedItems w) =? 0)%nat.
  { cbn. repeat split; eauto. }
  set (w2 := exec (syncItemsToServer (eval getUnsyncedItems w)) (takeGuards w)).
  assert (Hw2 : budgetItems w2 = budgetItems w
                /\ (posted w2 = posted w \/ exists body, posted w2 = (posted w ++ [body])%list)
                /\ mutationQueue w2 = mutationQueue w
                /\ invoked w2 = invoked w
                /\ outboxSyncing w2 = outboxSyncing w).
  { destruct (syncItemsToServer_frame (eval getUnsyncedItems w) (takeGuards w))
      as [Hw2 | [body Hw2]]; fold w2 in Hw2; rewrite Hw2; cbn; repeat split; eauto. }
  destruct Hw2 as (Hb & Hposted & Hq & Hi & Ho2).
  destruct (0 <? length _)%nat.
  { cbn. rewrite Hb, Hq, Hi, Ho2. repeat split; eauto. }
  destruct (_ && _).
  - set (ids := syncedIds (eval (syncItemsToServer (eval getUnsyncedItems w)) (takeGuards w))).
    pose proof (markItemsAsSynced_frame ids w2) as Hf.
    pose proof (markItemsAsSynced_rows ids w2) as Hrows.
    pose proof (markItemsAsSynced_primary_key ids w2) as Hpk.
    rewrite Hb in Hrows, Hpk.
    set (w3 := exec (markItemsAsSynced ids) w2) in *.
    cbn. split; [exact Hrows|]. split; [exact Hpk|].
    rewrite Hf. cbn. rewrite Hq, Hi, Ho2. repeat split; eauto.
  - destruct (truthy _); cbn; rewrite Hb, Hq, Hi, Ho2; repeat split; eauto.
Qed.

End SyncExtras.

(** ** Loops *)

Lemma forOf_app {A : Type} (body : A -> M unit) (l1 l2 : list A) (w : World) :
  exec (forOf body (l1 ++ l2)) w = exec (forOf body l2) (exec (forOf body l1) w).
Proof.
  revert w. induction l1 as [|x l1 IH]; intros w; [reflexivity|].
  cbn [app forOf]. unfold exec, bind in *. destruct (body x w) as [[] w1].
  apply IH.
Qed.

Lemma forOf_cons {A : Type} (body : A -> M unit) (x : A) (l : list A) (w : World) :
  exec (forOf body (x :: l)) w = exec (forOf body l) (exec (body x) w).
Proof. cbn [forOf]. unfold exec, bind. by destruct (body x w) as [[] w1]. Qed.

(** A reflexive and transitive relation that every iteration establishes
    holds across the whole loop. *)
Lemma forOf_invariant {A : Type} (P : World -> World -> Prop) (body : A -> M unit) :
  (forall w, P w w) ->
  (forall w1 w2 w3, P w1 w2 -> P w2 w3 -> P w1 w3) ->
  (forall x w, P w (exec (body x) w)) ->
  forall l w, P w (exec (forOf body l) w).
Proof.
  intros Hrefl Htrans Hstep l. induction l as [|x l IH]; intros w; [apply Hrefl|].
  rewrite forOf_cons. eapply Htrans; [apply Hstep | apply IH].
Qed.

Lemma onlyStoreAndClock_refl (w : World) : onlyStoreAndClock w w.
Proof. unfold onlyStoreAndClock. by destruct w. Qed.

Lemma onlyStoreAndClock_trans (w1 w2 w3 : World) :
  onlyStoreAndClock w1 w2 -> onlyStoreAndClock w2 w3 -> onlyStoreAndClock w1 w3.
Proof. unfold onlyStoreAndClock. intros H12 H23. rewrite H23, H12. reflexivity. Qed.

(** ** More about the resolution of conflicts *)

Lemma forOf_single {A : Type} (body : A -> M unit) (x : A) (w : World) :
  exec (forOf body [x]) w = exec (body x) w.
Proof. rewrite forOf_cons. reflexivity. Qed.

Lemma selectById_nil_deleteById {Row : Type} (key : Row -> string) (k k' : string)
    (t : list Row) :
  selectById key k t = [] -> selectById key k (deleteById key k' t) = [].
Proof.
  intros Hnil. destruct (selectById key k (deleteById key k' t)) as [|r rest] eqn:E;
    [reflexivity|].
  assert (Hin : In r (selectById key k (deleteById key k' t))) by (rewrite E; by left).
  apply In_selectById in Hin as [Hin Hk]. apply In_deleteById in Hin as [Hin _].
  assert (Hr : In r (selectById key k t)) by (by apply In_selectById).
  rewrite Hnil in Hr. destruct Hr.
Qed.

Section ResolutionExtras.
Context `{Host}.

(** The body of the loop of [resolveConflicts]. *)
Local Abbreviation resolveStep :=
  (fun resolved : ResolvedConflict =>
     let! finalItem := applyResolutionNow resolved in
     if isKeepServer (resolution resolved)
        && ServerBudgetItem.deleted (serverItem (conflict resolved))
     then hardDeleteBudgetItem (BudgetItem.id (localItem (conflict resolved)))
     else
       do! updateBudgetItem (BudgetItem.id (localItem (conflict resolved)))
             (resolvedFields finalItem) in
       ret tt).

Lemma applyResolutionNow_run (resolved : ResolvedConflict) (w : World) :
  exists n,
    applyResolutionNow resolved w = (eval (applyResolutionNow resolved) w, set_reads n w).
Proof.
  unfold applyResolutionNow, eval.
  destruct (resolution resolved), (mergedItem resolved);
    first [ exists (reads w); by destruct w | exists (S (reads w)); reflexivity ].
Qed.

(** One iteration of the loop of [resolveConflicts]. *)
Lemma resolveStep_run (resolved : ResolvedConflict) (w : World) :
  exists n,
    exec (resolveStep resolved) w =
    if removesLocal resolved
    then exec (hardDeleteBudgetItem (BudgetItem.id (localItem (conflict resolved))))
           (set_reads n w)
    else exec (updateBudgetItem (BudgetItem.id (localItem (conflict resolved)))
                 (resolvedFields (eval (applyResolutionNow resolved) w)))
           (set_reads n w).
Proof.
  destruct (applyResolutionNow_run resolved w) as [n Hn]. exists n.
  unfold removesLocal, exec, bind. rewrite Hn.
  destruct (isKeepServer (resolution resolved)
            && ServerBudgetItem.deleted (serverItem (conflict resolved)));
    [reflexivity|].
  unfold ret. by destruct (updateBudgetItem _ _ (set_reads n w)) as [u w2].
Qed.

Lemma resolveConflicts_run (resolutions : list ResolvedConflict) (w : World) :
  exec (resolveConflicts resolutions) w =
  let w1 := exec (forOf resolveStep resolutions) w in
  set_unsyncedCount (length (eval getUnsyncedItems w1)) (set_conflicts [] w1).
Proof.
  unfold exec, resolveConflicts, bind, modify, updateUnsyncedCount, getUnsyncedItems, gets.
  by destruct (forOf _ resolutions w) as [[] w1].
Qed.

Lemma resolveStep_frame (resolved : ResolvedConflict) (w : World) :
  onlyStoreAndClock w (exec (resolveStep resolved) w).
Proof.
  destruct (resolveStep_run resolved w) as [n ->].
  destruct (removesLocal resolved).
  - unfold onlyStoreAndClock. reflexivity.
  - unfold exec.
    destruct (selectById BudgetItem.id (BudgetItem.id (localItem (conflict resolved)))
                (budgetItems (set_reads n w))) as [|existing rest] eqn:Hsel.
    + rewrite (updateBudgetItem_missing _ _ _ Hsel). unfold onlyStoreAndClock.
      cbn. by destruct w.
    + rewrite (updateBudgetItem_found _ _ _ _ _ Hsel). unfold onlyStoreAndClock.
      reflexivity.
Qed.

Lemma resolveStep_primary_key (resolved : ResolvedConflict) (w : World) :
  List.NoDup (map BudgetItem.id (budgetItems w)) ->
  List.NoDup (map BudgetItem.id (budgetItems (exec (resolveStep resolved) w))).
Proof.
  intros Hnd. destruct (resolveStep_run resolved w) as [n ->].
  destruct (removesLocal resolved).
  - by apply deleteById_primary_key.
  - by apply updateBudgetItem_primary_key.
Qed.

Lemma resolveStep_ids (resolved : ResolvedConflict) (w : World) :
  incl (map BudgetItem.id (budgetItems (exec (resolveStep resolved) w)))
    (map BudgetItem.id (budgetItems w)).
Proof.
  destruct (resolveStep_run resolved w) as [n ->].
  destruct (removesLocal resolved).
  - intros k Hk. apply in_map_iff in Hk as (r & <- & Hr).
    apply In_deleteById in Hr as [Hr _]. by apply in_map.
  - rewrite updateBudgetItem_ids. apply incl_refl.
Qed.

Lemma resolveStep_keeps_absent (k : string) (resolved : ResolvedConflict) (w : World) :
  selectById BudgetItem.id k (budgetItems w) = [] ->
  selectById BudgetItem.id k (budgetItems (exec (resolveStep resolved) w)) = [].
Proof.
  intros Habs. destruct (resolveStep_run resolved w) as [n ->].
  destruct (removesLocal resolved).
  - by apply selectById_nil_deleteById.
  - unfold exec.
    destruct (selectById BudgetItem.id (BudgetItem.id (localItem (conflict resolved)))
                (budgetItems (set_reads n w))) as [|existing rest] eqn:Hsel.
    + by rewrite (updateBudgetItem_missing _ _ _ Hsel).
    + rewrite (updateBudgetItem_found _ _ _ _ _ Hsel).
      cbn [snd budgetItems set_budgetItems set_reads].
      rewrite selectById_insertOrReplace_ne; [exact Habs|].
      cbn [BudgetItem.id]. intros ->.
      change (budgetItems (set_reads n w)) with (budgetItems w) in Hsel. congruence.
Qed.

(** X20. [resolveConflicts] ends with no pending conflict and with the
    unsynced count equal to the number of unsynced rows.  It works on the
    local table only: it sends nothing, leaves the outbox, the sync error
    and the time of the last sync alone, creates no row with a new id and
    keeps the primary key unique. *)
Theorem resolveConflicts_settles (resolutions : list ResolvedConflict) (w : World) :
  let w' := exec (resolveConflicts resolutions) w in
  conflicts w' = []
  /\ unsyncedCount w' = length (eval getUnsyncedItems w')
  /\ posted w' = posted w
  /\ mutationQueue w' = mutationQueue w
  /\ lastSyncTime w' = lastSyncTime w
  /\ syncError w' = syncError w
  /\ incl (map BudgetItem.id (budgetItems w')) (map BudgetItem.id (budgetItems w))
  /\ (List.NoDup (map BudgetItem.id (budgetItems w)) ->
      List.NoDup (map BudgetItem.id (budgetItems w'))).
Proof.
  intros w'. subst w'. rewrite resolveConflicts_run. cbv zeta.
  pose proof (forOf_invariant onlyStoreAndClock resolveStep onlyStoreAndClock_refl
                onlyStoreAndClock_trans resolveStep_frame resolutions w) as Hframe.
  pose proof (forOf_invariant
                (fun w w' => incl (map BudgetItem.id (budgetItems w'))
                               (map BudgetItem.id (budgetItems w)))
                resolveStep (fun w => incl_refl _)
                (fun w1 w2 w3 H12 H23 => incl_tran H23 H12)
                resolveStep_ids resolutions w) as Hids.
  pose proof (forOf_invariant
                (fun w w' => List.NoDup (map BudgetItem.id (budgetItems w)) ->
                             List.NoDup (map BudgetItem.id (budgetItems w')))
                resolveStep (fun w Hnd => Hnd)
                (fun w1 w2 w3 H12 H23 Hnd => H23 (H12 Hnd))
                resolveStep_primary_key resolutions w) as Hpk.
  set (w1 := exec (forOf resolveStep resolutions) w) in *.
  cbn [conflicts unsyncedCount posted mutationQueue lastSyncTime syncError budgetItems
         set_unsyncedCount set_conflicts].
  split; [reflexivity|]. split; [reflexivity|].
  unfold onlyStoreAndClock in Hframe.
  split; [by rewrite Hframe|]. split; [by rewrite Hframe|].
  split; [by rewrite Hframe|]. split; [by rewrite Hframe|].
  split; assumption.
Qed.

(** X21. A [keep_server] resolution whose server item is deleted removes
    the local row for good: after [resolveConflicts] no row has that id,
    wherever the resolution stands in the list and whatever the other
    resolutions are. *)
Theorem resolveConflicts_removes_server_deleted (resolutions : list ResolvedConflict)
    (resolved : ResolvedConflict) (w : World) :
  In resolved resolutions ->
  resolution resolved = keep_server ->
  ServerBudgetItem.deleted (serverItem (conflict resolved)) = true ->
  selectById BudgetItem.id (BudgetItem.id (localItem (conflict resolved)))
    (budgetItems (exec (resolveConflicts resolutions) w)) = [].
Proof.
  intros Hin Hres Hdel. rewrite resolveConflicts_run. cbv zeta.
  cbn [budgetItems set_unsyncedCount set_conflicts].
  apply in_split in Hin as (l1 & l2 & ->).
  rewrite forOf_app. change (resolved :: l2) with ([resolved] ++ l2)%list.
  rewrite forOf_app, forOf_single.
  apply (forOf_invariant
           (fun w w' =>
              selectById BudgetItem.id (BudgetItem.id (localItem (conflict resolved)))
                (budgetItems w) = [] ->
              selectById BudgetItem.id (BudgetItem.id (localItem (conflict resolved)))
                (budgetItems w') = [])
           resolveStep (fun w Ha => Ha) (fun w1 w2 w3 H12 H23 Ha => H23 (H12 Ha))
           (resolveStep_keeps_absent _) l2).
  destruct (resolveStep_run resolved (exec (forOf resolveStep l1) w)) as [n ->].
  unfold removesLocal. rewrite Hres, Hdel. cbn [isKeepServer andb].
  apply selectById_deleteById.
Qed.

(** X22. A resolution that does not remove the local row overwrites it with
    the content of the resolved item (category, description, amount, type,
    date and deletion flag), keeps the row's id and [createdAt], and always
    stores it unsynced, so that it is a candidate of the next pass.  When
    the resolution is [merge] without a precomputed item, the stored row is
    live even if the local row was soft-deleted. *)
Theorem resolveConflicts_stores_resolved_unsynced (resolved : ResolvedConflict)
    (w : World) (existing : BudgetItem.t) (rest : list BudgetItem.t) :
  removesLocal resolved = false ->
  selectById BudgetItem.id (BudgetItem.id (localItem (conflict resolved))) (budgetItems w)
    = existing :: rest ->
  let finalItem := eval (applyResolutionNow resolved) w in
  let w' := exec (resolveConflicts [resolved]) w in
  exists stored others,
    selectById BudgetItem.id (BudgetItem.id (localItem (conflict resolved)))
      (budgetItems w') = stored :: others
    /\ BudgetItem.category stored = BudgetItem.category finalItem
    /\ BudgetItem.description stored = BudgetItem.description finalItem
    /\ BudgetItem.amount stored = BudgetItem.amount finalItem
    /\ BudgetItem.type stored = BudgetItem.type finalItem
    /\ BudgetItem.date stored = BudgetItem.date finalItem
    /\ BudgetItem.deleted stored = BudgetItem.deleted finalItem
    /\ BudgetItem.createdAt stored = BudgetItem.createdAt existing
    /\ BudgetItem.synced stored = false
    /\ In stored (eval getUnsyncedItems w')
    /\ (resolution resolved = merge -> mergedItem resolved = None ->
        BudgetItem.deleted stored = false).
Proof.
  intros Hkeep Hsel finalItem w'.
  destruct (resolveStep_run resolved w) as [n Hstep]. rewrite Hkeep in Hstep.
  fold finalItem in Hstep.
  assert (Hsel' : selectById BudgetItem.id (BudgetItem.id (localItem (conflict resolved)))
                    (budgetItems (set_reads n w)) = existing :: rest) by exact Hsel.
  pose proof (updateBudgetItem_found _ (resolvedFields finalItem) _ _ _ Hsel') as Hupd.
  cbv zeta in Hupd.
  cbn [spread resolvedFields default Partial.id Partial.category Partial.description
         Partial.amount Partial.type Partial.date Partial.synced Partial.updatedAt
         Partial.createdAt Partial.deleted BudgetItem.category BudgetItem.description
         BudgetItem.amount BudgetItem.type BudgetItem.date BudgetItem.createdAt
         BudgetItem.deleted] in Hupd.
  set (stored := BudgetItem.mk _ _ _ _ _ _ _ _ _ _) in Hupd.
  assert (Hw' : budgetItems w' = insertOrReplace BudgetItem.id stored (budgetItems w)).
  { subst w'. rewrite resolveConflicts_run. cbv zeta. rewrite forOf_single, Hstep.
    unfold exec. rewrite Hupd. reflexivity. }
  destruct (selectById_insertOrReplace BudgetItem.id stored (budgetItems w))
    as [others Ho].
  rewrite <- Hw' in Ho. cbn [BudgetItem.id stored] in Ho.
  exists stored, others. split; [exact Ho|].
  repeat (split; [reflexivity|]).
  split.
  - unfold eval, getUnsyncedItems, gets. cbn [fst]. apply filter_In.
    split; [|reflexivity]. by apply (selectById_key _ _ _ _ _ Ho).
  - intros Hmerge Hnone. subst stored finalItem. cbn [BudgetItem.deleted].
    unfold eval, applyResolutionNow. rewrite Hmerge, Hnone. cbn [fst].
    unfold newDate, bind, ret. cbn [fst]. unfold applyResolution.
    rewrite Hmerge, Hnone. reflexivity.
Qed.

End ResolutionExtras.

(** ** More about the outbox *)

Lemma selectById_fresh {Row : Type} (key : Row -> string) (k : string) (t : list Row) :
  ~ In k (map key t) -> selectById key k t = [].
Proof.
  intros Hfresh. destruct (selectById key k t) as [|r rest] eqn:E; [reflexivity|].
  destruct (selectById_key key _ _ _ _ E) as [Hk Hin].
  exfalso. apply Hfresh. rewrite <- Hk. by apply in_map.
Qed.

Lemma deleteByIds_sublist {Row : Type} (key : Row -> string) (ids : list string) :
  forall t : list Row, sublist (foldl (fun t k => deleteById key k t) t ids) t.
Proof.
  induction ids as [|k ids IH]; intros t; [reflexivity|].
  cbn [foldl]. etrans; [apply IH|]. unfold deleteById.
  induction t as [|x t IHt]; cbn [List.filter]; [reflexivity|].
  destruct (negb (String.eqb (key x) k)); [by apply sublist_skip | by apply sublist_cons].
Qed.

Lemma deleteByIds_primary_key {Row : Type} (key : Row -> string) (ids : list string) :
  forall t : list Row,
    List.NoDup (map key t) ->
    List.NoDup (map key (foldl (fun t k => deleteById key k t) t ids)).
Proof.
  induction ids as [|k ids IH]; intros t Hnd; [exact Hnd|].
  cbn [foldl]. apply IH. by apply deleteById_primary_key.
Qed.

Lemma onlyOutboxAndClock_refl (w : World) : onlyOutboxAndClock w w.
Proof. unfold onlyOutboxAndClock. by destruct w. Qed.

Lemma onlyOutboxAndClock_trans (w1 w2 w3 : World) :
  onlyOutboxAndClock w1 w2 -> onlyOutboxAndClock w2 w3 -> onlyOutboxAndClock w1 w3.
Proof. unfold onlyOutboxAndClock. intros H12 H23. rewrite H23, H12. reflexivity. Qed.

Section OutboxExtras.
Context `{Host}.

Lemma executeMutationHelper_run (key : string) (variables : JSAny) (w : World) :
  executeMutationHelper key variables w =
  if existsb (String.eqb key) knownMutationKeys
  then (apiCall (reads w) key variables, set_reads (S (reads w)) w)
  else (false, w).
Proof.
  unfold executeMutationHelper. by destruct (existsb (String.eqb key) knownMutationKeys).
Qed.

(** One iteration of the loop of [syncNow]. *)
Lemma replay_cons (item : MutationRequest.t) (rest : list MutationRequest.t)
    (successCount failCount : nat) (w : World) :
  let r := executeMutationHelper (MutationRequest.mutationKey item)
             (MutationRequest.variables item) w in
  let w2 := set_invoked (invoked (snd r) ++ [(item, fst r)]) (snd r) in
  replay (item :: rest) successCount failCount w =
  if fst r
  then replay rest (S successCount) failCount
         (set_mutationQueue
            (deleteById MutationRequest.id (MutationRequest.id item) (mutationQueue w2)) w2)
  else replay rest successCount (S failCount) w2.
Proof.
  cbv zeta. cbn [replay]. unfold bind, modify, removeMutationFromQueue.
  destruct (executeMutationHelper _ _ w) as [ok w1]. cbn [fst snd].
  by destruct ok.
Qed.

Lemma replay_frame (queue : list MutationRequest.t) :
  forall successCount failCount w,
    onlyOutboxAndClock w (exec (replay queue successCount failCount) w).
Proof.
  induction queue as [|item rest IH]; intros sc fc w; [apply onlyOutboxAndClock_refl|].
  unfold exec. rewrite replay_cons. cbv zeta. rewrite executeMutationHelper_run.
  destruct (existsb _ knownMutationKeys); cbn [fst snd].
  - destruct (apiCall (reads w) _ _).
    + eapply onlyOutboxAndClock_trans; [|apply IH]. unfold onlyOutboxAndClock. reflexivity.
    + eapply onlyOutboxAndClock_trans; [|apply IH]. unfold onlyOutboxAndClock. reflexivity.
  - eapply onlyOutboxAndClock_trans; [|apply IH]. unfold onlyOutboxAndClock.
    cbn. by destruct w.
Qed.

(** A call that is logged as succeeded had a known mutation key. *)
Lemma replay_succeeded_known (queue : list MutationRequest.t) :
  forall successCount failCount w log e,
    invoked (exec (replay queue successCount failCount) w) = (invoked w ++ log)%list ->
    In (e, true) log ->
    existsb (String.eqb (MutationRequest.mutationKey e)) knownMutationKeys = true.
Proof.
  induction queue as [|item rest IH]; intros sc fc w log e Hlog Hin.
  - change (exec (replay [] sc fc) w) with w in Hlog.
    rewrite <- (app_nil_r (invoked w)) in Hlog at 1.
    apply app_inv_head in Hlog. subst log. destruct Hin.
  - unfold exec in Hlog. rewrite replay_cons in Hlog. cbv zeta in Hlog.
    rewrite executeMutationHelper_run in Hlog.
    destruct (existsb (String.eqb (MutationRequest.mutationKey item)) knownMutationKeys)
      eqn:Hknown; cbn [fst snd] in Hlog.
    + destruct (apiCall (reads w) _ _).
      * match type of Hlog with
        | invoked (replay rest (S sc) fc ?w2).2 = _ =>
            destruct (replay_log rest (S sc) fc w2) as (log' & _ & Hi & _);
            unfold exec in Hi; rewrite Hi in Hlog;
            pose proof (IH (S sc) fc w2 log' e Hi) as IHe
        end.
        cbn [invoked set_mutationQueue set_invoked set_reads] in Hlog.
        rewrite <- app_assoc in Hlog. apply app_inv_head in Hlog. subst log.
        destruct Hin as [[= <-] | Hin]; [exact Hknown | by apply IHe].
      * match type of Hlog with
        | invoked (replay rest sc (S fc) ?w2).2 = _ =>
            destruct (replay_log rest sc (S fc) w2) as (log' & _ & Hi & _);
            unfold exec in Hi; rewrite Hi in Hlog;
            pose proof (IH sc (S fc) w2 log' e Hi) as IHe
        end.
        cbn [invoked set_mutationQueue set_invoked set_reads] in Hlog.
        rewrite <- app_assoc in Hlog. apply app_inv_head in Hlog. subst log.
        destruct Hin as [[=] | Hin]. by apply IHe.
    + match type of Hlog with
      | invoked (replay rest sc (S fc) ?w2).2 = _ =>
          destruct (replay_log rest sc (S fc) w2) as (log' & _ & Hi & _);
          unfold exec in Hi; rewrite Hi in Hlog;
          pose proof (IH sc (S fc) w2 log' e Hi) as IHe
      end.
      cbn [invoked set_mutationQueue set_invoked set_reads] in Hlog.
      rewrite <- app_assoc in Hlog. apply app_inv_head in Hlog. subst log.
      destruct Hin as [[=] | Hin]. by apply IHe.
Qed.

Lemma syncNow_run (w : World) :
  online w = true -> outboxSyncing w = false ->
  exec syncNow w =
  set_outboxSyncing false
    (if (length (orderByCreatedAtAsc (mutationQueue w)) =? 0)%nat
     then set_outboxSyncing false (set_outboxSyncing true w)
     else exec (replay (orderByCreatedAtAsc (mutationQueue w)) 0 0)
            (set_outboxSyncing true w)).
Proof.
  intros Hon Hs. unfold exec, syncNow, bind, getQueuedMutations, gets, modify.
  cbv beta iota. rewrite Hon, Hs. cbn [negb orb]. cbv beta iota.
  change (mutationQueue (set_outboxSyncing true w)) with (mutationQueue w).
  destruct (length (orderByCreatedAtAsc (mutationQueue w)) =? 0)%nat; [reflexivity|].
  by destruct (replay (orderByCreatedAtAsc (mutationQueue w)) 0 0 (set_outboxSyncing true w)).
Qed.

Lemma syncNow_refused (w : World) :
  online w = false \/ outboxSyncing w = true -> syncNow w = (tt, w).
Proof.
  intros Hwhy. unfold syncNow, bind, gets. cbv beta iota.
  destruct (online w); cbn [negb orb]; [|reflexivity].
  destruct (outboxSyncing w); [reflexivity|].
  destruct Hwhy; discriminate.
Qed.

Lemma syncNow_frame (w : World) : onlyOutboxAndClock w (exec syncNow w).
Proof.
  destruct (online w) eqn:Hon;
    [|unfold exec; rewrite syncNow_refused by tauto; apply onlyOutboxAndClock_refl].
  destruct (outboxSyncing w) eqn:Hs;
    [unfold exec; rewrite syncNow_refused by tauto; apply onlyOutboxAndClock_refl|].
  rewrite (syncNow_run w Hon Hs).
  destruct (length _ =? 0)%nat.
  - unfold onlyOutboxAndClock. cbn. by destruct w.
  - pose proof (replay_frame (orderByCreatedAtAsc (mutationQueue w)) 0 0
                  (set_outboxSyncing true w)) as Hf.
    unfold onlyOutboxAndClock in *. rewrite Hf. reflexivity.
Qed.

(** X23. The replay of the outbox is refused, without any effect, when the
    client is offline or a replay is running.  In every case it leaves the
    table of budget items, the log of sync requests and the state of the
    sync pass alone; it only ever removes entries from the queue, never adds
    or reorders them, and keeps the ids of the queue unique. *)
Theorem syncNow_touches_only_the_outbox (w : World) :
  let w' := exec syncNow w in
  (online w = false \/ outboxSyncing w = true -> w' = w)
  /\ budgetItems w' = budgetItems w
  /\ posted w' = posted w
  /\ conflicts w' = conflicts w
  /\ syncInProgress w' = syncInProgress w
  /\ sublist (mutationQueue w') (mutationQueue w)
  /\ (List.NoDup (map MutationRequest.id (mutationQueue w)) ->
      List.NoDup (map MutationRequest.id (mutationQueue w'))).
Proof.
  intros w'. subst w'.
  split; [intros Hwhy; unfold exec; by rewrite syncNow_refused|].
  pose proof (syncNow_frame w) as Hf. unfold onlyOutboxAndClock in Hf.
  split; [by rewrite Hf|]. split; [by rewrite Hf|].
  split; [by rewrite Hf|]. split; [by rewrite Hf|].
  destruct (online w) eqn:Hon;
    [|unfold exec; rewrite syncNow_refused by tauto; split; [reflexivity | tauto]].
  destruct (outboxSyncing w) eqn:Hs;
    [unfold exec; rewrite syncNow_refused by tauto; split; [reflexivity | tauto]|].
  destruct (syncNow_log w Hon Hs) as (log & _ & _ & Hm & _). rewrite Hm.
  split; [apply deleteByIds_sublist | apply deleteByIds_primary_key].
Qed.

(** X24. After a replay that was let through, the queue is empty when every
    call succeeded and is exactly what it was when every call failed: an
    entry that keeps failing is retried by every replay, without limit. *)
Theorem syncNow_all_or_nothing (w : World) :
  online w = true -> outboxSyncing w = false ->
  exists log,
    invoked (exec syncNow w) = (invoked w ++ log)%list
    /\ map fst log = eval getQueuedMutations w
    /\ outboxSyncing (exec syncNow w) = false
    /\ ((forall e ok, In (e, ok) log -> ok = true) -> mutationQueue (exec syncNow w) = [])
    /\ ((forall e ok, In (e, ok) log -> ok = false) ->
        mutationQueue (exec syncNow w) = mutationQueue w).
Proof.
  intros Hon Hs. destruct (syncNow_log w Hon Hs) as (log & Hlog & Hi & Hm & Ho).
  exists log. split; [exact Hi|]. split; [exact Hlog|]. split; [exact Ho|].
  rewrite Hm. split.
  - intros Hall.
    destruct (foldl _ (mutationQueue w) (succeededIds log)) as [|r rest] eqn:E;
      [reflexivity|].
    assert (Hr : In r (foldl (fun t k => deleteById MutationRequest.id k t)
                         (mutationQueue w) (succeededIds log))) by (rewrite E; by left).
    apply In_deleteByIds in Hr as [Hr Hnot]. exfalso. apply Hnot.
    apply (Permutation_in r (Permutation_sym (orderByCreatedAtAsc_perm _))) in Hr.
    rewrite <- Hlog in Hr. apply in_map_iff in Hr as ([e ok] & He & Hin).
    cbn in He. subst e. rewrite (Hall r ok Hin) in Hin.
    unfold succeededIds. apply in_map_iff. exists (r, true). split; [reflexivity|].
    apply filter_In. by split.
  - intros Hnone.
    assert (Hs0 : succeededIds log = []).
    { unfold succeededIds.
      destruct (List.filter snd log) as [|[e ok] rest] eqn:E; [reflexivity|].
      assert (Hin : In (e, ok) (List.filter snd log)) by (rewrite E; by left).
      apply filter_In in Hin as [Hin Hok]. cbn in Hok.
      rewrite (Hnone e ok Hin) in Hok. discriminate. }
    by rewrite Hs0.
Qed.

(** X25. An entry whose mutation key is not one of the keys that
    [executeMutationHelper] knows is never sent to the remote API and never
    leaves the queue: the attempt fails without consulting the server, and
    the entry is still queued after the replay. *)
Theorem syncNow_unknown_key_stays (w : World) (e : MutationRequest.t) :
  online w = true -> outboxSyncing w = false ->
  List.NoDup (map MutationRequest.id (mutationQueue w)) ->
  In e (mutationQueue w) ->
  existsb (String.eqb (MutationRequest.mutationKey e)) knownMutationKeys = false ->
  (forall w0,
     executeMutationHelper (MutationRequest.mutationKey e) (MutationRequest.variables e) w0
     = (false, w0))
  /\ In e (mutationQueue (exec syncNow w))
  /\ exists log,
       invoked (exec syncNow w) = (invoked w ++ log)%list /\ In (e, false) log.
Proof.
  intros Hon Hs Hnd Hin Hunknown.
  split; [intros w0; by rewrite executeMutationHelper_run, Hunknown|].
  destruct (syncNow_log w Hon Hs) as (log & Hlog & Hi & Hm & _).
  pose proof (orderByCreatedAtAsc_perm (mutationQueue w)) as Hperm.
  rewrite <- Hlog in Hperm.
  assert (Hknown : forall e', In (e', true) log ->
            existsb (String.eqb (MutationRequest.mutationKey e')) knownMutationKeys = true).
  { intros e' He'. rewrite (syncNow_run w Hon Hs) in Hi.
    destruct (length (orderByCreatedAtAsc (mutationQueue w)) =? 0)%nat eqn:Hlen.
    - cbn in Hi. rewrite <- (app_nil_r (invoked w)) in Hi at 1.
      apply app_inv_head in Hi. subst log. destruct He'.
    - eapply (replay_succeeded_known _ 0 0 (set_outboxSyncing true w) log); [|exact He'].
      exact Hi. }
  assert (Hlogged : In (e, false) log).
  { apply (Permutation_in e (Permutation_sym Hperm)) in Hin.
    apply in_map_iff in Hin as ([e' ok] & He & Hin'). cbn in He. subst e'.
    destruct ok; [|assumption].
    rewrite (Hknown e Hin') in Hunknown. discriminate. }
  split; [|by exists log].
  rewrite Hm. apply In_deleteByIds. split; [assumption|].
  intros Hsucc. unfold succeededIds in Hsucc.
  apply in_map_iff in Hsucc as ([e' ok] & Hid & Hf). cbn in Hid.
  apply filter_In in Hf as [Hin' Hok]. cbn in Hok. subst ok.
  assert (e' = e).
  { apply (NoDup_map_inj_on MutationRequest.id (mutationQueue w)); try assumption.
    apply (Permutation_in e' Hperm). apply in_map_iff. by exists (e', true). }
  subst e'. rewrite (Hknown e Hin') in Hunknown. discriminate.
Qed.

(** X26. [queueMutation] makes no request: it only puts one entry, stamped
    with a fresh uuid and the current time, into the queue, where
    [getQueuedMutations] lists it.  With an unused uuid the entry goes to the
    end of the table and removing it by its id gives the queue back as it
    was; in every case the ids of the queue stay unique.  Removing an id
    that is not queued changes nothing. *)
Theorem queueMutation_enqueues (mutationKey : string) (variables : JSAny) (w : World) :
  let entry :=
    MutationRequest.mk (randomUUID (reads w)) mutationKey variables
      (wallClock (S (reads w))) in
  let w' := exec (queueMutation mutationKey variables) w in
  In entry (eval getQueuedMutations w')
  /\ onlyOutboxAndClock w w'
  /\ invoked w' = invoked w
  /\ (List.NoDup (map MutationRequest.id (mutationQueue w)) ->
      List.NoDup (map MutationRequest.id (mutationQueue w')))
  /\ (~ In (MutationRequest.id entry) (map MutationRequest.id (mutationQueue w)) ->
      mutationQueue w' = (mutationQueue w ++ [entry])%list
      /\ mutationQueue (exec (removeMutationFromQueue (MutationRequest.id entry)) w')
         = mutationQueue w)
  /\ (forall id, ~ In id (map MutationRequest.id (mutationQueue w)) ->
        exec (removeMutationFromQueue id) w = w).
Proof.
  intros entry w'.
  assert (Hq : mutationQueue w' = insertOrReplace MutationRequest.id entry (mutationQueue w))
    by reflexivity.
  split.
  { unfold eval, getQueuedMutations, gets. cbn [fst].
    apply (Permutation_in entry (Permutation_sym (orderByCreatedAtAsc_perm _))).
    rewrite Hq.
    destruct (selectById_insertOrReplace MutationRequest.id entry (mutationQueue w))
      as [others Ho].
    by apply (selectById_key _ _ _ _ _ Ho). }
  split; [unfold onlyOutboxAndClock; reflexivity|].
  split; [reflexivity|].
  split; [intros Hnd; rewrite Hq; by apply insertOrReplace_primary_key|].
  split.
  - intros Hfresh.
    assert (Happ : mutationQueue w' = (mutationQueue w ++ [entry])%list)
      by (rewrite Hq; by apply insertOrReplace_fresh).
    split; [exact Happ|].
    unfold exec, removeMutationFromQueue, modify. cbn [snd mutationQueue set_mutationQueue].
    rewrite Happ. unfold deleteById. rewrite List.filter_app.
    fold (deleteById MutationRequest.id (MutationRequest.id entry) (mutationQueue w)).
    rewrite deleteById_absent by (by apply selectById_fresh).
    cbn [List.filter]. rewrite String.eqb_refl. cbn [negb]. apply app_nil_r.
  - intros id Hfresh. unfold exec, removeMutationFromQueue, modify. cbn [snd].
    rewrite deleteById_absent by (by apply selectById_fresh). by destruct w.
Qed.

End OutboxExtras.

(** ** Detection, automatic resolution and the server's answer together *)

Section DetectionExtras.
Context `{Host}.

(** X27. Automatic resolution of a detected conflict removes the local row
    only when both sides are deleted: if the local item or the server item
    is alive, the resolution updates the row instead of deleting it. *)
Theorem autoResolve_removes_only_both_deleted (l : BudgetItem.t)
    (s : ServerBudgetItem.t) (c : SyncConflict) :
  detectConflict l s = Some c ->
  removesLocal (autoResolveConflict c) = true ->
  BudgetItem.deleted l = true /\ ServerBudgetItem.deleted s = true
  /\ conflictType c = both_modified.
Proof.
  intros Hc. destruct (detectConflict_Some l s c Hc) as [H1 | [H1 | H1]].
  - destruct H1 as (-> & Hl & Hs & Hgt). unfold removesLocal, autoResolveConflict.
    cbn [localItem serverItem]. rewrite (num_gt_num_ge_false _ _ Hgt).
    cbn [resolution conflict serverItem isKeepServer andb]. rewrite Hs. discriminate.
  - destruct H1 as (-> & Hl & Hs & Hgt). unfold removesLocal, autoResolveConflict.
    cbn [localItem serverItem]. rewrite (num_gt_num_ge_true _ _ Hgt).
    cbn [resolution isKeepServer andb]. discriminate.
  - destruct H1 as (-> & Hsame & _). unfold removesLocal. intros Hrem.
    apply andb_true_iff in Hrem as [_ Hs].
    assert (Hs' : ServerBudgetItem.deleted s = true).
    { unfold autoResolveConflict in Hs. cbn [localItem serverItem] in Hs.
      by destruct (num_ge _ _). }
    rewrite Hsame. repeat split; assumption.
Qed.

(** X28. When the request for the server counterparts fails, or its answer
    holds no item list, no conflict is ever detected: an admitted pass
    reports none, leaves the pending conflicts as they were, and POSTs every
    candidate unchecked (provided their dates are valid). *)
Theorem triggerSync_without_server_items (w : World) :
  admitted w ->
  let candidates := eval getUnsyncedItems w in
  fetchBudgetItems (reads w) (map BudgetItem.id candidates) = FetchFailed
  \/ fetchBudgetItems (reads w) (map BudgetItem.id candidates) = FetchOk None ->
  (forall x, noConflictFor (eval (fetchServerItems (map BudgetItem.id candidates)) w) x)
  /\ resultConflicts (eval triggerSync w) = []
  /\ conflicts (exec triggerSync w) = conflicts w
  /\ (forall body, candidates <> [] -> payload candidates = Some body ->
        posted (exec triggerSync w) = (posted w ++ [body])%list).
Proof.
  intros Hadm candidates Hfetch.
  assert (Hempty : eval (fetchServerItems (map BudgetItem.id candidates)) w = ∅).
  { unfold eval, fetchServerItems. cbn [fst]. by destruct Hfetch as [-> | ->]. }
  assert (Hsafe : forall x,
            noConflictFor (eval (fetchServerItems (map BudgetItem.id candidates)) w) x).
  { intros x. unfold noConflictFor. rewrite Hempty. by rewrite lookup_empty. }
  split; [exact Hsafe|].
  pose proof (triggerSync_admitted w Hadm) as Hrun. cbv zeta in Hrun.
  fold candidates in Hrun.
  destruct candidates as [|x xs] eqn:Hc.
  { unfold eval at 1, exec. rewrite Hrun. cbn. split; [reflexivity|].
    split; [reflexivity|]. intros body Hne. congruence. }
  assert (Hne : x :: xs <> []) by discriminate.
  pose proof (syncItemsToServer_safe (x :: xs) (takeGuards w) Hne
                (fun y _ => Hsafe y)) as Hsync.
  cbv zeta in Hsync.
  change (reads (takeGuards w)) with (reads w) in Hsync.
  change (posted (takeGuards w)) with (posted w) in Hsync.
  cbn [length Nat.eqb] in Hrun. unfold eval, exec in Hrun.
  rewrite Hsync in Hrun.
  destruct (payload (x :: xs)) as [body|] eqn:Hbody.
  - destruct (postBudgetSync (S (reads w)) body) as [m | d st | named failed].
    + cbn [fst snd resultConflicts success syncedIds error length Nat.ltb Nat.leb andb]
        in Hrun.
      unfold eval at 1, exec. rewrite Hrun.
      destruct (truthy _); cbn; (split; [reflexivity|]; split; [reflexivity|]);
        intros b _ [= <-]; reflexivity.
    + cbn [fst snd resultConflicts success syncedIds error length Nat.ltb Nat.leb andb]
        in Hrun.
      unfold eval at 1, exec. rewrite Hrun.
      destruct (truthy _); cbn; (split; [reflexivity|]; split; [reflexivity|]);
        intros b _ [= <-]; reflexivity.
    + destruct (default (map BudgetItem.id (x :: xs)) named) as [|a acks].
      * cbn [fst snd resultConflicts success syncedIds error length Nat.ltb Nat.leb andb
               truthy] in Hrun.
        unfold eval at 1, exec. rewrite Hrun. cbn. split; [reflexivity|].
        split; [reflexivity|]. intros b _ [= <-]. reflexivity.
      * cbn [fst snd resultConflicts success syncedIds error length Nat.ltb Nat.leb andb]
          in Hrun.
        pose proof (markItemsAsSynced_frame (a :: acks)
                      (set_posted (posted w ++ [body])
                         (set_reads (S (S (reads w))) (takeGuards w)))) as Hf.
        unfold exec in Hf.
        set (w3 := (markItemsAsSynced (a :: acks) _).2) in *.
        unfold eval at 1, exec. rewrite Hrun. cbn [fst snd resultConflicts].
        split; [reflexivity|].
        split; [cbn; rewrite Hf; reflexivity|].
        intros b _ [= <-]. cbn. rewrite Hf. reflexivity.
  - cbn [fst snd resultConflicts success syncedIds error length Nat.ltb Nat.leb andb]
      in Hrun.
    unfold eval at 1, exec. rewrite Hrun. cbn. split; [reflexivity|].
    split; [reflexivity|]. intros b _ [=].
Qed.

End DetectionExtras.

(** ** The offline wrapper of mutations *)

Section OfflineMutationExtras.
Context `{Host}.


(** X30. The keys under which the mutation hooks enqueue are exactly the
    keys that [executeMutationHelper] dispatches on: no hook can enqueue an
    entry that replay would reject as unknown, and no branch of the
    dispatcher is without a hook. *)
Theorem hookMutationKeys_are_known (key : string) :
  In key hookMutationKeys <->
  existsb (String.eqb key) knownMutationKeys = true.
Proof.
  rewrite existsb_exists. split.
  - intros Hin. exists key. split; [|apply String.eqb_refl].
    cbn in Hin. cbn. intuition.
  - intros (k & Hin & Hk). apply String.eqb_eq in Hk. subst k.
    cbn in Hin. cbn. intuition.
Qed.

End OfflineMutationExtras.

(** ** The further properties at work on concrete inputs *)

Lemma detectConflict_result_shape_witness :
  conflictType (mkConflict groceries groceriesOnServer both_modified) <> update.
Proof.
  destruct (@detectConflict_result_shape serverHost groceries groceriesOnServer
              (mkConflict groceries groceriesOnServer both_modified) eq_refl)
    as (_ & _ & Hkind).
  exact Hkind.
Defined.

Lemma detectConflict_invalid_timestamp_witness :
  @detectConflict serverHost deletedGroceries groceriesUndatedOnServer = None.
Proof.
  apply (@detectConflict_invalid_timestamp serverHost). right. reflexivity.
Defined.

Lemma applyResolution_autoResolveConflict_witness :
  @applyResolution serverHost InvalidDate
    (@autoResolveConflict serverHost (mkConflict groceries groceriesOnServer both_modified))
  = @serverItemToLocal serverHost groceriesOnServer.
Proof.
  destruct (@applyResolution_autoResolveConflict serverHost InvalidDate
              (mkConflict groceries groceriesOnServer both_modified)) as (_ & Hserver).
  apply Hserver. intros (x & y & Hx & Hy & Hle).
  vm_compute in Hx, Hy. injection Hx as <-. injection Hy as <-. lia.
Defined.

Lemma autoResolve_delete_conflict_keeps_live_witness :
  resolution
    (@autoResolveConflict serverHost
       (mkConflict deletedGroceries groceriesOnServer delete_local)) = keep_server.
Proof.
  destruct (@autoResolve_delete_conflict_keeps_live serverHost InvalidDate
              deletedGroceries groceriesOnServer
              (mkConflict deletedGroceries groceriesOnServer delete_local) eq_refl)
    as (Hlocal & _).
  by destruct (Hlocal eq_refl).
Defined.

Lemma hardDeleteBudgetItem_removes_witness :
  selectById BudgetItem.id "b"
    (budgetItems (exec (hardDeleteBudgetItem "a") (worldWith [groceries; rent]))) = [rent]
  /\ exec (hardDeleteBudgetItem "zzz") (worldWith [groceries; rent])
     = worldWith [groceries; rent].
Proof.
  split.
  - destruct (hardDeleteBudgetItem_removes "a" (worldWith [groceries; rent]))
      as (_ & Hother & _).
    rewrite (Hother "b"); [reflexivity | discriminate].
  - destruct (hardDeleteBudgetItem_removes "zzz" (worldWith [groceries; rent]))
      as (_ & _ & Habsent & _).
    apply Habsent. reflexivity.
Defined.

Lemma deleteBudgetItem_soft_witness :
  eval (@deleteBudgetItem steadyHost "a") (worldWith [groceries; rent]) = true
  /\ @deleteBudgetItem steadyHost "zzz" (worldWith [groceries; rent])
     = (false, worldWith [groceries; rent]).
Proof.
  destruct (@deleteBudgetItem_soft steadyHost "a" (worldWith [groceries; rent]))
    as (_ & Hfound).
  destruct (@deleteBudgetItem_soft steadyHost "zzz" (worldWith [groceries; rent]))
    as (Hmissing & _).
  split.
  - by destruct (Hfound groceries [] eq_refl) as (Hret & _).
  - apply Hmissing. reflexivity.
Defined.

Lemma getAllBudgetItems_active_latest_first_witness :
  StronglySorted date_not_older
    (eval getAllBudgetItems (worldWith [groceries; deletedGroceries; rent])).
Proof.
  destruct (getAllBudgetItems_active_latest_first
              (worldWith [groceries; deletedGroceries; rent])) as (_ & _ & _ & Hsorted).
  apply Hsorted. intros r [<- | [<- | [<- | []]]] _; discriminate.
Defined.

Lemma addBudgetItem_appends_witness :
  map BudgetItem.id
    (budgetItems
       (exec (@addBudgetItem steadyHost
                (NewItem.mk "Food" "Lunch" 12 expense (Instant 1704067200000)))
          (worldWith [groceries])))
  = ["a"; "budget_0"].
Proof.
  destruct (@addBudgetItem_appends steadyHost
              (NewItem.mk "Food" "Lunch" 12 expense (Instant 1704067200000))
              (worldWith [groceries])) as (_ & _ & _ & _ & _ & Hfresh).
  destruct Hfresh as (Happ & _).
  - simpl. intros [Heq | []]. discriminate.
  - rewrite Happ. reflexivity.
Defined.

Lemma budgetDb_keeps_primary_key_witness :
  List.NoDup
    (map BudgetItem.id
       (budgetItems (exec (markItemsAsSynced ["a"; "b"]) (worldWith [groceries; rent])))).
Proof.
  destruct (@budgetDb_keeps_primary_key steadyHost (worldWith [groceries; rent]))
    as (_ & _ & _ & _ & Hmark).
  - repeat constructor; simpl; intuition discriminate.
  - apply Hmark.
Defined.

Lemma markItemsAsSynced_clears_listed_witness :
  eval getUnsyncedItems (exec (markItemsAsSynced ["a"]) (worldWith [groceries; rent]))
  = [rent]
  /\ ~ In (BudgetItem.id rent) ["a"].
Proof.
  destruct (markItemsAsSynced_clears_listed ["a"] (worldWith [groceries; rent]))
    as (Hleft & Hnot & _).
  split.
  - rewrite Hleft. reflexivity.
  - apply Hnot. rewrite Hleft. left. reflexivity.
Defined.

Lemma checkItems_partition_witness :
  snd (@checkItems serverHost ∅ [groceries; rent]) = [groceries; rent].
Proof.
  destruct (@checkItems_partition serverHost ∅ [groceries; rent]) as (_ & _ & _ & Hall).
  apply Hall. reflexivity.
Defined.

Lemma serverItemsMap_lookup_witness :
  serverItemsMap [groceriesOnServer; groceriesGoneOnServer] !! "zzz" = None.
Proof.
  destruct (serverItemsMap_lookup [groceriesOnServer; groceriesGoneOnServer] "zzz")
    as (_ & Hnone & _).
  apply Hnone. simpl. intros [Heq | [Heq | []]]; discriminate.
Defined.

Lemma triggerSync_guards_witness :
  @triggerSync serverHost (offlineWorld [groceries])
  = (mkSyncResult false [] [] [] (Some "No internet connection"), offlineWorld [groceries])
  /\ syncInProgress (exec (@triggerSync serverHost) (worldWith [groceries])) = false.
Proof.
  split.
  - destruct (@triggerSync_guards serverHost (offlineWorld [groceries])) as (_ & Hoff & _).
    apply Hoff; reflexivity.
  - destruct (@triggerSync_guards serverHost (worldWith [groceries])) as (_ & _ & Hadm).
    by destruct Hadm as [Hp _]; [repeat split|].
Defined.

Lemma triggerSync_nothing_to_sync_witness :
  posted (exec (@triggerSync serverHost) emptyWorld) = []
  /\ lastSyncTime (exec (@triggerSync serverHost) emptyWorld)
     = Some (Instant 1704067200000).
Proof.
  unfold exec.
  rewrite (@triggerSync_nothing_to_sync serverHost emptyWorld);
    [split; reflexivity | repeat split | reflexivity].
Defined.


Lemma triggerSync_failed_push_keeps_items_witness :
  budgetItems (exec (@triggerSync steadyHost) (worldWith [groceries; rent]))
  = [groceries; rent]
  /\ syncError (exec (@triggerSync steadyHost) (worldWith [groceries; rent]))
     = Some "Failed to fetch".
Proof.
  assert (Hbody : exists body, payload [groceries; rent] = Some body)
    by (eexists; reflexivity).
  destruct Hbody as [body Hbody].
  destruct (@triggerSync_failed_push_keeps_items steadyHost
              (worldWith [groceries; rent]) body)
    as (_ & _ & _ & _ & Herr & _ & Hitems & _).
  - repeat split.
  - discriminate.
  - intros x _. unfold noConflictFor, fetchServerItems, eval. cbn.
    by rewrite lookup_empty.
  - exact Hbody.
  - intros named failed. discriminate.
  - split; [exact Hitems|]. rewrite Herr. reflexivity.
Defined.

Lemma triggerSync_invalid_date_blocks_batch_witness :
  posted (exec (@triggerSync acceptingHost) (worldWith [groceries; undated])) = []
  /\ failedIds (eval (@triggerSync acceptingHost) (worldWith [groceries; undated]))
     = ["a"; "c"].
Proof.
  destruct (@triggerSync_invalid_date_blocks_batch acceptingHost
              (worldWith [groceries; undated]) undated)
    as (_ & _ & Hfailed & Hposted & _).
  - repeat split.
  - intros x _. unfold noConflictFor, fetchServerItems, eval. cbn.
    by rewrite lookup_empty.
  - right. left. reflexivity.
  - left. reflexivity.
  - split; [exact Hposted | exact Hfailed].
Defined.

Lemma triggerSync_never_rewrites_witness :
  List.NoDup
    (map BudgetItem.id
       (budgetItems (exec (@triggerSync acceptingHost) (worldWith [groceries; rent])))).
Proof.
  destruct (@triggerSync_never_rewrites acceptingHost (worldWith [groceries; rent]))
    as (_ & Hpk & _).
  apply Hpk. repeat constructor; simpl; intuition discriminate.
Defined.

Lemma resolveConflicts_settles_witness :
  List.NoDup
    (map BudgetItem.id
       (budgetItems
          (exec (@resolveConflicts serverHost
                   [mkResolved (mkConflict groceries groceriesOnServer both_modified)
                      keep_local None])
             (worldWith [groceries; rent])))).
Proof.
  destruct (@resolveConflicts_settles serverHost
              [mkResolved (mkConflict groceries groceriesOnServer both_modified)
                 keep_local None]
              (worldWith [groceries; rent])) as (_ & _ & _ & _ & _ & _ & _ & Hpk).
  apply Hpk. repeat constructor; simpl; intuition discriminate.
Defined.

Lemma resolveConflicts_removes_server_deleted_witness :
  selectById BudgetItem.id "a"
    (budgetItems
       (exec (@resolveConflicts serverHost
                [mkResolved (mkConflict deletedGroceries groceriesGoneOnServer both_modified)
                   keep_server None])
          (worldWith [deletedGroceries; rent])))
  = [].
Proof.
  apply (@resolveConflicts_removes_server_deleted serverHost
           [mkResolved (mkConflict deletedGroceries groceriesGoneOnServer both_modified)
              keep_server None]
           (mkResolved (mkConflict deletedGroceries groceriesGoneOnServer both_modified)
              keep_server None));
    [left; reflexivity | reflexivity | reflexivity].
Defined.

Lemma resolveConflicts_stores_resolved_unsynced_witness :
  exists stored others,
    selectById BudgetItem.id "a"
      (budgetItems
         (exec (@resolveConflicts serverHost
                  [mkResolved (mkConflict deletedGroceries groceriesOnServer delete_local)
                     merge None])
            (worldWith [deletedGroceries; rent])))
    = stored :: others
    /\ BudgetItem.synced stored = false
    /\ BudgetItem.deleted stored = false.
Proof.
  destruct (@resolveConflicts_stores_resolved_unsynced serverHost
              (mkResolved (mkConflict deletedGroceries groceriesOnServer delete_local)
                 merge None)
              (worldWith [deletedGroceries; rent]) deletedGroceries [] eq_refl eq_refl)
    as (stored & others & Hsel & _ & _ & _ & _ & _ & _ & _ & Hsynced & _ & Hlive).
  exists stored, others. split; [exact Hsel|]. split; [exact Hsynced|].
  by apply Hlive.
Defined.

Lemma syncNow_touches_only_the_outbox_witness :
  exec (@syncNow steadyHost) (offlineWorld [groceries]) = offlineWorld [groceries]
  /\ List.NoDup
       (map MutationRequest.id (mutationQueue (exec (@syncNow steadyHost) worldWithOutbox))).
Proof.
  split.
  - destruct (@syncNow_touches_only_the_outbox steadyHost (offlineWorld [groceries]))
      as (Hrefused & _).
    apply Hrefused. left. reflexivity.
  - destruct (@syncNow_touches_only_the_outbox steadyHost worldWithOutbox)
      as (_ & _ & _ & _ & _ & _ & Hpk).
    apply Hpk. repeat constructor; simpl; intuition discriminate.
Defined.

Lemma syncNow_all_or_nothing_witness :
  exists log,
    invoked (exec (@syncNow steadyHost) worldWithOutbox) = log
    /\ map fst log = eval getQueuedMutations worldWithOutbox.
Proof.
  destruct (@syncNow_all_or_nothing steadyHost worldWithOutbox eq_refl eq_refl)
    as (log & Hlog & Hlisted & _).
  exists log. split; [exact Hlog | exact Hlisted].
Defined.

Lemma syncNow_unknown_key_stays_witness :
  In renameEntry (mutationQueue (exec (@syncNow steadyHost) worldWithOutbox)).
Proof.
  destruct (@syncNow_unknown_key_stays steadyHost worldWithOutbox renameEntry
              eq_refl eq_refl) as (_ & Hstays & _).
  - repeat constructor; simpl; intuition discriminate.
  - right. left. reflexivity.
  - reflexivity.
  - exact Hstays.
Defined.

Lemma queueMutation_enqueues_witness :
  map MutationRequest.id
    (mutationQueue (exec (@queueMutation steadyHost "createLoan" (JSNumber 3)) worldWithOutbox))
  = ["q1"; "q2"; "q3"; "uuid-0"]
  /\ exec (removeMutationFromQueue "q9") worldWithOutbox = worldWithOutbox.
Proof.
  destruct (@queueMutation_enqueues steadyHost "createLoan" (JSNumber 3) worldWithOutbox)
    as (_ & _ & _ & _ & Hfresh & Habsent).
  split.
  - destruct Hfresh as (Happ & _).
    + simpl. intuition discriminate.
    + rewrite Happ. reflexivity.
  - apply Habsent. simpl. intuition discriminate.
Defined.

Lemma autoResolve_removes_only_both_deleted_witness :
  BudgetItem.deleted deletedGroceries = true
  /\ ServerBudgetItem.deleted groceriesGoneOnServer = true
  /\ conflictType (mkConflict deletedGroceries groceriesGoneOnServer both_modified)
     = both_modified.
Proof.
  apply (@autoResolve_removes_only_both_deleted serverHost deletedGroceries
           groceriesGoneOnServer
           (mkConflict deletedGroceries groceriesGoneOnServer both_modified));
    reflexivity.
Defined.

Lemma triggerSync_without_server_items_witness :
  resultConflicts (eval (@triggerSync steadyHost) (worldWith [groceries; rent])) = [].
Proof.
  destruct (@triggerSync_without_server_items steadyHost (worldWith [groceries; rent]))
    as (_ & Hnone & _).
  - repeat split.
  - left. reflexivity.
  - exact Hnone.
Defined.


Lemma hookMutationKeys_are_known_witness :
  In "processLoanPayment" hookMutationKeys.
Proof.
  apply hookMutationKeys_are_known. reflexivity.
Defined.
